(** * GView LOG type plugin: a shallow embedding of [LOGFile.cpp]

    The development follows the layout of the C++ source:
    - [StringView]  : the fragment of [std::string_view] the parsers use
                      ([find], [find_first_of], [substr], [operator[]]),
                      over [size_t] positions kept in [Z] with the 64-bit
                      wrap-around written out;
    - [LOG]         : [LogLevel], [LogFormat], [LogEntry], [LogStatistics],
                      [DetectLogFormat], [ParseLogLevel], the four line
                      parsers, [UpdateStatistics] and [Update]; what the
                      C++ standard leaves undefined on their way is the
                      parameter [Platform];
    - [Lexer]       : [AnalyzeText], the tokenizer of the lexical viewer,
                      over [char16] code units and [uint32] positions;
    - [Plugin]      : [Validate] of [log.cpp];
    - [PanelViews]  : the rows that the Entries and Errors panels list.

    Definitions come first, the properties proved about them afterwards. *)

From Stdlib Require Import ZArith List Ascii String Bool Lia.
From Stdlib Require Import DecimalString.
Import ListNotations.
Local Open Scope Z_scope.

(* ================================================================== *)
(** ** Machine integers *)

(** [2^64] and [2^32], written out. *)
Definition two64 : Z := 18446744073709551616.
Definition two32 : Z := 4294967296.

(** [size_t] and [uint64] arithmetic. *)
Definition add64 (a b : Z) : Z := (a + b) mod two64.
Definition sub64 (a b : Z) : Z := (a - b) mod two64.

(** [uint32] arithmetic. *)
Definition add32 (a b : Z) : Z := (a + b) mod two32.

(** [static_cast<uint32>(x)] *)
Definition to_uint32 (x : Z) : Z := x mod two32.

(** [static_cast<uint8>(x)] *)
Definition to_uint8 (x : Z) : Z := x mod 256.

Definition INT_MAX : Z := 2147483647.

(* ================================================================== *)
(** ** Outcome of code that may throw

    [std::string_view::substr] throws [std::out_of_range] when its start
    position lies beyond the end of the view.  Loops are unrolled with
    fuel; running out of it is a third outcome, kept apart from the
    exception so that neither can pass for the other. *)

Inductive Exc (A : Type) : Type :=
| Ret (a : A)
| OutOfRange
| OutOfFuel.

Arguments Ret {A} a.
Arguments OutOfRange {A}.
Arguments OutOfFuel {A}.

Definition bind {A B : Type} (m : Exc A) (k : A -> Exc B) : Exc B :=
  match m with
  | Ret a => k a
  | OutOfRange => OutOfRange
  | OutOfFuel => OutOfFuel
  end.

Notation "x <- m ;; k" := (bind m (fun x => k))
  (at level 61, m at next level, right associativity).
Notation "' pat <- m ;; k" := (bind m (fun x => match x with pat => k end))
  (at level 61, pat pattern, m at next level, right associativity).

(* ================================================================== *)
(** ** [std::string_view] *)

Module StringView.

(** A view is the sequence of its [char]s. *)
Abbreviation string_view := (list ascii) (only parsing).

(** String literals of the source. *)
Definition lit (s : string) : string_view := list_ascii_of_string s.

(** Characters that cannot be written inside a literal here. *)
Definition dquote : ascii := ascii_of_nat 34.
Definition squote : ascii := ascii_of_nat 39.
Definition LF : ascii := ascii_of_nat 10.
Definition CR : ascii := ascii_of_nat 13.
Definition TAB : ascii := ascii_of_nat 9.

(** [std::string_view::npos], i.e. [size_t(-1)]. *)
Definition npos : Z := 18446744073709551615.

Definition size (s : string_view) : Z := Z.of_nat (List.length s).

Definition empty (s : string_view) : bool :=
  match s with
  | [] => true
  | _ :: _ => false
  end.

(** [s[i]]; every use in the source is guarded by a size test. *)
Definition at_ (s : string_view) (i : Z) : ascii :=
  nth (Z.to_nat i) s zero.

(** [s.back()] *)
Definition back (s : string_view) : ascii := last s zero.

Fixpoint str_eqb (s t : string_view) : bool :=
  match s, t with
  | [], [] => true
  | c :: s', d :: t' => Ascii.eqb c d && str_eqb s' t'
  | _, _ => false
  end.

(** Does [s] begin with [p]? *)
Fixpoint starts_with (s p : string_view) {struct p} : bool :=
  match p with
  | [] => true
  | c :: p' =>
      match s with
      | [] => false
      | d :: s' => Ascii.eqb c d && starts_with s' p'
      end
  end.

(** Leftmost occurrence of [p] in [s], where [s] begins at offset [i] of
    the whole view. *)
Fixpoint find_at (s p : string_view) (i : Z) : Z :=
  match s with
  | [] => if starts_with [] p then i else npos
  | _ :: s' => if starts_with s p then i else find_at s' p (i + 1)
  end.

(** [s.find(p, pos)] *)
Definition find (s p : string_view) (pos : Z) : Z :=
  if size s <? pos then npos
  else find_at (skipn (Z.to_nat pos) s) p pos.

(** [s.find(c, pos)] *)
Definition find_char (s : string_view) (c : ascii) (pos : Z) : Z :=
  find s [c] pos.

Definition mem (c : ascii) (set : string_view) : bool :=
  existsb (Ascii.eqb c) set.

Fixpoint first_of_at (s set : string_view) (i : Z) : Z :=
  match s with
  | [] => npos
  | c :: s' => if mem c set then i else first_of_at s' set (i + 1)
  end.

(** [s.find_first_of(set)] *)
Definition find_first_of (s set : string_view) : Z := first_of_at s set 0.

(** [s.substr(pos, count)]: throws when [pos > size()], otherwise the
    view of [min(count, size() - pos)] characters from [pos]. *)
Definition substr (s : string_view) (pos count : Z) : Exc string_view :=
  if size s <? pos then OutOfRange
  else
    let rcount := Z.min count (size s - pos) in
    Ret (firstn (Z.to_nat rcount) (skipn (Z.to_nat pos) s)).

(** [s.data() + pos], as the rest of the view. *)
Definition data_from (s : string_view) (pos : Z) : string_view :=
  skipn (Z.to_nat pos) s.

Definition code (c : ascii) : Z := Z.of_N (N_of_ascii c).

(** [std::toupper] in the "C" locale, on an [unsigned char]. *)
Definition toupper (c : ascii) : ascii :=
  if (97 <=? code c) && (code c <=? 122)
  then ascii_of_N (Z.to_N (code c - 32))
  else c.

Definition to_upper (s : string_view) : string_view := map toupper s.

Definition isdigit (c : ascii) : bool := (48 <=? code c) && (code c <=? 57).

(** Value of the leading run of decimal digits of [s], continuing [acc]. *)
Fixpoint digits_value (acc : Z) (s : string_view) : Z :=
  match s with
  | [] => acc
  | c :: s' =>
      if isdigit c then digits_value (acc * 10 + (code c - 48)) s' else acc
  end.

(** [s.find(p) != npos] *)
Definition contains (s p : string_view) : bool :=
  negb (find s p 0 =? npos).

End StringView.

Import StringView.

(* ================================================================== *)
(** ** The log model: [log.hpp] *)

Module LOG.

Module LogLevel.
Inductive t : Type :=
| Unknown | Trace | Debug | Info | Warning | Error | Fatal | Critical.
End LogLevel.

Module LogFormat.
Inductive t : Type :=
| Unknown | Apache | ApacheError | Syslog | WindowsEvent | IIS | Log4j
| JSON | Custom.
End LogFormat.

(** [struct LogEntry]; [uint64], [uint32] and [int] fields are kept in [Z]. *)
Record LogEntry : Type := mkLogEntry {
  lineStart : Z;
  lineEnd : Z;
  lineNumber : Z;
  timestamp : string_view;
  level : LogLevel.t;
  source : string_view;
  message : string_view;
  ipAddress : string_view;
  httpMethod : string_view;
  url : string_view;
  httpStatus : Z;
  responseSize : Z;
  userAgent : string_view;
  referer : string_view
}.

(** [LogEntry::LogEntry()] *)
Definition LogEntry_new : LogEntry :=
  mkLogEntry 0 0 0 [] LogLevel.Unknown [] [] [] [] [] 0 0 [] [].

(** Field assignments [entry.f = v]. *)
Definition set_lineStart (e : LogEntry) (v : Z) : LogEntry :=
  mkLogEntry v (lineEnd e) (lineNumber e) (timestamp e) (level e) (source e)
    (message e) (ipAddress e) (httpMethod e) (url e) (httpStatus e)
    (responseSize e) (userAgent e) (referer e).
Definition set_lineEnd (e : LogEntry) (v : Z) : LogEntry :=
  mkLogEntry (lineStart e) v (lineNumber e) (timestamp e) (level e) (source e)
    (message e) (ipAddress e) (httpMethod e) (url e) (httpStatus e)
    (responseSize e) (userAgent e) (referer e).
Definition set_lineNumber (e : LogEntry) (v : Z) : LogEntry :=
  mkLogEntry (lineStart e) (lineEnd e) v (timestamp e) (level e) (source e)
    (message e) (ipAddress e) (httpMethod e) (url e) (httpStatus e)
    (responseSize e) (userAgent e) (referer e).
Definition set_timestamp (e : LogEntry) (v : string_view) : LogEntry :=
  mkLogEntry (lineStart e) (lineEnd e) (lineNumber e) v (level e) (source e)
    (message e) (ipAddress e) (httpMethod e) (url e) (httpStatus e)
    (responseSize e) (userAgent e) (referer e).
Definition set_level (e : LogEntry) (v : LogLevel.t) : LogEntry :=
  mkLogEntry (lineStart e) (lineEnd e) (lineNumber e) (timestamp e) v
    (source e) (message e) (ipAddress e) (httpMethod e) (url e)
    (httpStatus e) (responseSize e) (userAgent e) (referer e).
Definition set_source (e : LogEntry) (v : string_view) : LogEntry :=
  mkLogEntry (lineStart e) (lineEnd e) (lineNumber e) (timestamp e) (level e)
    v (message e) (ipAddress e) (httpMethod e) (url e) (httpStatus e)
    (responseSize e) (userAgent e) (referer e).
Definition set_message (e : LogEntry) (v : string_view) : LogEntry :=
  mkLogEntry (lineStart e) (lineEnd e) (lineNumber e) (timestamp e) (level e)
    (source e) v (ipAddress e) (httpMethod e) (url e) (httpStatus e)
    (responseSize e) (userAgent e) (referer e).
Definition set_ipAddress (e : LogEntry) (v : string_view) : LogEntry :=
  mkLogEntry (lineStart e) (lineEnd e) (lineNumber e) (timestamp e) (level e)
    (source e) (message e) v (httpMethod e) (url e) (httpStatus e)
    (responseSize e) (userAgent e) (referer e).
Definition set_httpMethod (e : LogEntry) (v : string_view) : LogEntry :=
  mkLogEntry (lineStart e) (lineEnd e) (lineNumber e) (timestamp e) (level e)
    (source e) (message e) (ipAddress e) v (url e) (httpStatus e)
    (responseSize e) (userAgent e) (referer e).
Definition set_url (e : LogEntry) (v : string_view) : LogEntry :=
  mkLogEntry (lineStart e) (lineEnd e) (lineNumber e) (timestamp e) (level e)
    (source e) (message e) (ipAddress e) (httpMethod e) v (httpStatus e)
    (responseSize e) (userAgent e) (referer e).
Definition set_httpStatus (e : LogEntry) (v : Z) : LogEntry :=
  mkLogEntry (lineStart e) (lineEnd e) (lineNumber e) (timestamp e) (level e)
    (source e) (message e) (ipAddress e) (httpMethod e) (url e) v
    (responseSize e) (userAgent e) (referer e).

(** [struct LogStatistics]; every counter is a [uint32]. *)
Record LogStatistics : Type := mkLogStatistics {
  totalLines : Z;
  errorCount : Z;
  warningCount : Z;
  infoCount : Z;
  debugCount : Z;
  traceCount : Z;
  fatalCount : Z;
  unknownCount : Z;
  http2xxCount : Z;
  http3xxCount : Z;
  http4xxCount : Z;
  http5xxCount : Z;
  firstTimestamp : string_view;
  lastTimestamp : string_view
}.

(** [LogStatistics::LogStatistics()] *)
Definition LogStatistics_new : LogStatistics :=
  mkLogStatistics 0 0 0 0 0 0 0 0 0 0 0 0 [] [].

(** *** The session object *)

(** Modelled from the spec: the host's byte source behind
    [obj->GetData()], whose class is not part of these sources.  It is a
    sized, addressable byte buffer; [Get(0, n, false)] hands out the bytes
    from offset 0, at most [n] of them. *)
Record Object : Type := mkObject { data : string_view }.

Definition GetSize (o : Object) : Z := size (data o).

Definition Get (o : Object) (offset requestedSize : Z) : string_view :=
  firstn (Z.to_nat requestedSize) (skipn (Z.to_nat offset) (data o)).

(** The members of [LOGFile] that [Update] reads or writes; [obj] is
    [None] for a reference that is not valid. *)
Record LOGFile : Type := mkLOGFile {
  obj : option Object;
  detectedFormat : LogFormat.t;
  entries : list LogEntry;
  stats : LogStatistics;
  panelsMask : Z
}.

Module Panels.
Definition Information : Z := 0.
Definition Entries : Z := 1.
Definition Errors : Z := 2.
End Panels.

(** [LOGFile::LOGFile()], then the host's assignment of [obj]. *)
Definition LOGFile_new (o : option Object) : LOGFile :=
  let panelsMask := 0 in
  let panelsMask := Z.lor panelsMask (Z.shiftl 1 Panels.Information) in
  let panelsMask := Z.lor panelsMask (Z.shiftl 1 Panels.Entries) in
  let panelsMask := Z.lor panelsMask (Z.shiftl 1 Panels.Errors) in
  mkLOGFile o LogFormat.Unknown [] LogStatistics_new panelsMask.

Definition MAX_PARSE_SIZE : Z := 50 * 1024 * 1024.

(** *** [LOGFile::DetectLogFormat] *)

Definition DetectLogFormat (content : string_view) : LogFormat.t :=
  let sampleEnd := Z.min (size content) 4096 in
  (* content.substr(0, sampleEnd): position 0 is never out of range *)
  let sample := firstn (Z.to_nat sampleEnd) content in
  if contains sample (lit " - - [") &&
     (contains sample (dquote :: lit " 200 ") ||
      contains sample (dquote :: lit " 404 ") ||
      contains sample (dquote :: lit " 500 ") ||
      contains sample (lit "GET ") ||
      contains sample (lit "POST "))
  then LogFormat.Apache
  else
  if contains sample (lit "[error]") ||
     contains sample (lit "[warn]") ||
     contains sample (lit "[notice]") ||
     contains sample (lit "[crit]")
  then LogFormat.ApacheError
  else
  let hasSyslogMonth :=
    contains sample (lit "Jan ") ||
    contains sample (lit "Feb ") ||
    contains sample (lit "Mar ") ||
    contains sample (lit "Apr ") ||
    contains sample (lit "May ") ||
    contains sample (lit "Jun ") ||
    contains sample (lit "Jul ") ||
    contains sample (lit "Aug ") ||
    contains sample (lit "Sep ") ||
    contains sample (lit "Oct ") ||
    contains sample (lit "Nov ") ||
    contains sample (lit "Dec ") in
  if hasSyslogMonth && contains sample (lit "]: ")
  then LogFormat.Syslog
  else
  if (contains sample (lit " INFO ") ||
      contains sample (lit " DEBUG ") ||
      contains sample (lit " ERROR ") ||
      contains sample (lit " WARN ") ||
      contains sample (lit "[INFO]") ||
      contains sample (lit "[DEBUG]") ||
      contains sample (lit "[ERROR]") ||
      contains sample (lit "[WARN]")) &&
     contains sample (lit " - ")
  then LogFormat.Log4j
  else
  if contains sample ("{"%char :: [dquote]) &&
     (contains sample (dquote :: lit "timestamp" ++ [dquote]) ||
      contains sample (dquote :: lit "level" ++ [dquote]) ||
      contains sample (dquote :: lit "message" ++ [dquote]))
  then LogFormat.JSON
  else LogFormat.Custom.

(** *** [LOGFile::ParseLogLevel] *)

Definition ParseLogLevel (levelStr : string_view) : LogLevel.t :=
  let upper := to_upper levelStr in
  if str_eqb upper (lit "TRACE") || str_eqb upper (lit "TRC")
  then LogLevel.Trace
  else if str_eqb upper (lit "DEBUG") || str_eqb upper (lit "DBG") ||
          str_eqb upper (lit "DEBU")
  then LogLevel.Debug
  else if str_eqb upper (lit "INFO") || str_eqb upper (lit "INF") ||
          str_eqb upper (lit "INFORMATION") || str_eqb upper (lit "NOTICE")
  then LogLevel.Info
  else if str_eqb upper (lit "WARN") || str_eqb upper (lit "WARNING") ||
          str_eqb upper (lit "WRN")
  then LogLevel.Warning
  else if str_eqb upper (lit "ERROR") || str_eqb upper (lit "ERR") ||
          str_eqb upper (lit "ERRO")
  then LogLevel.Error
  else if str_eqb upper (lit "FATAL") || str_eqb upper (lit "FTL") ||
          str_eqb upper (lit "CRIT") || str_eqb upper (lit "CRITICAL")
  then LogLevel.Fatal
  else LogLevel.Unknown.

(** *** The line loop shared by the four parsers

    [ParseApacheLog], [ParseSyslog], [ParseLog4j] and [ParseGenericLog]
    repeat the same loop text around their own line body:
<<
    while (pos < content.size()) {
        lineStart = pos;  lineEnd = content.find('\n', pos);
        if (lineEnd == npos) lineEnd = content.size();
        line = content.substr(pos, lineEnd - pos);
        if (!line.empty() && line.back() == '\r')
            line = line.substr(0, line.size() - 1);
        if (!line.empty()) {
            LogEntry entry;  ...the three offsets...
            BODY
            entries.push_back(std::move(entry));
        }
        pos = lineEnd + 1;  lineNum++;
    }
>>
    [BODY] is the parameter [body], applied to the line and to the entry
    whose three offsets are already set; [entries] is the member the loop
    appends to. *)

(** [LogEntry entry; entry.lineStart = lineStart; entry.lineEnd = lineEnd;
    entry.lineNumber = lineNum;] *)
Definition new_entry (lineStart lineEnd lineNum : Z) : LogEntry :=
  let entry := LogEntry_new in
  let entry := set_lineStart entry lineStart in
  let entry := set_lineEnd entry lineEnd in
  let entry := set_lineNumber entry lineNum in
  entry.

Section LineLoop.

Variable body : string_view -> LogEntry -> Exc LogEntry.

Fixpoint parse_lines (fuel : nat) (content : string_view) (pos lineNum : Z)
    (entries : list LogEntry) : Exc (list LogEntry) :=
  match fuel with
  | O => OutOfFuel
  | S fuel' =>
      if pos <? size content then
        let lineStart := pos in
        let lineEnd := find_char content LF pos in
        let lineEnd := if lineEnd =? npos then size content else lineEnd in
        line <- substr content pos (sub64 lineEnd pos) ;;
        line <- (if negb (empty line) && Ascii.eqb (back line) CR
                 then substr line 0 (sub64 (size line) 1)
                 else Ret line) ;;
        entries <- (if negb (empty line) then
                      let entry := new_entry lineStart lineEnd lineNum in
                      entry <- body line entry ;;
                      Ret (entries ++ [entry])
                    else Ret entries) ;;
        parse_lines fuel' content (add64 lineEnd 1) (add32 lineNum 1) entries
      else Ret entries
  end.

(** Every iteration moves [pos] past at least one character, so
    [size content + 1] iterations are enough to leave the loop. *)
Definition parse_content (content : string_view) (entries : list LogEntry)
    : Exc (list LogEntry) :=
  parse_lines (S (List.length content)) content 0 1 entries.

End LineLoop.

(** *** [LOGFile::ParseApacheLog] *)

(** What the C++ standard leaves undefined at three places this code can
    reach; the answers of a platform are the fields.
    - [std::atoi] is defined only when the value fits an [int]:
      [atoi_overflow] is what it returns otherwise, applied to the value
      read.
    - [1ULL << n] is defined only for [n < 64]: [shift_overflow n] is its
      value for a larger [n].
    - [std::atoi] reads from a pointer until it meets a byte that is no
      digit, and the buffer that [Update] parses has no terminator:
      [beyond] holds the bytes that lie in memory behind that buffer. *)
Record Platform : Type := mkPlatform {
  atoi_overflow : Z -> Z;
  shift_overflow : Z -> Z;
  beyond : string_view
}.

Section Platform.

Variable platform : Platform.

(** [std::atoi(p)] for [p] pointing at the digit found by
    [find_first_of]: no white space or sign to skip.  [s] is the memory
    from [p] on; the digits it begins with are read. *)
Definition atoi (s : string_view) : Z :=
  let v := digits_value 0 s in
  if v <=? INT_MAX then v else atoi_overflow platform v.

(** The line body of [ParseApacheLog].  [line] is a view into the buffer
    and [behind] the bytes that follow its last character in memory:
    [std::atoi(afterRequest.data() + numStart)] is handed a pointer and no
    length, so that it reads the rest of [afterRequest], which ends with
    the line, and goes on into [behind] when the line ends with a
    digit. *)
Definition apache_line (behind line : string_view) (entry : LogEntry)
    : Exc LogEntry :=
  let ipEnd := find_char line " " 0 in
  if negb (ipEnd =? npos) then
    ip <- substr line 0 ipEnd ;;
    let entry := set_ipAddress entry ip in
    let tsStart := find_char line "[" 0 in
    let tsEnd := find_char line "]" 0 in
    entry <- (if negb (tsStart =? npos) && negb (tsEnd =? npos) then
                ts <- substr line (add64 tsStart 1)
                        (sub64 (sub64 tsEnd tsStart) 1) ;;
                Ret (set_timestamp entry ts)
              else Ret entry) ;;
    let reqStart := find_char line dquote 0 in
    entry <-
      (if negb (reqStart =? npos) then
         let reqEnd := find_char line dquote (add64 reqStart 1) in
         if negb (reqEnd =? npos) then
           request <- substr line (add64 reqStart 1)
                        (sub64 (sub64 reqEnd reqStart) 1) ;;
           let methodEnd := find_char request " " 0 in
           entry <-
             (if negb (methodEnd =? npos) then
                method <- substr request 0 methodEnd ;;
                let entry := set_httpMethod entry method in
                let urlEnd := find_char request " " (add64 methodEnd 1) in
                if negb (urlEnd =? npos) then
                  u <- substr request (add64 methodEnd 1)
                         (sub64 (sub64 urlEnd methodEnd) 1) ;;
                  Ret (set_url entry u)
                else Ret entry
              else Ret entry) ;;
           afterRequest <- substr line (add64 reqEnd 1) npos ;;
           let numStart := find_first_of afterRequest (lit "0123456789") in
           if negb (numStart =? npos) then
             let entry :=
               set_httpStatus entry
                 (atoi (data_from afterRequest numStart ++ behind)) in
             let entry :=
               if httpStatus entry >=? 500 then set_level entry LogLevel.Error
               else if httpStatus entry >=? 400
                    then set_level entry LogLevel.Warning
                    else set_level entry LogLevel.Info in
             Ret entry
           else Ret entry
         else Ret entry
       else Ret entry) ;;
    Ret (set_message entry line)
  else Ret entry.

(** The bytes behind the view [line] of the loop.  [line] is cut from
    [content] at [lineStart], the offset the loop has just stored in
    [entry.lineStart], and shortened at its end only: behind it lie the
    rest of [content], which begins with the carriage return or the line
    feed that ends the line when there is one, and then [beyond]. *)
Definition behind_line (content line : string_view) (entry : LogEntry)
    : string_view :=
  skipn (Z.to_nat (lineStart entry + size line)) (content ++ beyond platform).

Definition apache_body (content line : string_view) (entry : LogEntry)
    : Exc LogEntry :=
  apache_line (behind_line content line entry) line entry.

Definition ParseApacheLog (content : string_view) (entries : list LogEntry)
    : Exc (list LogEntry) :=
  parse_content (apache_body content) content entries.

(** *** [LOGFile::ParseSyslog] *)

Definition syslog_line (line : string_view) (entry : LogEntry)
    : Exc LogEntry :=
  let entry := set_message entry line in
  entry <- (if size line >=? 15 then
              ts <- substr line 0 15 ;;
              Ret (set_timestamp entry ts)
            else Ret entry) ;;
  let colonPos := find line (lit ": ") 0 in
  entry <-
    (if negb (colonPos =? npos) && (colonPos >? 15) then
       sourcePart <- substr line 16 (sub64 colonPos 16) ;;
       let spacePos := find_char sourcePart " " 0 in
       entry <- (if negb (spacePos =? npos) then
                   src <- substr sourcePart (add64 spacePos 1) npos ;;
                   Ret (set_source entry src)
                 else Ret entry) ;;
       msg <- substr line (add64 colonPos 2) npos ;;
       Ret (set_message entry msg)
     else Ret entry) ;;
  let upperMsg := to_upper (message entry) in
  let entry :=
    if contains upperMsg (lit "ERROR") || contains upperMsg (lit "FAIL")
    then set_level entry LogLevel.Error
    else if contains upperMsg (lit "WARN")
    then set_level entry LogLevel.Warning
    else if contains upperMsg (lit "DEBUG")
    then set_level entry LogLevel.Debug
    else set_level entry LogLevel.Info in
  Ret entry.

Definition ParseSyslog (content : string_view) (entries : list LogEntry)
    : Exc (list LogEntry) :=
  parse_content syslog_line content entries.

(** *** [LOGFile::ParseLog4j] *)

Definition strlen (s : string_view) : Z := size s.

(** [while (sourceStart < msgStart && (remaining[sourceStart] == ' ' ||
    remaining[sourceStart] == '[')) sourceStart++;] *)
Fixpoint skip_source_start (fuel : nat) (remaining : string_view)
    (sourceStart msgStart : Z) : Z :=
  match fuel with
  | O => sourceStart
  | S fuel' =>
      if (sourceStart <? msgStart) &&
         (Ascii.eqb (at_ remaining sourceStart) " " ||
          Ascii.eqb (at_ remaining sourceStart) "[")
      then skip_source_start fuel' remaining (add64 sourceStart 1) msgStart
      else sourceStart
  end.

(** [while (sourceEnd > sourceStart && (remaining[sourceEnd-1] == ' ' ||
    remaining[sourceEnd-1] == ']')) sourceEnd--;] *)
Fixpoint skip_source_end (fuel : nat) (remaining : string_view)
    (sourceStart sourceEnd : Z) : Z :=
  match fuel with
  | O => sourceEnd
  | S fuel' =>
      if (sourceEnd >? sourceStart) &&
         (Ascii.eqb (at_ remaining (sub64 sourceEnd 1)) " " ||
          Ascii.eqb (at_ remaining (sub64 sourceEnd 1)) "]")
      then skip_source_end fuel' remaining sourceStart (sub64 sourceEnd 1)
      else sourceEnd
  end.

Definition log4j_levels : list string_view :=
  [lit "TRACE"; lit "DEBUG"; lit "INFO"; lit "WARN"; lit "WARNING";
   lit "ERROR"; lit "FATAL"; lit "CRITICAL"].

(** The [for (const char* lvl : levels)] loop; the [break] is the branch
    without a recursive call. *)
Fixpoint log4j_find_level (levels : list string_view)
    (remaining : string_view) (entry : LogEntry) : Exc LogEntry :=
  match levels with
  | [] => Ret entry
  | lvl :: levels' =>
      let lvlPos := find remaining lvl 0 in
      if negb (lvlPos =? npos) && (lvlPos <? 20) then
        let entry := set_level entry (ParseLogLevel lvl) in
        let msgStart := find remaining (lit " - ") lvlPos in
        if negb (msgStart =? npos) then
          let sourceStart := add64 lvlPos (strlen lvl) in
          let sourceStart :=
            skip_source_start (Z.to_nat (msgStart - sourceStart)) remaining
              sourceStart msgStart in
          let sourceEnd := msgStart in
          let sourceEnd :=
            skip_source_end (Z.to_nat (sourceEnd - sourceStart)) remaining
              sourceStart sourceEnd in
          entry <- (if sourceEnd >? sourceStart then
                      src <- substr remaining sourceStart
                               (sub64 sourceEnd sourceStart) ;;
                      Ret (set_source entry src)
                    else Ret entry) ;;
          msg <- substr remaining (add64 msgStart 3) npos ;;
          Ret (set_message entry msg)
        else
          msg <- substr remaining (add64 lvlPos (strlen lvl)) npos ;;
          Ret (set_message entry msg)
      else log4j_find_level levels' remaining entry
  end.

Definition log4j_line (line : string_view) (entry : LogEntry)
    : Exc LogEntry :=
  let entry := set_level entry LogLevel.Unknown in
  let timestampEnd := 0 in
  '(timestampEnd, entry) <-
    (if (size line >=? 19) &&
        (Ascii.eqb (at_ line 4) "-" || Ascii.eqb (at_ line 4) "/") &&
        (Ascii.eqb (at_ line 7) "-" || Ascii.eqb (at_ line 7) "/")
     then
       let timestampEnd := 19 in
       let timestampEnd :=
         if (size line >? 23) &&
            (Ascii.eqb (at_ line 19) "." || Ascii.eqb (at_ line 19) ",")
         then 23 else timestampEnd in
       ts <- substr line 0 timestampEnd ;;
       Ret (timestampEnd, set_timestamp entry ts)
     else Ret (timestampEnd, entry)) ;;
  remaining <- (if timestampEnd >? 0 then substr line timestampEnd npos
                else Ret line) ;;
  entry <- log4j_find_level log4j_levels remaining entry ;;
  let entry :=
    if empty (message entry) then set_message entry line else entry in
  Ret entry.

Definition ParseLog4j (content : string_view) (entries : list LogEntry)
    : Exc (list LogEntry) :=
  parse_content log4j_line content entries.

(** *** [LOGFile::ParseGenericLog] *)

Definition generic_line (line : string_view) (entry : LogEntry)
    : Exc LogEntry :=
  let entry := set_message entry line in
  let entry := set_level entry LogLevel.Unknown in
  entry <-
    (if Ascii.eqb (at_ line 0) "[" then
       let bracketEnd := find_char line "]" 0 in
       if negb (bracketEnd =? npos) then
         ts <- substr line 1 (sub64 bracketEnd 1) ;;
         Ret (set_timestamp entry ts)
       else Ret entry
     else if (size line >=? 10) && Ascii.eqb (at_ line 4) "-" &&
             Ascii.eqb (at_ line 7) "-"
     then
       let tsEnd := 10 in
       let tsEnd :=
         if (size line >? 19) && Ascii.eqb (at_ line 10) " " &&
            Ascii.eqb (at_ line 13) ":"
         then
           let tsEnd := 19 in
           if (size line >? 23) &&
              (Ascii.eqb (at_ line 19) "." || Ascii.eqb (at_ line 19) ",")
           then 23 else tsEnd
         else tsEnd in
       ts <- substr line 0 tsEnd ;;
       Ret (set_timestamp entry ts)
     else Ret entry) ;;
  let upperLine := to_upper line in
  let entry :=
    if contains upperLine (lit "FATAL") || contains upperLine (lit "CRITICAL")
    then set_level entry LogLevel.Fatal
    else if contains upperLine (lit "ERROR") ||
            contains upperLine (lit "EXCEPTION") ||
            contains upperLine (lit "FAIL")
    then set_level entry LogLevel.Error
    else if contains upperLine (lit "WARN")
    then set_level entry LogLevel.Warning
    else if contains upperLine (lit "DEBUG")
    then set_level entry LogLevel.Debug
    else if contains upperLine (lit "TRACE")
    then set_level entry LogLevel.Trace
    else if contains upperLine (lit "INFO")
    then set_level entry LogLevel.Info
    else entry in
  Ret entry.

Definition ParseGenericLog (content : string_view) (entries : list LogEntry)
    : Exc (list LogEntry) :=
  parse_content generic_line content entries.

(** *** [LOGFile::UpdateStatistics] *)

(** Counter increments [stats.f++] and field assignments. *)
Definition set_totalLines (s : LogStatistics) (v : Z) : LogStatistics :=
  mkLogStatistics v (errorCount s) (warningCount s) (infoCount s)
    (debugCount s) (traceCount s) (fatalCount s) (unknownCount s)
    (http2xxCount s) (http3xxCount s) (http4xxCount s) (http5xxCount s)
    (firstTimestamp s) (lastTimestamp s).
Definition inc_errorCount (s : LogStatistics) : LogStatistics :=
  mkLogStatistics (totalLines s) (add32 (errorCount s) 1) (warningCount s)
    (infoCount s) (debugCount s) (traceCount s) (fatalCount s)
    (unknownCount s) (http2xxCount s) (http3xxCount s) (http4xxCount s)
    (http5xxCount s) (firstTimestamp s) (lastTimestamp s).
Definition inc_warningCount (s : LogStatistics) : LogStatistics :=
  mkLogStatistics (totalLines s) (errorCount s) (add32 (warningCount s) 1)
    (infoCount s) (debugCount s) (traceCount s) (fatalCount s)
    (unknownCount s) (http2xxCount s) (http3xxCount s) (http4xxCount s)
    (http5xxCount s) (firstTimestamp s) (lastTimestamp s).
Definition inc_infoCount (s : LogStatistics) : LogStatistics :=
  mkLogStatistics (totalLines s) (errorCount s) (warningCount s)
    (add32 (infoCount s) 1) (debugCount s) (traceCount s) (fatalCount s)
    (unknownCount s) (http2xxCount s) (http3xxCount s) (http4xxCount s)
    (http5xxCount s) (firstTimestamp s) (lastTimestamp s).
Definition inc_debugCount (s : LogStatistics) : LogStatistics :=
  mkLogStatistics (totalLines s) (errorCount s) (warningCount s)
    (infoCount s) (add32 (debugCount s) 1) (traceCount s) (fatalCount s)
    (unknownCount s) (http2xxCount s) (http3xxCount s) (http4xxCount s)
    (http5xxCount s) (firstTimestamp s) (lastTimestamp s).
Definition inc_traceCount (s : LogStatistics) : LogStatistics :=
  mkLogStatistics (totalLines s) (errorCount s) (warningCount s)
    (infoCount s) (debugCount s) (add32 (traceCount s) 1) (fatalCount s)
    (unknownCount s) (http2xxCount s) (http3xxCount s) (http4xxCount s)
    (http5xxCount s) (firstTimestamp s) (lastTimestamp s).
Definition inc_fatalCount (s : LogStatistics) : LogStatistics :=
  mkLogStatistics (totalLines s) (errorCount s) (warningCount s)
    (infoCount s) (debugCount s) (traceCount s) (add32 (fatalCount s) 1)
    (unknownCount s) (http2xxCount s) (http3xxCount s) (http4xxCount s)
    (http5xxCount s) (firstTimestamp s) (lastTimestamp s).
Definition inc_unknownCount (s : LogStatistics) : LogStatistics :=
  mkLogStatistics (totalLines s) (errorCount s) (warningCount s)
    (infoCount s) (debugCount s) (traceCount s) (fatalCount s)
    (add32 (unknownCount s) 1) (http2xxCount s) (http3xxCount s)
    (http4xxCount s) (http5xxCount s) (firstTimestamp s) (lastTimestamp s).
Definition inc_http2xxCount (s : LogStatistics) : LogStatistics :=
  mkLogStatistics (totalLines s) (errorCount s) (warningCount s)
    (infoCount s) (debugCount s) (traceCount s) (fatalCount s)
    (unknownCount s) (add32 (http2xxCount s) 1) (http3xxCount s)
    (http4xxCount s) (http5xxCount s) (firstTimestamp s) (lastTimestamp s).
Definition inc_http3xxCount (s : LogStatistics) : LogStatistics :=
  mkLogStatistics (totalLines s) (errorCount s) (warningCount s)
    (infoCount s) (debugCount s) (traceCount s) (fatalCount s)
    (unknownCount s) (http2xxCount s) (add32 (http3xxCount s) 1)
    (http4xxCount s) (http5xxCount s) (firstTimestamp s) (lastTimestamp s).
Definition inc_http4xxCount (s : LogStatistics) : LogStatistics :=
  mkLogStatistics (totalLines s) (errorCount s) (warningCount s)
    (infoCount s) (debugCount s) (traceCount s) (fatalCount s)
    (unknownCount s) (http2xxCount s) (http3xxCount s)
    (add32 (http4xxCount s) 1) (http5xxCount s) (firstTimestamp s)
    (lastTimestamp s).
Definition inc_http5xxCount (s : LogStatistics) : LogStatistics :=
  mkLogStatistics (totalLines s) (errorCount s) (warningCount s)
    (infoCount s) (debugCount s) (traceCount s) (fatalCount s)
    (unknownCount s) (http2xxCount s) (http3xxCount s) (http4xxCount s)
    (add32 (http5xxCount s) 1) (firstTimestamp s) (lastTimestamp s).
Definition set_firstTimestamp (s : LogStatistics) (v : string_view)
    : LogStatistics :=
  mkLogStatistics (totalLines s) (errorCount s) (warningCount s)
    (infoCount s) (debugCount s) (traceCount s) (fatalCount s)
    (unknownCount s) (http2xxCount s) (http3xxCount s) (http4xxCount s)
    (http5xxCount s) v (lastTimestamp s).
Definition set_lastTimestamp (s : LogStatistics) (v : string_view)
    : LogStatistics :=
  mkLogStatistics (totalLines s) (errorCount s) (warningCount s)
    (infoCount s) (debugCount s) (traceCount s) (fatalCount s)
    (unknownCount s) (http2xxCount s) (http3xxCount s) (http4xxCount s)
    (http5xxCount s) (firstTimestamp s) v.

(** Body of the [for (const auto& entry : entries)] loop. *)
Definition count_entry (stats : LogStatistics) (entry : LogEntry)
    : LogStatistics :=
  let stats :=
    match level entry with
    | LogLevel.Trace => inc_traceCount stats
    | LogLevel.Debug => inc_debugCount stats
    | LogLevel.Info => inc_infoCount stats
    | LogLevel.Warning => inc_warningCount stats
    | LogLevel.Error => inc_errorCount stats
    | LogLevel.Fatal | LogLevel.Critical => inc_fatalCount stats
    | _ => inc_unknownCount stats
    end in
  if (httpStatus entry >=? 200) && (httpStatus entry <? 300)
  then inc_http2xxCount stats
  else if (httpStatus entry >=? 300) && (httpStatus entry <? 400)
  then inc_http3xxCount stats
  else if (httpStatus entry >=? 400) && (httpStatus entry <? 500)
  then inc_http4xxCount stats
  else if httpStatus entry >=? 500
  then inc_http5xxCount stats
  else stats.

(** The two timestamp loops: assign the first non-empty timestamp met
    and [break]. *)
Fixpoint first_timestamp (entries : list LogEntry) (dflt : string_view)
    : string_view :=
  match entries with
  | [] => dflt
  | entry :: entries' =>
      if negb (empty (timestamp entry)) then timestamp entry
      else first_timestamp entries' dflt
  end.

Definition UpdateStatistics (entries : list LogEntry) : LogStatistics :=
  let stats := LogStatistics_new in
  let stats :=
    set_totalLines stats (to_uint32 (Z.of_nat (List.length entries))) in
  let stats := fold_left count_entry entries stats in
  if negb (match entries with [] => true | _ :: _ => false end) then
    let stats :=
      set_firstTimestamp stats
        (first_timestamp entries (firstTimestamp stats)) in
    let stats :=
      set_lastTimestamp stats
        (first_timestamp (rev entries) (lastTimestamp stats)) in
    stats
  else stats.

(** *** [LOGFile::Update] *)

(** [Update] returns its [bool] together with the object after the call. *)
Definition Update (this : LOGFile) : Exc (bool * LOGFile) :=
  match obj this with
  | None =>
      (* CHECK(obj.IsValid(), false, ...) *)
      Ret (false, this)
  | Some o =>
      let size := GetSize o in
      if size =? 0 then Ret (false, this)
      else
        let parseSize := Z.min size MAX_PARSE_SIZE in
        let content := Get o 0 (to_uint32 parseSize) in
        let detected := DetectLogFormat content in
        let this :=
          mkLOGFile (obj this) detected (entries this) (stats this)
            (panelsMask this) in
        (* entries.clear() *)
        let this :=
          mkLOGFile (obj this) (detectedFormat this) [] (stats this)
            (panelsMask this) in
        parsed <-
          (match detectedFormat this with
           | LogFormat.Apache => ParseApacheLog content (entries this)
           | LogFormat.Syslog => ParseSyslog content (entries this)
           | LogFormat.Log4j => ParseLog4j content (entries this)
           | _ => ParseGenericLog content (entries this)
           end) ;;
        let this :=
          mkLOGFile (obj this) (detectedFormat this) parsed (stats this)
            (panelsMask this) in
        let this :=
          mkLOGFile (obj this) (detectedFormat this) (entries this)
            (UpdateStatistics (entries this)) (panelsMask this) in
        Ret (true, this)
  end.

End Platform.

(** *** [LOGFile::HasPanel] *)

(** [(panelsMask & (1ULL << static_cast<uint8>(id))) != 0], for [id] the
    value of a [Panels::IDs], an enumeration over [uint8].  The shift of
    the 64-bit [1ULL] is defined for a count below 64 only. *)
Definition HasPanel (platform : Platform) (this : LOGFile) (id : Z) : bool :=
  let bit :=
    if to_uint8 id <? 64 then Z.shiftl 1 (to_uint8 id)
    else shift_overflow platform (to_uint8 id) in
  negb (Z.land (panelsMask this) bit =? 0).

(** *** [LOGFile::LogLevelToString] and [LOGFile::LogFormatToString] *)

Definition LogLevelToString (level : LogLevel.t) : string_view :=
  match level with
  | LogLevel.Trace => lit "TRACE"
  | LogLevel.Debug => lit "DEBUG"
  | LogLevel.Info => lit "INFO"
  | LogLevel.Warning => lit "WARNING"
  | LogLevel.Error => lit "ERROR"
  | LogLevel.Fatal => lit "FATAL"
  | LogLevel.Critical => lit "CRITICAL"
  | _ => lit "UNKNOWN"
  end.

Definition LogFormatToString (format : LogFormat.t) : string_view :=
  match format with
  | LogFormat.Apache => lit "Apache/Nginx Access Log"
  | LogFormat.ApacheError => lit "Apache/Nginx Error Log"
  | LogFormat.Syslog => lit "Syslog"
  | LogFormat.WindowsEvent => lit "Windows Event Log"
  | LogFormat.IIS => lit "IIS Log"
  | LogFormat.Log4j => lit "Log4j/Log4net"
  | LogFormat.JSON => lit "JSON Structured Log"
  | LogFormat.Custom => lit "Generic/Custom"
  | _ => lit "Unknown"
  end.

End LOG.

(* ================================================================== *)
(** ** The tokenizer: [LOGFile::AnalyzeText] *)

Module Lexer.

(** A [char16] code unit. *)
Definition char16 : Type := Z.

(** [syntax.text]: the code units of the document. *)
Definition Text : Type := list char16.

(** [text.Len()], a [uint32]. *)
Definition Len (text : Text) : Z := Z.of_nat (List.length text).

(** [text[i]]; every use in the source is guarded by [i < len]. *)
Definition at16 (text : Text) (i : Z) : char16 := nth (Z.to_nat i) text 0.

(** A character literal compared with a [char16]. *)
Definition ch (c : ascii) : char16 := code c.

Module TokenType.
Definition Timestamp : Z := 0.
Definition Level : Z := 1.
Definition LevelError : Z := 2.
Definition LevelWarning : Z := 3.
Definition LevelInfo : Z := 4.
Definition LevelDebug : Z := 5.
Definition Source : Z := 6.
Definition Message : Z := 7.
Definition IPAddress : Z := 8.
Definition HTTPMethod : Z := 9.
Definition HTTPStatus : Z := 10.
Definition URL : Z := 11.
Definition Number : Z := 12.
Definition Bracket : Z := 13.
Definition String : Z := 14.
Definition Separator : Z := 15.
Definition Invalid : Z := 4294967295.
End TokenType.

(** The values of the viewer's [TokenColor] that the tokenizer uses. *)
Module TokenColor.
Inductive t : Type :=
| Operator | String | Number | Keyword | Keyword2 | Word | Error | Comment.
End TokenColor.

(** What [tokens.Add(type, start, end, color)] records. *)
Record Token : Type := mkToken {
  tokenType : Z;
  tokenStart : Z;
  tokenEnd : Z;
  tokenColor : TokenColor.t
}.

(** [tokens.Add(...)]: the sink is append-only. *)
Definition Add (tokens : list Token) (type start end_ : Z)
    (color : TokenColor.t) : list Token :=
  tokens ++ [mkToken type start end_ color].

(** [while (pos < len && (text[pos] == ' ' || text[pos] == '\t')) pos++;] *)
Fixpoint skip_blanks (fuel : nat) (text : Text) (len pos : Z) : Z :=
  match fuel with
  | O => pos
  | S fuel' =>
      if (pos <? len) &&
         ((at16 text pos =? ch " ") || (at16 text pos =? ch TAB))
      then skip_blanks fuel' text len (add32 pos 1)
      else pos
  end.

(** The loop of the quoted-string case:
<<
    while (pos < len && text[pos] != quote &&
           text[pos] != '\n' && text[pos] != '\r') {
        if (text[pos] == '\\' && pos + 1 < len) pos++;
        pos++;
    }
>> *)
Fixpoint scan_string (fuel : nat) (text : Text) (len : Z) (quote : char16)
    (pos : Z) : Z :=
  match fuel with
  | O => pos
  | S fuel' =>
      if (pos <? len) && negb (at16 text pos =? quote) &&
         negb (at16 text pos =? ch LF) && negb (at16 text pos =? ch CR)
      then
        let pos :=
          if (at16 text pos =? ch "\") && (add32 pos 1 <? len)
          then add32 pos 1 else pos in
        scan_string fuel' text len quote (add32 pos 1)
      else pos
  end.

(** The local variables of the number case. *)
Record NumberScan : Type := mkNumberScan {
  n_pos : Z;
  hasColon : bool;
  hasDot : bool;
  hasDash : bool;
  colonCount : Z;
  dotCount : Z
}.

(** The [while (pos < len) { ... else break; }] loop of the number case. *)
Fixpoint scan_number (fuel : nat) (text : Text) (len : Z) (st : NumberScan)
    : NumberScan :=
  match fuel with
  | O => st
  | S fuel' =>
      let pos := n_pos st in
      if pos <? len then
        let c := at16 text pos in
        if (c >=? ch "0") && (c <=? ch "9") then
          scan_number fuel' text len
            (mkNumberScan (add32 pos 1) (hasColon st) (hasDot st) (hasDash st)
               (colonCount st) (dotCount st))
        else if c =? ch "." then
          scan_number fuel' text len
            (mkNumberScan (add32 pos 1) (hasColon st) true (hasDash st)
               (colonCount st) (add32 (dotCount st) 1))
        else if c =? ch ":" then
          scan_number fuel' text len
            (mkNumberScan (add32 pos 1) true (hasDot st) (hasDash st)
               (add32 (colonCount st) 1) (dotCount st))
        else if c =? ch "-" then
          scan_number fuel' text len
            (mkNumberScan (add32 pos 1) (hasColon st) (hasDot st) true
               (colonCount st) (dotCount st))
        else if (c =? ch "/") || (c =? ch "T") || (c =? ch "Z") ||
                (c =? ch "+") then
          scan_number fuel' text len
            (mkNumberScan (add32 pos 1) (hasColon st) (hasDot st) (hasDash st)
               (colonCount st) (dotCount st))
        else st
      else st
  end.

Definition is_word_char (c : char16) : bool :=
  ((c >=? ch "A") && (c <=? ch "Z")) || ((c >=? ch "a") && (c <=? ch "z")) ||
  ((c >=? ch "0") && (c <=? ch "9")) || (c =? ch "_") || (c =? ch "-") ||
  (c =? ch ".").

(** The [while (pos < len) { ... else break; }] loop of the word case. *)
Fixpoint scan_word (fuel : nat) (text : Text) (len pos : Z) : Z :=
  match fuel with
  | O => pos
  | S fuel' =>
      if pos <? len then
        if is_word_char (at16 text pos)
        then scan_word fuel' text len (add32 pos 1)
        else pos
      else pos
  end.

(** [for (uint32 i = start; i < pos && i < len; i++) word += text[i];] *)
Definition extract_word (text : Text) (len start pos : Z) : list char16 :=
  firstn (Z.to_nat (Z.min pos len - start)) (skipn (Z.to_nat start) text).

(** [for (char16 c : word) if (c < 128) wordUpper +=
    static_cast<char>(std::toupper(static_cast<unsigned char>(c)));] *)
Definition upper_word (word : list char16) : string_view :=
  flat_map
    (fun c : char16 =>
       if c <? 128 then [toupper (ascii_of_N (Z.to_N c))] else [])
    word.

(** The keyword chain of the word case, from [wordUpper] to the token type
    and colour passed to [tokens.Add]. *)
Definition classify_word (wordUpper : string_view) : Z * TokenColor.t :=
  if str_eqb wordUpper (lit "ERROR") || str_eqb wordUpper (lit "ERR") ||
     str_eqb wordUpper (lit "ERRO")
  then (TokenType.LevelError, TokenColor.Error)
  else if str_eqb wordUpper (lit "WARN") ||
          str_eqb wordUpper (lit "WARNING") || str_eqb wordUpper (lit "WRN")
  then (TokenType.LevelWarning, TokenColor.Keyword2)
  else if str_eqb wordUpper (lit "INFO") || str_eqb wordUpper (lit "INF") ||
          str_eqb wordUpper (lit "INFORMATION")
  then (TokenType.LevelInfo, TokenColor.Keyword)
  else if str_eqb wordUpper (lit "DEBUG") || str_eqb wordUpper (lit "DBG") ||
          str_eqb wordUpper (lit "DEBU")
  then (TokenType.LevelDebug, TokenColor.Comment)
  else if str_eqb wordUpper (lit "TRACE") || str_eqb wordUpper (lit "TRC")
  then (TokenType.LevelDebug, TokenColor.Comment)
  else if str_eqb wordUpper (lit "FATAL") || str_eqb wordUpper (lit "FTL") ||
          str_eqb wordUpper (lit "CRITICAL") || str_eqb wordUpper (lit "CRIT")
  then (TokenType.LevelError, TokenColor.Error)
  else if str_eqb wordUpper (lit "GET") || str_eqb wordUpper (lit "POST") ||
          str_eqb wordUpper (lit "PUT") || str_eqb wordUpper (lit "DELETE") ||
          str_eqb wordUpper (lit "PATCH") || str_eqb wordUpper (lit "HEAD") ||
          str_eqb wordUpper (lit "OPTIONS") ||
          str_eqb wordUpper (lit "CONNECT") || str_eqb wordUpper (lit "TRACE")
  then (TokenType.HTTPMethod, TokenColor.Keyword2)
  else if str_eqb wordUpper (lit "HTTP")
  then (TokenType.HTTPMethod, TokenColor.Keyword2)
  else (TokenType.Message, TokenColor.Word).

(** How one pass through the body of the outer loop ends: at a
    [continue] (or at the end of the body) with the new position and
    token list, or at the [break]. *)
Inductive Flow : Type :=
| Continue (pos : Z) (tokens : list Token)
| Break.

(** The body of [while (pos < len)], entered with [pos < len]. *)
Definition analyze_step (text : Text) (len pos : Z) (tokens : list Token)
    : Flow :=
  let pos := skip_blanks (Z.to_nat (len - pos)) text len pos in
  if pos >=? len then Break
  else
    let start := pos in
    let c := at16 text pos in
    if (c =? ch LF) || (c =? ch CR) then
      let pos := add32 pos 1 in
      let pos :=
        if (pos <? len) &&
           (((c =? ch CR) && (at16 text pos =? ch LF)) ||
            ((c =? ch LF) && (at16 text pos =? ch CR)))
        then add32 pos 1 else pos in
      Continue pos tokens
    else if (c =? ch "[") || (c =? ch "]") || (c =? ch "(") ||
            (c =? ch ")") || (c =? ch "{") || (c =? ch "}") ||
            (c =? ch "<") || (c =? ch ">") then
      let tokens :=
        Add tokens TokenType.Bracket start (add32 start 1)
          TokenColor.Operator in
      let pos := add32 pos 1 in
      Continue pos tokens
    else if (c =? ch dquote) || (c =? ch squote) then
      let quote := c in
      let pos := add32 pos 1 in
      let pos := scan_string (Z.to_nat (len - pos)) text len quote pos in
      let pos :=
        if (pos <? len) && (at16 text pos =? quote)
        then add32 pos 1 else pos in
      Continue pos (Add tokens TokenType.String start pos TokenColor.String)
    else if (c >=? ch "0") && (c <=? ch "9") then
      let st :=
        scan_number (Z.to_nat (len - pos)) text len
          (mkNumberScan pos false false false 0 0) in
      let pos := n_pos st in
      let '(tokenType, tokenColor) :=
        if (dotCount st =? 3) && negb (hasColon st) && negb (hasDash st)
        then (TokenType.IPAddress, TokenColor.Keyword2)
        else if hasDash st || hasColon st
        then (TokenType.Timestamp, TokenColor.Keyword)
        else (TokenType.Number, TokenColor.Number) in
      Continue pos (Add tokens tokenType start pos tokenColor)
    else if ((c >=? ch "A") && (c <=? ch "Z")) ||
            ((c >=? ch "a") && (c <=? ch "z")) || (c =? ch "_") then
      let pos := scan_word (Z.to_nat (len - pos)) text len pos in
      let word := extract_word text len start pos in
      let wordUpper := upper_word word in
      let '(tokenType, tokenColor) := classify_word wordUpper in
      Continue pos (Add tokens tokenType start pos tokenColor)
    else
      let pos := add32 pos 1 in
      Continue pos (Add tokens TokenType.Separator start pos
                      TokenColor.Operator).

(** The outer [while (pos < len)] loop. *)
Fixpoint analyze_loop (fuel : nat) (text : Text) (len pos : Z)
    (tokens : list Token) : Exc (list Token) :=
  match fuel with
  | O => OutOfFuel
  | S fuel' =>
      if pos <? len then
        match analyze_step text len pos tokens with
        | Continue pos tokens => analyze_loop fuel' text len pos tokens
        | Break => Ret tokens
        end
      else Ret tokens
  end.

(** [AnalyzeText]: [tokens] is the sink of [syntax], returned as it is
    after the call.  Every pass of the outer loop consumes a character, so
    [len + 1] passes are enough. *)
Definition AnalyzeText (text : Text) (tokens : list Token)
    : Exc (list Token) :=
  let len := Len text in
  analyze_loop (S (List.length text)) text len 0 tokens.

(** *** [CharType::GetCharType] *)

Module CharType.
Definition Word : Z := 0.
Definition Space : Z := 1.
Definition NewLine : Z := 2.
Definition Digit : Z := 3.
Definition Bracket : Z := 4.
Definition Quote : Z := 5.
Definition Separator : Z := 6.
Definition Punctuation : Z := 7.

Definition GetCharType (c : char16) : Z :=
  if (c =? ch " ") || (c =? ch TAB) then Space
  else if (c =? ch LF) || (c =? ch CR) then NewLine
  else if (c >=? ch "0") && (c <=? ch "9") then Digit
  else if (c =? ch "[") || (c =? ch "]") || (c =? ch "(") ||
          (c =? ch ")") || (c =? ch "{") || (c =? ch "}") ||
          (c =? ch "<") || (c =? ch ">") then Bracket
  else if (c =? ch dquote) || (c =? ch squote) then Quote
  else if (c =? ch ":") || (c =? ch ",") || (c =? ch ";") ||
          (c =? ch "|") || (c =? ch "-") || (c =? ch "/") then Separator
  else if (c =? ch ".") || (c =? ch "!") || (c =? ch "?") ||
          (c =? ch "=") || (c =? ch "+") || (c =? ch "*") ||
          (c =? ch "#") || (c =? ch "@") then Punctuation
  else Word.
End CharType.

(** *** [LOGFile::GetTokenIDStringRepresentation] *)

(** The text that [str.Set] leaves in [str]. *)
Definition GetTokenIDStringRepresentation (id : Z) : string_view :=
  if id =? TokenType.Timestamp then lit "Timestamp"
  else if id =? TokenType.Level then lit "Level"
  else if id =? TokenType.LevelError then lit "Error"
  else if id =? TokenType.LevelWarning then lit "Warning"
  else if id =? TokenType.LevelInfo then lit "Info"
  else if id =? TokenType.LevelDebug then lit "Debug"
  else if id =? TokenType.Source then lit "Source"
  else if id =? TokenType.Message then lit "Message"
  else if id =? TokenType.IPAddress then lit "IP Address"
  else if id =? TokenType.HTTPMethod then lit "HTTP Method"
  else if id =? TokenType.HTTPStatus then lit "HTTP Status"
  else if id =? TokenType.URL then lit "URL"
  else if id =? TokenType.Number then lit "Number"
  else if id =? TokenType.Bracket then lit "Bracket"
  else if id =? TokenType.String then lit "String"
  else if id =? TokenType.Separator then lit "Separator"
  else lit "Unknown".

End Lexer.

(* ================================================================== *)
(** ** The plugin entry point: [log.cpp] *)

Module Plugin.

(** [Validate(buf, extension)]; [buf] is the view of the bytes the host
    hands over, [buf.GetLength()] their number. *)
Definition Validate (buf extension : string_view) : bool :=
  let tail := if empty extension then false else false in
  if str_eqb extension (lit ".log") || str_eqb extension (lit ".txt") ||
     str_eqb extension (lit ".logs")
  then
    let content := firstn (Z.to_nat (Z.min (size buf) 4096)) buf in
    let hasTimestamp := false in
    let hasLogLevel := false in
    let hasTimestamp :=
      if contains content (lit "202") ||
         contains content (lit "/Jan/") ||
         contains content (lit "/Feb/") ||
         contains content (lit "/Mar/") ||
         contains content (lit "/Apr/") ||
         contains content (lit "/May/") ||
         contains content (lit "/Jun/") ||
         contains content (lit "/Jul/") ||
         contains content (lit "/Aug/") ||
         contains content (lit "/Sep/") ||
         contains content (lit "/Oct/") ||
         contains content (lit "/Nov/") ||
         contains content (lit "/Dec/") ||
         contains content (lit "Jan ") ||
         contains content (lit "Feb ") ||
         contains content (lit "Mar ") ||
         contains content (lit "Apr ") ||
         contains content (lit "May ") ||
         contains content (lit "Jun ") ||
         contains content (lit "Jul ") ||
         contains content (lit "Aug ") ||
         contains content (lit "Sep ") ||
         contains content (lit "Oct ") ||
         contains content (lit "Nov ") ||
         contains content (lit "Dec ")
      then true else hasTimestamp in
    let hasLogLevel :=
      if contains content (lit "ERROR") ||
         contains content (lit "WARN") ||
         contains content (lit "INFO") ||
         contains content (lit "DEBUG") ||
         contains content (lit "TRACE") ||
         contains content (lit "FATAL") ||
         contains content (lit "error") ||
         contains content (lit "warn") ||
         contains content (lit "info") ||
         contains content (lit "debug") ||
         contains content (lit "[error]") ||
         contains content (lit "[warn]") ||
         contains content (lit "[info]")
      then true else hasLogLevel in
    if contains content (lit "GET ") ||
       contains content (lit "POST ") ||
       contains content (lit "HTTP/") ||
       contains content (dquote :: lit " 200 ") ||
       contains content (dquote :: lit " 404 ") ||
       contains content (dquote :: lit " 500 ")
    then true
    else if hasTimestamp || hasLogLevel then true
    else tail
  else tail.

End Plugin.

(* ================================================================== *)
(** ** The list panels: [Panels::Entries] and [Panels::Errors] *)

Module PanelViews.

Import LOG.

(** A row is the list of its cells; a list view the list of the rows
    added since [DeleteAllItems]. *)
Definition Row : Type := list string_view.
Definition ListView : Type := list Row.

(** [list->AddItem({...})] *)
Definition AddItem (list : ListView) (row : Row) : ListView := list ++ [row].

(** [s.c_str()] read as a C string: the characters before the first
    [NUL]. *)
Fixpoint c_str (s : string_view) : string_view :=
  match s with
  | [] => []
  | c :: s' => if Ascii.eqb c zero then [] else c :: c_str s'
  end.

(** The decimal digits that [%u] and [%zu] print. *)
Definition format_u (n : Z) : string_view :=
  lit (NilZero.string_of_uint (N.to_uint (Z.to_N n))).

Definition MAX_DISPLAY_ENTRIES : Z := 10000.

(** *** [Panels::Entries::PopulateList] *)

Definition Entries_PopulateList (entries : list LogEntry) : ListView :=
  (* list->DeleteAllItems() *)
  let list : ListView := [] in
  let displayCount :=
    Z.min (Z.of_nat (List.length entries)) MAX_DISPLAY_ENTRIES in
  (* for (i = 0; i < displayCount; i++) over entries[i] *)
  let list :=
    fold_left
      (fun (list : ListView) (entry : LogEntry) =>
         AddItem list
           [format_u (lineNumber entry);
            LogLevelToString (level entry);
            c_str (timestamp entry);
            c_str (source entry);
            c_str (message entry)])
      (firstn (Z.to_nat displayCount) entries) list in
  if Z.of_nat (List.length entries) >? MAX_DISPLAY_ENTRIES then
    AddItem list
      [lit "..."; lit "..."; lit "..."; lit "...";
       lit "(Showing " ++ format_u MAX_DISPLAY_ENTRIES ++ lit " of " ++
       format_u (Z.of_nat (List.length entries)) ++ lit " entries)"]
  else list.

(** *** [Panels::Errors::PopulateList] *)

Definition MAX_DISPLAY_ERRORS : Z := 5000.

(** The [for (const auto& entry : entries)] loop with its counter; the
    [break] is the branch without a recursive call. *)
Fixpoint errors_loop (entries : list LogEntry) (errorCount : Z)
    (list : ListView) : Z * ListView :=
  match entries with
  | [] => (errorCount, list)
  | entry :: entries' =>
      if match level entry with
         | LogLevel.Error | LogLevel.Warning | LogLevel.Fatal
         | LogLevel.Critical => true
         | _ => false
         end
      then
        if errorCount >=? MAX_DISPLAY_ERRORS then
          (errorCount,
           AddItem list
             [lit "..."; lit "..."; lit "...";
              lit "(More errors not shown - use filtering)"])
        else
          let list :=
            AddItem list
              [format_u (lineNumber entry);
               LogLevelToString (level entry);
               c_str (timestamp entry);
               c_str (message entry)] in
          errors_loop entries' (add32 errorCount 1) list
      else errors_loop entries' errorCount list
  end.

Definition Errors_PopulateList (entries : list LogEntry) : ListView :=
  (* list->DeleteAllItems() *)
  let list : ListView := [] in
  let '(errorCount, list) := errors_loop entries 0 list in
  if errorCount =? 0 then
    AddItem list
      [[]; []; []; lit "No errors or warnings found in the log file."]
  else list.

End PanelViews.

Import LOG Lexer.

(* ================================================================== *)
(** * Notions used in the statements *)

(** *** The buckets of the statistics and what the counting loop adds. *)

Module Counting.

(** The buckets, as predicates on a record. *)
Definition in_bucket_trace (e : LogEntry) : bool :=
  match level e with LogLevel.Trace => true | _ => false end.

Definition in_bucket_debug (e : LogEntry) : bool :=
  match level e with LogLevel.Debug => true | _ => false end.

Definition in_bucket_info (e : LogEntry) : bool :=
  match level e with LogLevel.Info => true | _ => false end.

Definition in_bucket_warning (e : LogEntry) : bool :=
  match level e with LogLevel.Warning => true | _ => false end.

Definition in_bucket_error (e : LogEntry) : bool :=
  match level e with LogLevel.Error => true | _ => false end.

Definition in_bucket_fatal (e : LogEntry) : bool :=
  match level e with
  | LogLevel.Fatal | LogLevel.Critical => true
  | _ => false
  end.

Definition in_bucket_unknown (e : LogEntry) : bool :=
  match level e with LogLevel.Unknown => true | _ => false end.

(** The HTTP classes. *)
Definition is_2xx (e : LogEntry) : bool :=
  (200 <=? httpStatus e) && (httpStatus e <? 300).

Definition is_3xx (e : LogEntry) : bool :=
  (300 <=? httpStatus e) && (httpStatus e <? 400).

Definition is_4xx (e : LogEntry) : bool :=
  (400 <=? httpStatus e) && (httpStatus e <? 500).

Definition is_5xx (e : LogEntry) : bool := 500 <=? httpStatus e.

(** Number of records of a list that satisfy [p]. *)
Definition how_many (p : LogEntry -> bool) (l : list LogEntry) : Z :=
  Z.of_nat (List.length (filter p l)).

(** The statistics of a session agree with its records: the seven
    severity counters add up to [totalLines], the number of records; each
    counter holds the records of its bucket; the HTTP counters hold the
    records of their class, a record with a status below 200 being in
    none. *)
Definition statistics_consistent (this : LOGFile) : Prop :=
  let s := stats this in
  let l := entries this in
  traceCount s + debugCount s + infoCount s + warningCount s +
  errorCount s + fatalCount s + unknownCount s = totalLines s /\
  totalLines s = Z.of_nat (List.length l) /\
  (traceCount s = how_many in_bucket_trace l /\
   debugCount s = how_many in_bucket_debug l /\
   infoCount s = how_many in_bucket_info l /\
   warningCount s = how_many in_bucket_warning l /\
   errorCount s = how_many in_bucket_error l /\
   fatalCount s = how_many in_bucket_fatal l /\
   unknownCount s = how_many in_bucket_unknown l) /\
  (http2xxCount s = how_many is_2xx l /\
   http3xxCount s = how_many is_3xx l /\
   http4xxCount s = how_many is_4xx l /\
   http5xxCount s = how_many is_5xx l) /\
  http2xxCount s + http3xxCount s + http4xxCount s + http5xxCount s =
  how_many (fun e => 200 <=? httpStatus e) l.

(** What the counting loop adds to the counters it starts from. *)
Definition counted (s0 : LogStatistics) (l : list LogEntry)
    (s : LogStatistics) : Prop :=
  traceCount s = traceCount s0 + how_many in_bucket_trace l /\
  debugCount s = debugCount s0 + how_many in_bucket_debug l /\
  infoCount s = infoCount s0 + how_many in_bucket_info l /\
  warningCount s = warningCount s0 + how_many in_bucket_warning l /\
  errorCount s = errorCount s0 + how_many in_bucket_error l /\
  fatalCount s = fatalCount s0 + how_many in_bucket_fatal l /\
  unknownCount s = unknownCount s0 + how_many in_bucket_unknown l /\
  http2xxCount s = http2xxCount s0 + how_many is_2xx l /\
  http3xxCount s = http3xxCount s0 + how_many is_3xx l /\
  http4xxCount s = http4xxCount s0 + how_many is_4xx l /\
  http5xxCount s = http5xxCount s0 + how_many is_5xx l /\
  totalLines s = totalLines s0 /\
  firstTimestamp s = firstTimestamp s0 /\
  lastTimestamp s = lastTimestamp s0.

(** No counter is near [2^32] once [n] more records are counted. *)
Definition room (s : LogStatistics) (n : Z) : Prop :=
  0 <= traceCount s /\ traceCount s + n < two32 /\
  0 <= debugCount s /\ debugCount s + n < two32 /\
  0 <= infoCount s /\ infoCount s + n < two32 /\
  0 <= warningCount s /\ warningCount s + n < two32 /\
  0 <= errorCount s /\ errorCount s + n < two32 /\
  0 <= fatalCount s /\ fatalCount s + n < two32 /\
  0 <= unknownCount s /\ unknownCount s + n < two32 /\
  0 <= http2xxCount s /\ http2xxCount s + n < two32 /\
  0 <= http3xxCount s /\ http3xxCount s + n < two32 /\
  0 <= http4xxCount s /\ http4xxCount s + n < two32 /\
  0 <= http5xxCount s /\ http5xxCount s + n < two32.

(** The severity switch of the loop body. *)
Definition count_level (s : LogStatistics) (e : LogEntry) : LogStatistics :=
  match level e with
  | LogLevel.Trace => inc_traceCount s
  | LogLevel.Debug => inc_debugCount s
  | LogLevel.Info => inc_infoCount s
  | LogLevel.Warning => inc_warningCount s
  | LogLevel.Error => inc_errorCount s
  | LogLevel.Fatal | LogLevel.Critical => inc_fatalCount s
  | _ => inc_unknownCount s
  end.

(** The HTTP class chain of the loop body. *)
Definition count_http (s : LogStatistics) (e : LogEntry) : LogStatistics :=
  if (httpStatus e >=? 200) && (httpStatus e <? 300) then inc_http2xxCount s
  else if (httpStatus e >=? 300) && (httpStatus e <? 400)
  then inc_http3xxCount s
  else if (httpStatus e >=? 400) && (httpStatus e <? 500)
  then inc_http4xxCount s
  else if httpStatus e >=? 500 then inc_http5xxCount s
  else s.

End Counting.

(** *** What a refresh reads and runs. *)

Module Session.

(** The bytes [Update] parses: at most [MAX_PARSE_SIZE] from offset 0. *)
Definition parsed_prefix (o : Object) : string_view :=
  Get o 0 (to_uint32 (Z.min (GetSize o) MAX_PARSE_SIZE)).

(** The parser [Update] runs for a detected format. *)
Definition run_parser (platform : Platform) (format : LogFormat.t)
    (content : string_view) : Exc (list LogEntry) :=
  match format with
  | LogFormat.Apache => ParseApacheLog platform content []
  | LogFormat.Syslog => ParseSyslog content []
  | LogFormat.Log4j => ParseLog4j content []
  | _ => ParseGenericLog content []
  end.

(** [obj] is a valid reference to a source that holds at least a byte. *)
Definition source_ready (this : LOGFile) : bool :=
  match obj this with
  | None => false
  | Some o => negb (GetSize o =? 0)
  end.

End Session.

(** *** The format rules as an ordered list of signatures. *)

Module Rules.

(** The sample of the detector: the first 4096 bytes, or the whole
    document when it is shorter. *)
Definition the_sample (content : string_view) : string_view :=
  firstn 4096 content.

(** The five signatures, in the words of the format rules. *)
Definition rule_WebAccess (sample : string_view) : bool :=
  contains sample (lit " - - [") &&
  (contains sample (dquote :: lit " 200 ") ||
   contains sample (dquote :: lit " 404 ") ||
   contains sample (dquote :: lit " 500 ") ||
   contains sample (lit "GET ") ||
   contains sample (lit "POST ")).

Definition rule_WebError (sample : string_view) : bool :=
  existsb (contains sample)
    [lit "[error]"; lit "[warn]"; lit "[notice]"; lit "[crit]"].

Definition rule_Syslog (sample : string_view) : bool :=
  existsb (contains sample)
    [lit "Jan "; lit "Feb "; lit "Mar "; lit "Apr "; lit "May "; lit "Jun ";
     lit "Jul "; lit "Aug "; lit "Sep "; lit "Oct "; lit "Nov "; lit "Dec "] &&
  contains sample (lit "]: ").

Definition rule_StructuredFramework (sample : string_view) : bool :=
  existsb (contains sample)
    [lit " INFO "; lit " DEBUG "; lit " ERROR "; lit " WARN ";
     lit "[INFO]"; lit "[DEBUG]"; lit "[ERROR]"; lit "[WARN]"] &&
  contains sample (lit " - ").

Definition rule_JSON (sample : string_view) : bool :=
  contains sample ("{"%char :: [dquote]) &&
  existsb (contains sample)
    [dquote :: lit "timestamp" ++ [dquote];
     dquote :: lit "level" ++ [dquote];
     dquote :: lit "message" ++ [dquote]].

(** The rules as an ordered list of (signature, format) pairs. *)
Definition detection_rules : list ((string_view -> bool) * LogFormat.t) :=
  [(rule_WebAccess, LogFormat.Apache);
   (rule_WebError, LogFormat.ApacheError);
   (rule_Syslog, LogFormat.Syslog);
   (rule_StructuredFramework, LogFormat.Log4j);
   (rule_JSON, LogFormat.JSON)].

(** First match wins; [Custom] when no rule matches. *)
Fixpoint first_match (rules : list ((string_view -> bool) * LogFormat.t))
    (sample : string_view) : LogFormat.t :=
  match rules with
  | [] => LogFormat.Custom
  | (signature, format) :: rules' =>
      if signature sample then format else first_match rules' sample
  end.

End Rules.

(** *** The documents and lines of the scenarios. *)

Module Samples.

(** A platform whose [atoi] saturates, whose shift takes its count
    modulo 64, and on which no digit lies behind the buffer. *)
Definition saturating : Platform :=
  mkPlatform (fun _ => INT_MAX) (fun n => Z.shiftl 1 (n mod 64)) [].

(** The access-log line of scenario A. *)
Definition scenario_A : string_view :=
  lit "127.0.0.1 - - [10/Oct/2023:13:55:36 +0000] " ++ [dquote] ++
  lit "GET /index.html HTTP/1.1" ++ [dquote] ++ lit " 200 612".

(** A session on a document, before its first refresh. *)
Definition session (document : string_view) : LOGFile :=
  LOGFile_new (Some (mkObject document)).

(** The object a refresh leaves behind ([this] itself if it threw). *)
Definition refreshed (this : LOGFile) : LOGFile :=
  match Update saturating this with
  | Ret (_, this') => this'
  | _ => this
  end.

(** An access log whose second line holds no space. *)
Definition access_then_word : string_view :=
  scenario_A ++ [LF] ++ lit "hello".

(** The scenario A session, refreshed, whose source then becomes empty. *)
Definition emptied_session : LOGFile :=
  let this := refreshed (session scenario_A) in
  mkLOGFile (Some (mkObject [])) (detectedFormat this) (entries this)
    (stats this) (panelsMask this).

(** The text of a view, for the tokenizer. *)
Definition text_of (s : string_view) : Text := map ch s.

(** The text of scenario D. *)
Definition scenario_D : Text :=
  text_of
    (lit "[2024-01-15] ERROR " ++ [dquote] ++ lit "disk full" ++ [dquote]).

(** The aliases of [ParseLogLevel]. *)
Definition level_aliases : list string_view :=
  [lit "TRACE"; lit "TRC"; lit "DEBUG"; lit "DBG"; lit "DEBU"; lit "INFO";
   lit "INF"; lit "INFORMATION"; lit "NOTICE"; lit "WARN"; lit "WARNING";
   lit "WRN"; lit "ERROR"; lit "ERR"; lit "ERRO"; lit "FATAL"; lit "FTL";
   lit "CRIT"; lit "CRITICAL"].

(** The level token that stands for a severity. *)
Definition level_token (l : LogLevel.t) : Z :=
  match l with
  | LogLevel.Trace | LogLevel.Debug => TokenType.LevelDebug
  | LogLevel.Info => TokenType.LevelInfo
  | LogLevel.Warning => TokenType.LevelWarning
  | LogLevel.Error | LogLevel.Fatal | LogLevel.Critical =>
      TokenType.LevelError
  | LogLevel.Unknown => TokenType.Message
  end.

(** A syslog line that ends with its colon-space. *)
Definition syslog_bare_colon : string_view :=
  lit "Jan  1 12:00:00 host proc: ".

(** A document with the WebAccess and the StructuredFramework signature. *)
Definition both_signatures : string_view :=
  scenario_A ++ [LF] ++ lit "2024-01-15 10:30:00 INFO [main] Worker - up".

End Samples.

(** *** Spans that tile a text, and the runs they cut it into. *)

Module Tiles.

(** The characters the tokenizer may leave outside every span. *)
Definition is_blank (c : char16) : bool :=
  (c =? ch " ") || (c =? ch TAB) || (c =? ch LF) || (c =? ch CR).

(** Every character of [a, b) is skipped white space or line ending. *)
Definition gap (text : Text) (a b : Z) : Prop :=
  forall i, a <= i < b -> is_blank (at16 text i) = true.

(** [tokens] tile [a, b): in the order of the list, each span is not
    empty, starts at or after the end of the one before, and what lies
    between spans, before the first and after the last is a gap. *)
Fixpoint tiled (text : Text) (a b : Z) (tokens : list Token) : Prop :=
  match tokens with
  | [] => a <= b /\ gap text a b
  | t :: tokens' =>
      a <= tokenStart t /\ tokenStart t < tokenEnd t /\
      gap text a (tokenStart t) /\ tiled text (tokenEnd t) b tokens'
  end.

(** The characters of [a, b). *)
Definition slice (text : Text) (a b : Z) : list char16 :=
  firstn (Z.to_nat (b - a)) (skipn (Z.to_nat a) text).

(** The text of [a, b) cut at the spans: the skipped run before each span
    ([false]) and the span's extent ([true]), then the skipped run after
    the last span. *)
Fixpoint runs (text : Text) (a b : Z) (tokens : list Token)
    : list (bool * list char16) :=
  match tokens with
  | [] => [(false, slice text a b)]
  | t :: tokens' =>
      (false, slice text a (tokenStart t)) ::
      (true, slice text (tokenStart t) (tokenEnd t)) ::
      runs text (tokenEnd t) b tokens'
  end.

(** Position [i] belongs to the span [t]. *)
Definition covers (t : Token) (i : Z) : Prop :=
  tokenStart t <= i < tokenEnd t.

(** The characters a numeric run consumes. *)
Definition number_char (c : char16) : bool :=
  ((c >=? ch "0") && (c <=? ch "9")) || (c =? ch ".") || (c =? ch ":") ||
  (c =? ch "-") || (c =? ch "/") || (c =? ch "T") || (c =? ch "Z") ||
  (c =? ch "+").

End Tiles.

(** *** The keywords of the tokenizer. *)

Module Keywords.

(** A character that opens a word run. *)
Definition is_word_start (c : char16) : bool :=
  ((c >=? ch "A") && (c <=? ch "Z")) || ((c >=? ch "a") && (c <=? ch "z")) ||
  (c =? ch "_").

(** The keywords of the tokenizer: level words, then HTTP words. *)
Definition level_words : list string_view :=
  [lit "ERROR"; lit "ERR"; lit "ERRO"; lit "WARN"; lit "WARNING"; lit "WRN";
   lit "INFO"; lit "INF"; lit "INFORMATION"; lit "DEBUG"; lit "DBG";
   lit "DEBU"; lit "TRACE"; lit "TRC"; lit "FATAL"; lit "FTL";
   lit "CRITICAL"; lit "CRIT"].

Definition http_words : list string_view :=
  [lit "GET"; lit "POST"; lit "PUT"; lit "DELETE"; lit "PATCH"; lit "HEAD";
   lit "OPTIONS"; lit "CONNECT"; lit "HTTP"].

End Keywords.

(** *** The reference definition of the syslog record. *)

Module SyslogRecord.

(** [p] occurs in [s] at offset [k]. *)
Definition occurs_at (p s : string_view) (k : nat) : bool :=
  starts_with (skipn k s) p.

(** The least offset from [from] on at which [p] occurs in [s]. *)
Definition first_occurrence_from (p s : string_view) (from : nat)
    : option nat :=
  List.find (occurs_at p s) (seq from (List.length s + 1 - from)).

(** [s] holds [keyword] when letter case is ignored. *)
Definition contains_nocase (s keyword : string_view) : bool :=
  existsb (occurs_at keyword (to_upper s)) (seq 0 (List.length s + 1)).

(** The text after the first space of [s]; nothing without a space. *)
Fixpoint after_first_space (s : string_view) : string_view :=
  match s with
  | [] => []
  | c :: s' => if Ascii.eqb c " " then s' else after_first_space s'
  end.

(** The first 15 characters of a line that has as many. *)
Definition reference_timestamp (line : string_view) : string_view :=
  if (15 <=? List.length line)%nat then firstn 15 line else [].

(** The level read off the message, by priority. *)
Definition reference_level (msg : string_view) : LogLevel.t :=
  if contains_nocase msg (lit "ERROR") || contains_nocase msg (lit "FAIL")
  then LogLevel.Error
  else if contains_nocase msg (lit "WARN") then LogLevel.Warning
  else if contains_nocase msg (lit "DEBUG") then LogLevel.Debug
  else LogLevel.Info.

(** The record of a line whose colon-space is at offset [k]. *)
Definition located_record (line : string_view) (k : nat)
    (lineStart lineEnd lineNum : Z) : LogEntry :=
  let src := after_first_space (firstn (k - 16) (skipn 16 line)) in
  let msg := skipn (k + 2) line in
  mkLogEntry lineStart lineEnd lineNum (reference_timestamp line)
    (reference_level msg) src msg [] [] [] 0 0 [] [].

(** The record of a line in which no colon-space was located. *)
Definition whole_line_record (line : string_view)
    (lineStart lineEnd lineNum : Z) : LogEntry :=
  mkLogEntry lineStart lineEnd lineNum (reference_timestamp line)
    (reference_level line) [] line [] [] [] 0 0 [] [].

(** The reference definition as the claim words it: a colon-space that
    occurs at an offset greater than 15 is located. *)
Definition record_as_claimed (line : string_view)
    (lineStart lineEnd lineNum : Z) : LogEntry :=
  match first_occurrence_from (lit ": ") line 16 with
  | Some k => located_record line k lineStart lineEnd lineNum
  | None => whole_line_record line lineStart lineEnd lineNum
  end.

(** The reference definition of the code: the first colon-space of the
    line is located when its offset is greater than 15. *)
Definition record_of_first_colon (line : string_view)
    (lineStart lineEnd lineNum : Z) : LogEntry :=
  match first_occurrence_from (lit ": ") line 0 with
  | Some k =>
      if (15 <? k)%nat
      then located_record line k lineStart lineEnd lineNum
      else whole_line_record line lineStart lineEnd lineNum
  | None => whole_line_record line lineStart lineEnd lineNum
  end.

(** A line with a colon-space before and after offset 15. *)
Definition two_colons : string_view := lit "a: bcdefghijklmnopqr: msg".

(** A line of the usual shape. *)
Definition usual_syslog_line : string_view :=
  lit "Jan  1 12:00:00 host proc[12]: disk Failure".

End SyslogRecord.

(** *** The status of an access-log line and the steps of its body. *)

Module RequestStatus.


(** The digits [s] begins with. *)
Fixpoint leading_digits (s : string_view) : string_view :=
  match s with
  | [] => []
  | c :: s' => if isdigit c then c :: leading_digits s' else []
  end.







(** A line whose view ends within a run of digits. *)
Definition status_cut_short : string_view :=
  lit "h " ++ [dquote] ++ lit "GET / H" ++ [dquote] ++ lit " 50".

(** The steps of [apache_line], named. *)
Definition timestamp_step (line : string_view) (entry : LogEntry)
    : Exc LogEntry :=
  let tsStart := find_char line "[" 0 in
  let tsEnd := find_char line "]" 0 in
  if negb (tsStart =? npos) && negb (tsEnd =? npos) then
    ts <- substr line (add64 tsStart 1) (sub64 (sub64 tsEnd tsStart) 1) ;;
    Ret (set_timestamp entry ts)
  else Ret entry.

Definition method_step (request : string_view) (entry : LogEntry)
    : Exc LogEntry :=
  let methodEnd := find_char request " " 0 in
  if negb (methodEnd =? npos) then
    method <- substr request 0 methodEnd ;;
    let entry := set_httpMethod entry method in
    let urlEnd := find_char request " " (add64 methodEnd 1) in
    if negb (urlEnd =? npos) then
      u <- substr request (add64 methodEnd 1)
             (sub64 (sub64 urlEnd methodEnd) 1) ;;
      Ret (set_url entry u)
    else Ret entry
  else Ret entry.

Definition status_step (platform : Platform)
    (behind afterRequest : string_view) (entry : LogEntry) : Exc LogEntry :=
  let numStart := find_first_of afterRequest (lit "0123456789") in
  if negb (numStart =? npos) then
    let entry :=
      set_httpStatus entry
        (atoi platform (data_from afterRequest numStart ++ behind)) in
    let entry :=
      if httpStatus entry >=? 500 then set_level entry LogLevel.Error
      else if httpStatus entry >=? 400 then set_level entry LogLevel.Warning
      else set_level entry LogLevel.Info in
    Ret entry
  else Ret entry.

Definition request_step (platform : Platform) (behind line : string_view)
    (entry : LogEntry) : Exc LogEntry :=
  let reqStart := find_char line dquote 0 in
  if negb (reqStart =? npos) then
    let reqEnd := find_char line dquote (add64 reqStart 1) in
    if negb (reqEnd =? npos) then
      request <- substr line (add64 reqStart 1)
                   (sub64 (sub64 reqEnd reqStart) 1) ;;
      entry <- method_step request entry ;;
      afterRequest <- substr line (add64 reqEnd 1) npos ;;
      status_step platform behind afterRequest entry
    else Ret entry
  else Ret entry.

End RequestStatus.

(** *** The lines of a document and the records they give. *)

Module Lines.

(** A line without the carriage return that ends it. *)
Definition strip_cr (line : string_view) : string_view :=
  if negb (empty line) && Ascii.eqb (back line) CR
  then firstn (List.length line - 1) line
  else line.

(** The lines of a document: the runs between its line feeds, the last
    one ending with the document. *)
Fixpoint split_lines (s : string_view) : list string_view :=
  match s with
  | [] => [[]]
  | c :: s' =>
      if Ascii.eqb c LF then [] :: split_lines s'
      else match split_lines s' with
           | l :: ls => (c :: l) :: ls
           | [] => [[c]]
           end
  end.

(** Lines put together again, a line feed between two of them. *)
Fixpoint join_lines (lines : list string_view) : string_view :=
  match lines with
  | [] => []
  | l :: ls =>
      match ls with
      | [] => l
      | _ :: _ => l ++ LF :: join_lines ls
      end
  end.

(** The records of a list of lines, the first of which begins at offset
    [start] and is line [num]: a line that is empty once its carriage
    return is removed gives no record, every other line the answer of
    [body] on it. *)
Fixpoint records (body : string_view -> LogEntry -> Exc LogEntry)
    (lines : list string_view) (start num : Z) (entries : list LogEntry)
    : Exc (list LogEntry) :=
  match lines with
  | [] => Ret entries
  | l :: ls =>
      entries <- (if negb (empty (strip_cr l)) then
                    entry <- body (strip_cr l)
                               (new_entry start (start + size l) num) ;;
                    Ret (entries ++ [entry])
                  else Ret entries) ;;
      records body ls (start + size l + 1) (num + 1) entries
  end.

(** A body that leaves the three offsets of the entry alone. *)
Definition keeps_place (body : string_view -> LogEntry -> Exc LogEntry)
    : Prop :=
  forall line e e',
    body line e = Ret e' ->
    lineStart e' = lineStart e /\ lineEnd e' = lineEnd e /\
    lineNumber e' = lineNumber e.

(** The number of line feeds of [s]. *)
Definition line_feeds (s : string_view) : Z :=
  Z.of_nat (count_occ ascii_dec s LF).

(** [line] is a line of [content], between [before] and [after]: it holds
    no line feed, what precedes it is nothing or ends with a line feed,
    and what follows it is nothing or begins with one. *)
Definition line_at (content before line after : string_view) : Prop :=
  content = before ++ line ++ after /\ ~ In LF line /\
  (before = [] \/ exists b, before = b ++ [LF]) /\
  (after = [] \/ exists a, after = LF :: a).

(** The offsets of [e] are those of a line of [content] that is not
    empty, and its line number is the number of that line, counted from 1
    over all lines. *)
Definition placed (content : string_view) (e : LogEntry) : Prop :=
  exists before line after,
    line_at content before line after /\ line <> [] /\
    lineStart e = size before /\
    lineEnd e = size before + size line /\
    lineNumber e = 1 + line_feeds before.

(** [a] lies before [b] in the document. *)
Definition precedes (a b : LogEntry) : Prop :=
  lineEnd a < lineStart b /\ lineNumber a < lineNumber b.

(** A line that gives a record. *)
Definition has_text (l : string_view) : bool := negb (empty (strip_cr l)).

(** The line body of the parser that [Update] runs on [content] for a
    format. *)
Definition body_of (platform : Platform) (content : string_view)
    (format : LogFormat.t) : string_view -> LogEntry -> Exc LogEntry :=
  match format with
  | LogFormat.Apache => apache_body platform content
  | LogFormat.Syslog => syslog_line
  | LogFormat.Log4j => log4j_line
  | _ => generic_line
  end.

(** A document of four lines: the second ends with a carriage return,
    the third holds nothing else, the last is empty. *)
Definition four_lines : string_view :=
  lit "2024-01-15 ERROR disk full" ++ [LF] ++ lit "second" ++ [CR; LF] ++
  [CR; LF].

End Lines.

(** *** Severities and timestamps of the records of a session. *)

Module Severities.

(** The severity of [e] is one of [levels]. *)
Definition level_among (levels : list LogLevel.t) (e : LogEntry) : Prop :=
  In (level e) levels.

(** What [ParseLogLevel] makes of the name of a severity. *)
Definition reparsed (l : LogLevel.t) : LogLevel.t :=
  match l with
  | LogLevel.Critical => LogLevel.Fatal
  | _ => l
  end.

(** [e] carries no timestamp. *)
Definition no_timestamp (e : LogEntry) : Prop := timestamp e = [].

(** A syslog document of two lines. *)
Definition syslog_sample : string_view :=
  lit "Jan 15 10:30:00 host sshd[42]: Failed password for root" ++ [LF] ++
  lit "Jan 15 10:30:05 host cron[7]: job started".

End Severities.

(** *** The texts that the plugin entry point searches for. *)

Module Marks.

(** The extensions [Validate] looks behind. *)
Definition allowed_extension (extension : string_view) : bool :=
  str_eqb extension (lit ".log") || str_eqb extension (lit ".txt") ||
  str_eqb extension (lit ".logs").

(** The texts [Validate] searches for: those of a web access log, those
    of a date and those of a severity. *)
Definition web_marks : list string_view :=
  [lit "GET "; lit "POST "; lit "HTTP/"; dquote :: lit " 200 ";
   dquote :: lit " 404 "; dquote :: lit " 500 "].

Definition time_marks : list string_view :=
  [lit "202"; lit "/Jan/"; lit "/Feb/"; lit "/Mar/"; lit "/Apr/";
   lit "/May/"; lit "/Jun/"; lit "/Jul/"; lit "/Aug/"; lit "/Sep/";
   lit "/Oct/"; lit "/Nov/"; lit "/Dec/"; lit "Jan "; lit "Feb ";
   lit "Mar "; lit "Apr "; lit "May "; lit "Jun "; lit "Jul "; lit "Aug ";
   lit "Sep "; lit "Oct "; lit "Nov "; lit "Dec "].

Definition level_marks : list string_view :=
  [lit "ERROR"; lit "WARN"; lit "INFO"; lit "DEBUG"; lit "TRACE";
   lit "FATAL"; lit "error"; lit "warn"; lit "info"; lit "debug";
   lit "[error]"; lit "[warn]"; lit "[info]"].

(** [s] holds one of [marks]. *)
Definition holds_one_of (marks : list string_view) (s : string_view) : bool :=
  existsb (contains s) marks.

End Marks.

(** *** The shapes of the tokens. *)

Module Shapes.

Import Tiles Keywords.

(** The character tests of the tokenizer. *)
Definition is_line_end (c : char16) : bool := (c =? ch LF) || (c =? ch CR).

Definition is_bracket (c : char16) : bool :=
  (c =? ch "[") || (c =? ch "]") || (c =? ch "(") || (c =? ch ")") ||
  (c =? ch "{") || (c =? ch "}") || (c =? ch "<") || (c =? ch ">").

Definition is_quote (c : char16) : bool :=
  (c =? ch dquote) || (c =? ch squote).

Definition is_digit (c : char16) : bool := (c >=? ch "0") && (c <=? ch "9").

(** The number of occurrences of [c] in [run]. *)
Definition count_char (c : char16) (run : list char16) : Z :=
  Z.of_nat (count_occ Z.eq_dec run c).

(** [run] holds [c]. *)
Definition has_char (c : char16) (run : list char16) : bool :=
  existsb (Z.eqb c) run.

(** The type and colour of a numeric run, from the characters it holds:
    an address has exactly three dots and neither colon nor dash, a
    timestamp a dash or a colon, anything else is a number. *)
Definition numeric_kind (run : list char16) : Z * TokenColor.t :=
  if (count_char (ch ".") run =? 3) && negb (has_char (ch ":") run) &&
     negb (has_char (ch "-") run)
  then (TokenType.IPAddress, TokenColor.Keyword2)
  else if has_char (ch "-") run || has_char (ch ":") run
  then (TokenType.Timestamp, TokenColor.Keyword)
  else (TokenType.Number, TokenColor.Number).

(** Every character of [a, b) passes the test [p]. *)
Definition all_in (text : Text) (p : char16 -> bool) (a b : Z) : Prop :=
  forall i, a <= i < b -> p (at16 text i) = true.

(** The run [a, b) of characters that pass [p] cannot be extended. *)
Definition ends_run (text : Text) (p : char16 -> bool) (b : Z) : Prop :=
  b < Len text -> p (at16 text b) = false.

(** The five shapes of a token, by the character it begins with. *)
Inductive token_shape (text : Text) (t : Token) : Prop :=
| shape_bracket :
    is_bracket (at16 text (tokenStart t)) = true ->
    tokenEnd t = tokenStart t + 1 ->
    tokenType t = TokenType.Bracket -> tokenColor t = TokenColor.Operator ->
    token_shape text t
| shape_string :
    is_quote (at16 text (tokenStart t)) = true ->
    (tokenStart t + 2 <= tokenEnd t /\
     at16 text (tokenEnd t - 1) = at16 text (tokenStart t) \/
     tokenStart t < tokenEnd t /\
     (tokenEnd t = Len text \/
      is_line_end (at16 text (tokenEnd t)) = true)) ->
    tokenType t = TokenType.String -> tokenColor t = TokenColor.String ->
    token_shape text t
| shape_numeric :
    is_digit (at16 text (tokenStart t)) = true ->
    all_in text number_char (tokenStart t) (tokenEnd t) ->
    ends_run text number_char (tokenEnd t) ->
    (tokenType t, tokenColor t) =
    numeric_kind (slice text (tokenStart t) (tokenEnd t)) ->
    token_shape text t
| shape_word :
    is_word_start (at16 text (tokenStart t)) = true ->
    all_in text is_word_char (tokenStart t) (tokenEnd t) ->
    ends_run text is_word_char (tokenEnd t) ->
    (tokenType t, tokenColor t) =
    classify_word
      (upper_word (slice text (tokenStart t) (tokenEnd t))) ->
    token_shape text t
| shape_other :
    is_blank (at16 text (tokenStart t)) = false ->
    is_bracket (at16 text (tokenStart t)) = false ->
    is_quote (at16 text (tokenStart t)) = false ->
    is_digit (at16 text (tokenStart t)) = false ->
    is_word_start (at16 text (tokenStart t)) = false ->
    tokenEnd t = tokenStart t + 1 ->
    tokenType t = TokenType.Separator -> tokenColor t = TokenColor.Operator ->
    token_shape text t.

(** The colour the tokenizer gives to a token type. *)
Definition colour_of (type : Z) : TokenColor.t :=
  if type =? TokenType.Timestamp then TokenColor.Keyword
  else if type =? TokenType.LevelError then TokenColor.Error
  else if type =? TokenType.LevelWarning then TokenColor.Keyword2
  else if type =? TokenType.LevelInfo then TokenColor.Keyword
  else if type =? TokenType.LevelDebug then TokenColor.Comment
  else if type =? TokenType.Message then TokenColor.Word
  else if type =? TokenType.IPAddress then TokenColor.Keyword2
  else if type =? TokenType.HTTPMethod then TokenColor.Keyword2
  else if type =? TokenType.Number then TokenColor.Number
  else if type =? TokenType.String then TokenColor.String
  else TokenColor.Operator.

(** The token types the tokenizer hands out. *)
Definition emitted_types : list Z :=
  [TokenType.Timestamp; TokenType.LevelError; TokenType.LevelWarning;
   TokenType.LevelInfo; TokenType.LevelDebug; TokenType.Message;
   TokenType.IPAddress; TokenType.HTTPMethod; TokenType.Number;
   TokenType.Bracket; TokenType.String; TokenType.Separator].

(** The token types that may begin with a character of a class of
    [CharType]. *)
Definition class_kinds (class : Z) : list Z :=
  if class =? CharType.Digit
  then [TokenType.IPAddress; TokenType.Timestamp; TokenType.Number]
  else if class =? CharType.Bracket then [TokenType.Bracket]
  else if class =? CharType.Quote then [TokenType.String]
  else if (class =? CharType.Separator) || (class =? CharType.Punctuation)
  then [TokenType.Separator]
  else if class =? CharType.Word
  then [TokenType.LevelError; TokenType.LevelWarning; TokenType.LevelInfo;
        TokenType.LevelDebug; TokenType.HTTPMethod; TokenType.Message;
        TokenType.Separator]
  else [].

(** What [scan_number] knows of the run it has passed. *)
Definition flags_of (text : Text) (a : Z) (st : NumberScan) : Prop :=
  hasColon st = has_char (ch ":") (slice text a (n_pos st)) /\
  hasDash st = has_char (ch "-") (slice text a (n_pos st)) /\
  dotCount st = count_char (ch ".") (slice text a (n_pos st)).

End Shapes.

(** *** The rows of the list panels. *)

Module Rows.

Import PanelViews.

(** The row of a record in the Entries panel. *)
Definition entries_row (entry : LogEntry) : Row :=
  [format_u (lineNumber entry); LogLevelToString (level entry);
   c_str (timestamp entry); c_str (source entry); c_str (message entry)].

(** The row that closes the Entries panel when records are left out. *)
Definition entries_notice (n : Z) : Row :=
  [lit "..."; lit "..."; lit "..."; lit "...";
   lit "(Showing " ++ format_u MAX_DISPLAY_ENTRIES ++ lit " of " ++
   format_u n ++ lit " entries)"].

(** The records the Errors panel is about. *)
Definition is_problem (entry : LogEntry) : bool :=
  match level entry with
  | LogLevel.Error | LogLevel.Warning | LogLevel.Fatal | LogLevel.Critical =>
      true
  | _ => false
  end.

(** The row of a record in the Errors panel. *)
Definition errors_row (entry : LogEntry) : Row :=
  [format_u (lineNumber entry); LogLevelToString (level entry);
   c_str (timestamp entry); c_str (message entry)].

(** The rows that close the Errors panel: when records are left out, and
    when there is none to show. *)
Definition errors_notice : Row :=
  [lit "..."; lit "..."; lit "...";
   lit "(More errors not shown - use filtering)"].

Definition errors_none : Row :=
  [[]; []; []; lit "No errors or warnings found in the log file."].

End Rows.

(** *** The keyword tables of the generic and the structured-framework parser. *)

Module KeywordTables.

Import SyslogRecord.

(** The severity keywords of the generic parser, in their order of
    precedence. *)
Definition severity_keywords : list (list string_view * LogLevel.t) :=
  [([lit "FATAL"; lit "CRITICAL"], LogLevel.Fatal);
   ([lit "ERROR"; lit "EXCEPTION"; lit "FAIL"], LogLevel.Error);
   ([lit "WARN"], LogLevel.Warning);
   ([lit "DEBUG"], LogLevel.Debug);
   ([lit "TRACE"], LogLevel.Trace);
   ([lit "INFO"], LogLevel.Info)].

(** The severity of the first row of [table] one of whose keywords [line]
    holds, letter case ignored; [Unknown] when no row has one. *)
Fixpoint keyword_level (table : list (list string_view * LogLevel.t))
    (line : string_view) : LogLevel.t :=
  match table with
  | [] => LogLevel.Unknown
  | (keywords, l) :: table' =>
      if existsb (contains_nocase line) keywords then l
      else keyword_level table' line
  end.

(** The formats whose documents the generic parser reads. *)
Definition read_by_generic (format : LogFormat.t) : bool :=
  match format with
  | LogFormat.Apache | LogFormat.Syslog | LogFormat.Log4j => false
  | _ => true
  end.

(** The level table of the structured-framework parser without its
    [WARNING] row. *)
Definition log4j_levels_in_use : list string_view :=
  [lit "TRACE"; lit "DEBUG"; lit "INFO"; lit "WARN"; lit "ERROR";
   lit "FATAL"; lit "CRITICAL"].

(** A document the generic parser reads. *)
Definition generic_sample : string_view :=
  lit "[12:00:01] connection failed" ++ [CR; LF] ++ lit "all is well".

(** A document the structured-framework parser reads. *)
Definition log4j_sample : string_view :=
  lit "2024-01-15 10:30:00 INFO [main] Worker - started" ++ [LF] ++
  lit "2024-01-15 10:30:05 WARNING [main] Worker - disk almost full".

End KeywordTables.

(** *** The layout of an access-log line. *)

Module AccessLayout.

(** [line] has the layout of an access-log line: the address up to the
    first space, the timestamp between the first pair of square brackets,
    and the request between the first pair of quotes, made of the method,
    the address of the resource and the protocol with a space between
    them. *)
Definition access_layout
    (line ip mid1 ts mid2 method u proto rest : string_view) : Prop :=
  line =
    ip ++ " "%char :: mid1 ++ "["%char :: ts ++ "]"%char :: mid2 ++
    dquote :: method ++ " "%char :: u ++ " "%char :: proto ++
    dquote :: rest /\
  ~ In " "%char ip /\
  ~ In "["%char (ip ++ mid1) /\
  ~ In "]"%char (ip ++ mid1 ++ ts) /\
  ~ In dquote (ip ++ mid1 ++ ts ++ mid2) /\
  ~ In dquote (method ++ u ++ proto) /\
  ~ In " "%char method /\
  ~ In " "%char u.

End AccessLayout.

Import Counting Session Rules Samples Tiles Keywords SyslogRecord
  RequestStatus.

(* ================================================================== *)
(** * Properties *)

#[global] Arguments npos : simpl never.
#[global] Arguments size : simpl never.
#[global] Arguments two64 : simpl never.
#[global] Arguments two32 : simpl never.
#[global] Arguments add64 : simpl never.
#[global] Arguments sub64 : simpl never.
#[global] Arguments add32 : simpl never.

(** ** Machine arithmetic without overflow *)

Lemma add64_le (a b : Z) : 0 <= a + b -> 0 <= add64 a b <= a + b.
Proof.
  intros H. unfold add64. split.
  - apply Z.mod_pos_bound. reflexivity.
  - apply Z.mod_le; [lia|reflexivity].
Qed.

Lemma add64_small (a b : Z) : 0 <= a + b < two64 -> add64 a b = a + b.
Proof. intros H. unfold add64. apply Z.mod_small. exact H. Qed.

Lemma sub64_small (a b : Z) : 0 <= a - b < two64 -> sub64 a b = a - b.
Proof. intros H. unfold sub64. apply Z.mod_small. exact H. Qed.

Lemma add32_small (a b : Z) : 0 <= a + b < two32 -> add32 a b = a + b.
Proof. intros H. unfold add32. apply Z.mod_small. exact H. Qed.

(** ** [std::string_view] *)

Module StringViewFacts.

Lemma size_nonneg (s : string_view) : 0 <= size s.
Proof. unfold size. lia. Qed.

Lemma size_cons (c : ascii) (s : string_view) : size (c :: s) = size s + 1.
Proof. unfold size. simpl List.length. lia. Qed.

Lemma size_nil : size [] = 0.
Proof. reflexivity. Qed.

Lemma size_skipn (s : string_view) (n : Z) :
  0 <= n <= size s -> size (skipn (Z.to_nat n) s) = size s - n.
Proof. unfold size. intros H. rewrite length_skipn. lia. Qed.

Lemma starts_with_size (s p : string_view) :
  starts_with s p = true -> size p <= size s.
Proof.
  revert s. induction p as [|c p IH]; intros s H.
  - rewrite size_nil. apply size_nonneg.
  - destruct s as [|d s]; [discriminate|].
    simpl in H. apply andb_true_iff in H. destruct H as [_ H].
    rewrite !size_cons. specialize (IH _ H). lia.
Qed.

(** A successful search returns a position at which the pattern fits. *)
Lemma find_at_bounds (p s : string_view) (i : Z) :
  find_at s p i = npos \/
  (i <= find_at s p i /\ find_at s p i + size p <= i + size s).
Proof.
  revert i. induction s as [|c s IH]; intros i.
  - cbn [find_at]. destruct p; cbn [starts_with]; [right|left; reflexivity].
    rewrite size_nil. lia.
  - cbn [find_at]. destruct (starts_with (c :: s) p) eqn:E.
    + right. apply starts_with_size in E. lia.
    + destruct (IH (i + 1)) as [H|H]; [left; exact H|right].
      rewrite size_cons. lia.
Qed.

Lemma find_bounds (s p : string_view) (pos : Z) :
  0 <= pos ->
  find s p pos <> npos ->
  pos <= find s p pos /\ find s p pos + size p <= size s.
Proof.
  unfold find. intros Hpos H.
  destruct (size s <? pos) eqn:E; [congruence|].
  apply Z.ltb_ge in E.
  destruct (find_at_bounds p (skipn (Z.to_nat pos) s) pos) as [Hn|Hb];
    [congruence|].
  rewrite size_skipn in Hb by lia. lia.
Qed.

Lemma find_char_bounds (s : string_view) (c : ascii) (pos : Z) :
  0 <= pos ->
  find_char s c pos <> npos ->
  pos <= find_char s c pos /\ find_char s c pos + 1 <= size s.
Proof. intros Hpos H. apply (find_bounds s [c] pos Hpos H). Qed.

Lemma substr_ok (s : string_view) (pos count : Z) :
  pos <= size s ->
  substr s pos count =
  Ret (firstn (Z.to_nat (Z.min count (size s - pos))) (skipn (Z.to_nat pos) s)).
Proof.
  intros H. unfold substr.
  destruct (size s <? pos) eqn:E; [apply Z.ltb_lt in E; lia|reflexivity].
Qed.

End StringViewFacts.

Import StringViewFacts.

(** Reduce what the field assignments of an entry built. *)
Ltac entry_simpl :=
  cbn [new_entry LogEntry_new set_lineStart set_lineEnd set_lineNumber
       set_timestamp set_level set_source set_message set_ipAddress
       set_httpMethod set_url set_httpStatus
       lineStart lineEnd lineNumber timestamp level source message ipAddress
       httpMethod url httpStatus responseSize userAgent referer] in *.

(** ** The line bodies never throw *)

Module ParserTotality.

(** Decide a [find] result against [npos], keeping the bounds of a hit. *)
Ltac case_find pos :=
  match goal with
  | |- context [ find_char ?s ?c pos =? npos ] =>
      let E := fresh "E" in
      let B := fresh "B" in
      destruct (Z.eqb_spec (find_char s c pos) npos) as [E|E];
      [ | assert (B := find_char_bounds s c pos); specialize (B ltac:(lia) E) ]
  | |- context [ find ?s ?p pos =? npos ] =>
      let E := fresh "E" in
      let B := fresh "B" in
      destruct (Z.eqb_spec (find s p pos) npos) as [E|E];
      [ | assert (B := find_bounds s p pos); specialize (B ltac:(lia) E) ]
  end; cbn [negb andb].

Ltac substr_step :=
  rewrite substr_ok by lia; cbn [bind].

Ltac done_ret := eexists; reflexivity.

Lemma apache_line_total (platform : Platform) (behind line : string_view)
    (entry : LogEntry) :
  exists e, apache_line platform behind line entry = Ret e.
Proof.
  unfold apache_line.
  case_find 0; [done_ret|].
  substr_step.
  assert (Hent : forall (A : Type) (m : Exc LogEntry) (k : LogEntry -> Exc A),
             (exists e, m = Ret e) -> (forall e, exists r, k e = Ret r) ->
             exists r, bind m k = Ret r).
  { intros A m k [e ->] Hk. cbn [bind]. apply Hk. }
  apply Hent.
  - destruct (find_char line "[" 0 =? npos) eqn:E1; cbn [negb andb];
      [done_ret|].
    destruct (find_char line "]" 0 =? npos) eqn:E2; cbn [negb andb];
      [done_ret|].
    apply Z.eqb_neq in E1.
    pose proof (find_char_bounds line "[" 0 ltac:(lia) E1) as B1.
    pose proof (add64_le (find_char line "[" 0) 1 ltac:(lia)).
    substr_step. done_ret.
  - intros e1. apply Hent; [|intros; done_ret].
    case_find 0; [done_ret|].
    set (reqStart := find_char line dquote 0) in *.
    pose proof (add64_le reqStart 1 ltac:(lia)) as A1.
    case_find (add64 reqStart 1); [done_ret|].
    set (reqEnd := find_char line dquote (add64 reqStart 1)) in *.
    substr_step.
    set (request := firstn _ _).
    pose proof (add64_le reqEnd 1 ltac:(lia)) as A2.
    apply Hent.
    + case_find 0; [done_ret|].
      substr_step.
      pose proof (add64_le (find_char request " " 0) 1 ltac:(lia)) as A3.
      case_find (add64 (find_char request " " 0) 1); [done_ret|].
      substr_step. done_ret.
    + intros e2. substr_step.
      destruct (find_first_of _ _ =? npos); cbn [negb]; done_ret.
Qed.

Lemma syslog_line_total (line : string_view) (entry : LogEntry) :
  exists e, syslog_line line entry = Ret e.
Proof.
  unfold syslog_line.
  pose proof (size_nonneg line) as Hs.
  assert (H1 : exists e1,
             (if size line >=? 15
              then ts <- substr line 0 15 ;;
                   Ret (set_timestamp (set_message entry line) ts)
              else Ret (set_message entry line)) = Ret e1).
  { destruct (size line >=? 15); [substr_step|]; done_ret. }
  destruct H1 as [e1 ->]. cbn [bind].
  case_find 0; [done_ret|].
  change (size (lit ": ")) with 2 in B.
  set (colonPos := find line (lit ": ") 0) in *.
  destruct (colonPos >? 15) eqn:E15; [|done_ret].
  apply Z.gtb_lt in E15.
  substr_step.
  set (sourcePart := firstn _ _).
  pose proof (add64_le colonPos 2 ltac:(lia)) as A2.
  case_find 0; [substr_step; done_ret|].
  pose proof (add64_le (find_char sourcePart " " 0) 1 ltac:(lia)) as A1.
  do 2 substr_step. done_ret.
Qed.

Lemma skip_source_start_nonneg (fuel : nat) (r : string_view) (s m : Z) :
  0 <= s -> 0 <= skip_source_start fuel r s m.
Proof.
  revert s. induction fuel as [|fuel IH]; intros s Hs; cbn [skip_source_start].
  - exact Hs.
  - destruct (_ && _); [|exact Hs].
    apply IH. unfold add64. apply Z.mod_pos_bound. reflexivity.
Qed.

Lemma sub64_le (a b : Z) : 0 <= a - b -> 0 <= sub64 a b <= a - b.
Proof.
  intros H. unfold sub64. split.
  - apply Z.mod_pos_bound. reflexivity.
  - apply Z.mod_le; [lia|reflexivity].
Qed.

Lemma skip_source_end_le (fuel : nat) (r : string_view) (s e : Z) :
  0 <= s -> skip_source_end fuel r s e <= e.
Proof.
  intros Hs. revert e. induction fuel as [|fuel IH]; intros e;
    cbn [skip_source_end]; [lia|].
  destruct (e >? s) eqn:E; cbn [andb]; [|lia].
  apply Z.gtb_lt in E.
  destruct (_ || _); [|lia].
  pose proof (sub64_le e 1 ltac:(lia)). specialize (IH (sub64 e 1)). lia.
Qed.

(** The two trimming loops leave with their condition false: their fuel
    was enough. *)
Lemma skip_source_start_exit (fuel : nat) (r : string_view) (m : Z) :
  forall s,
    0 <= s -> m < two64 -> m - s <= Z.of_nat fuel ->
    let p := skip_source_start fuel r s m in
    (p <? m) && (Ascii.eqb (at_ r p) " " || Ascii.eqb (at_ r p) "[") = false.
Proof.
  induction fuel as [|fuel IH]; intros s Hs Hm Hf; cbn [skip_source_start].
  - cbv zeta. destruct (Z.ltb_spec s m); [lia|reflexivity].
  - destruct ((s <? m) && (_ || _)) eqn:E; [|exact E].
    apply andb_true_iff in E. destruct E as [E _]. apply Z.ltb_lt in E.
    rewrite add64_small by lia. apply IH; lia.
Qed.

Lemma skip_source_end_exit (fuel : nat) (r : string_view) (s : Z) :
  forall e,
    0 <= s -> e < two64 -> e - s <= Z.of_nat fuel ->
    let p := skip_source_end fuel r s e in
    (p >? s) &&
    (Ascii.eqb (at_ r (sub64 p 1)) " " || Ascii.eqb (at_ r (sub64 p 1)) "]")
    = false.
Proof.
  induction fuel as [|fuel IH]; intros e Hs He Hf; cbn [skip_source_end].
  - cbv zeta. destruct (Z.gtb_spec e s); [lia|reflexivity].
  - destruct ((e >? s) && (_ || _)) eqn:E; [|exact E].
    apply andb_true_iff in E. destruct E as [E _]. apply Z.gtb_lt in E.
    rewrite sub64_small by lia. apply IH; lia.
Qed.

Lemma log4j_find_level_total (levels : list string_view)
    (remaining : string_view) (entry : LogEntry) :
  exists e, log4j_find_level levels remaining entry = Ret e.
Proof.
  induction levels as [|lvl levels IH]; cbn [log4j_find_level]; [done_ret|].
  case_find 0; [exact IH|].
  set (lvlPos := find remaining lvl 0) in *.
  destruct (lvlPos <? 20); [|exact IH].
  unfold strlen. pose proof (size_nonneg lvl) as Hl.
  pose proof (add64_le lvlPos (size lvl) ltac:(lia)) as A1.
  case_find lvlPos; [substr_step; done_ret|].
  change (size (lit " - ")) with 3 in B0.
  set (msgStart := find remaining (lit " - ") lvlPos) in *.
  set (sourceStart := skip_source_start _ _ _ _).
  assert (Hss : 0 <= sourceStart)
    by (apply skip_source_start_nonneg; lia).
  set (sourceEnd := skip_source_end _ _ _ _).
  assert (Hse : sourceEnd <= msgStart)
    by (apply skip_source_end_le; exact Hss).
  pose proof (add64_le msgStart 3 ltac:(lia)) as A3.
  destruct (sourceEnd >? sourceStart) eqn:E1.
  - apply Z.gtb_lt in E1. do 2 substr_step. done_ret.
  - cbn [bind]. substr_step. done_ret.
Qed.

Lemma log4j_line_total (line : string_view) (entry : LogEntry) :
  exists e, log4j_line line entry = Ret e.
Proof.
  unfold log4j_line.
  pose proof (size_nonneg line) as Hs.
  destruct (size line >=? 19) eqn:E19; cbn [andb].
  2:{ cbn [bind]. change (0 >? 0) with false. cbv iota. cbn [bind].
      destruct (log4j_find_level_total log4j_levels line
                  (set_level entry LogLevel.Unknown)) as [e ->].
      cbn [bind]. done_ret. }
  apply Z.geb_le in E19.
  destruct ((_ || _) && (_ || _)).
  2:{ cbn [bind]. change (0 >? 0) with false. cbv iota. cbn [bind].
      destruct (log4j_find_level_total log4j_levels line
                  (set_level entry LogLevel.Unknown)) as [e ->].
      cbn [bind]. done_ret. }
  destruct (size line >? 23) eqn:E23; cbn [andb].
  - apply Z.gtb_lt in E23.
    destruct (_ || _); substr_step.
    + change (23 >? 0) with true. cbv iota. substr_step.
      match goal with
      | |- context [ log4j_find_level ?l ?r ?e ] =>
          destruct (log4j_find_level_total l r e) as [e' ->]
      end.
      cbn [bind]. done_ret.
    + change (19 >? 0) with true. cbv iota. substr_step.
      match goal with
      | |- context [ log4j_find_level ?l ?r ?e ] =>
          destruct (log4j_find_level_total l r e) as [e' ->]
      end.
      cbn [bind]. done_ret.
  - substr_step. change (19 >? 0) with true. cbv iota. substr_step.
    match goal with
    | |- context [ log4j_find_level ?l ?r ?e ] =>
        destruct (log4j_find_level_total l r e) as [e' ->]
    end.
    cbn [bind]. done_ret.
Qed.

Lemma generic_line_total (line : string_view) (entry : LogEntry) :
  exists e, generic_line line entry = Ret e.
Proof.
  unfold generic_line.
  pose proof (size_nonneg line) as Hs.
  destruct (Ascii.eqb (at_ line 0) "[").
  - case_find 0; [cbn [bind]; done_ret|].
    substr_step. done_ret.
  - destruct (_ && _ && _); [substr_step|cbn [bind]]; done_ret.
Qed.

End ParserTotality.

(** ** The line loop *)

Module LineLoop.

Import ParserTotality.

Section Loop.

Variable body : string_view -> LogEntry -> Exc LogEntry.
Hypothesis body_total : forall line entry, exists e, body line entry = Ret e.

(** With fuel beyond the characters left, the loop ends normally, and it
    appends at most one entry per character. *)
Lemma parse_lines_total (fuel : nat) :
  forall (content : string_view) (pos lineNum : Z) (entries : list LogEntry),
    size content < npos ->
    0 <= pos ->
    Z.max 0 (size content - pos) < Z.of_nat fuel ->
    exists r,
      parse_lines body fuel content pos lineNum entries = Ret r /\
      Z.of_nat (List.length r) <=
      Z.of_nat (List.length entries) + Z.max 0 (size content - pos).
Proof.
  induction fuel as [|fuel IH]; intros content pos lineNum entries Hsz Hpos Hf.
  { lia. }
  cbn [parse_lines].
  destruct (pos <? size content) eqn:Elt.
  2:{ exists entries. split; [reflexivity|lia]. }
  apply Z.ltb_lt in Elt.
  set (lineEnd := if find_char content LF pos =? npos then size content
                  else find_char content LF pos).
  assert (Hle : pos <= lineEnd <= size content).
  { subst lineEnd.
    destruct (Z.eqb_spec (find_char content LF pos) npos) as [E|E].
    - lia.
    - pose proof (find_char_bounds content LF pos Hpos E). lia. }
  substr_step.
  set (line0 := firstn _ _).
  assert (H1 : exists line,
             (if negb (empty line0) && Ascii.eqb (back line0) CR
              then substr line0 0 (sub64 (size line0) 1)
              else Ret line0) = Ret line).
  { pose proof (size_nonneg line0).
    destruct (_ && _); [substr_step|]; done_ret. }
  destruct H1 as [line ->]. cbn [bind].
  assert (H2 : exists entries',
             (if negb (empty line)
              then entry <- body line (new_entry pos lineEnd lineNum) ;;
                   Ret (entries ++ [entry])
              else Ret entries) = Ret entries' /\
             Z.of_nat (List.length entries') <=
             Z.of_nat (List.length entries) + 1).
  { destruct (negb (empty line)).
    - destruct (body_total line (new_entry pos lineEnd lineNum)) as [e ->].
      cbn [bind]. eexists. split; [reflexivity|].
      rewrite length_app. cbn [List.length]. lia.
    - eexists. split; [reflexivity|lia]. }
  destruct H2 as [entries' [-> Hlen]]. cbn [bind].
  rewrite add64_small by (unfold two64; unfold npos in Hsz; lia).
  destruct (IH content (lineEnd + 1) (add32 lineNum 1) entries' Hsz
              ltac:(lia) ltac:(lia)) as [r [Hr Hb]].
  exists r. split; [exact Hr|lia].
Qed.

Lemma parse_content_total (content : string_view) (entries : list LogEntry) :
  size content < npos ->
  exists r,
    parse_content body content entries = Ret r /\
    Z.of_nat (List.length r) <= Z.of_nat (List.length entries) + size content.
Proof.
  intros Hsz. unfold parse_content.
  pose proof (size_nonneg content) as Hn.
  destruct (parse_lines_total (S (List.length content)) content 0 1 entries
              Hsz ltac:(lia)) as [r [Hr Hb]].
  { unfold size. lia. }
  exists r. split; [exact Hr|lia].
Qed.

End Loop.

(** Every entry the loop appends is the body's answer on a non-empty line
    that holds no line feed. *)
Lemma parse_lines_entries
    (body : string_view -> LogEntry -> Exc LogEntry)
    (P : LogEntry -> Prop) :
  (forall line lineStart lineEnd lineNum e,
      line <> [] ->
      body line (new_entry lineStart lineEnd lineNum) = Ret e -> P e) ->
  forall (fuel : nat) (content : string_view) (pos lineNum : Z)
         (entries r : list LogEntry),
    parse_lines body fuel content pos lineNum entries = Ret r ->
    Forall P entries -> Forall P r.
Proof.
  intros Hbody.
  induction fuel as [|fuel IH]; intros content pos lineNum entries r Hr HP;
    cbn [parse_lines] in Hr; [discriminate|].
  destruct (pos <? size content); [|injection Hr as <-; exact HP].
  destruct (substr content pos _) as [line0| |]; cbn [bind] in Hr;
    try discriminate.
  destruct (if negb (empty line0) && Ascii.eqb (back line0) CR
            then substr line0 0 (sub64 (size line0) 1)
            else Ret line0) as [line| |]; cbn [bind] in Hr; try discriminate.
  destruct (empty line) eqn:Ee; cbn [negb] in Hr; cbn [bind] in Hr.
  - apply (IH _ _ _ _ _ Hr HP).
  - destruct (body line _) as [e| |] eqn:Eb; cbn [bind] in Hr;
      try discriminate.
    apply (IH _ _ _ _ _ Hr).
    apply Forall_app. split; [exact HP|].
    constructor; [|constructor].
    eapply Hbody; [|exact Eb].
    intros ->. discriminate.
Qed.

End LineLoop.

(** ** Statistics *)

Module Statistics.

Lemma how_many_nil (p : LogEntry -> bool) : how_many p [] = 0.
Proof. reflexivity. Qed.

Lemma how_many_cons (p : LogEntry -> bool) (e : LogEntry) (l : list LogEntry) :
  how_many p (e :: l) = (if p e then 1 else 0) + how_many p l.
Proof.
  unfold how_many. cbn [filter]. destruct (p e); cbn [List.length]; lia.
Qed.

Lemma how_many_bounds (p : LogEntry -> bool) (l : list LogEntry) :
  0 <= how_many p l <= Z.of_nat (List.length l).
Proof.
  induction l as [|e l IH]; [rewrite how_many_nil; cbn; lia|].
  rewrite how_many_cons. cbn [List.length]. destruct (p e); lia.
Qed.

(** Each record falls into exactly one severity bucket. *)
Lemma severity_partition (l : list LogEntry) :
  how_many in_bucket_trace l + how_many in_bucket_debug l +
  how_many in_bucket_info l + how_many in_bucket_warning l +
  how_many in_bucket_error l + how_many in_bucket_fatal l +
  how_many in_bucket_unknown l = Z.of_nat (List.length l).
Proof.
  induction l as [|e l IH]; [reflexivity|].
  rewrite !how_many_cons. cbn [List.length].
  repeat match goal with
         | |- context [ how_many ?p l ] =>
             let n := fresh "n" in set (n := how_many p l) in *
         end.
  unfold in_bucket_trace, in_bucket_debug, in_bucket_info, in_bucket_warning,
    in_bucket_error, in_bucket_fatal, in_bucket_unknown.
  destruct (level e); lia.
Qed.

Lemma how_many_one (p : LogEntry -> bool) (e : LogEntry) :
  how_many p [e] = if p e then 1 else 0.
Proof. rewrite how_many_cons, how_many_nil. destruct (p e); reflexivity. Qed.

Lemma count_entry_split (s : LogStatistics) (e : LogEntry) :
  count_entry s e = count_http (count_level s e) e.
Proof. reflexivity. Qed.

Ltac projections :=
  cbn [traceCount debugCount infoCount warningCount errorCount fatalCount
       unknownCount http2xxCount http3xxCount http4xxCount http5xxCount
       totalLines firstTimestamp lastTimestamp
       inc_traceCount inc_debugCount inc_infoCount inc_warningCount
       inc_errorCount inc_fatalCount inc_unknownCount inc_http2xxCount
       inc_http3xxCount inc_http4xxCount inc_http5xxCount
       set_totalLines set_firstTimestamp set_lastTimestamp
       LogStatistics_new] in *.

Lemma count_level_counted (s : LogStatistics) (e : LogEntry) :
  room s 1 ->
  traceCount (count_level s e) = traceCount s + how_many in_bucket_trace [e] /\
  debugCount (count_level s e) = debugCount s + how_many in_bucket_debug [e] /\
  infoCount (count_level s e) = infoCount s + how_many in_bucket_info [e] /\
  warningCount (count_level s e) =
    warningCount s + how_many in_bucket_warning [e] /\
  errorCount (count_level s e) = errorCount s + how_many in_bucket_error [e] /\
  fatalCount (count_level s e) = fatalCount s + how_many in_bucket_fatal [e] /\
  unknownCount (count_level s e) =
    unknownCount s + how_many in_bucket_unknown [e] /\
  http2xxCount (count_level s e) = http2xxCount s /\
  http3xxCount (count_level s e) = http3xxCount s /\
  http4xxCount (count_level s e) = http4xxCount s /\
  http5xxCount (count_level s e) = http5xxCount s /\
  totalLines (count_level s e) = totalLines s /\
  firstTimestamp (count_level s e) = firstTimestamp s /\
  lastTimestamp (count_level s e) = lastTimestamp s.
Proof.
  unfold room. intros R. rewrite !how_many_one.
  unfold count_level, in_bucket_trace, in_bucket_debug, in_bucket_info,
    in_bucket_warning, in_bucket_error, in_bucket_fatal, in_bucket_unknown.
  destruct (level e); projections; rewrite ?add32_small by lia;
    repeat split; lia.
Qed.

Lemma count_http_counted (s : LogStatistics) (e : LogEntry) :
  0 <= http2xxCount s < two32 - 1 ->
  0 <= http3xxCount s < two32 - 1 ->
  0 <= http4xxCount s < two32 - 1 ->
  0 <= http5xxCount s < two32 - 1 ->
  traceCount (count_http s e) = traceCount s /\
  debugCount (count_http s e) = debugCount s /\
  infoCount (count_http s e) = infoCount s /\
  warningCount (count_http s e) = warningCount s /\
  errorCount (count_http s e) = errorCount s /\
  fatalCount (count_http s e) = fatalCount s /\
  unknownCount (count_http s e) = unknownCount s /\
  http2xxCount (count_http s e) = http2xxCount s + how_many is_2xx [e] /\
  http3xxCount (count_http s e) = http3xxCount s + how_many is_3xx [e] /\
  http4xxCount (count_http s e) = http4xxCount s + how_many is_4xx [e] /\
  http5xxCount (count_http s e) = http5xxCount s + how_many is_5xx [e] /\
  totalLines (count_http s e) = totalLines s /\
  firstTimestamp (count_http s e) = firstTimestamp s /\
  lastTimestamp (count_http s e) = lastTimestamp s.
Proof.
  intros R2 R3 R4 R5. rewrite !how_many_one.
  unfold count_http, is_2xx, is_3xx, is_4xx, is_5xx.
  rewrite !(Z.geb_leb (httpStatus e)).
  destruct (Z.leb_spec 200 (httpStatus e)), (Z.ltb_spec (httpStatus e) 300),
    (Z.leb_spec 300 (httpStatus e)), (Z.ltb_spec (httpStatus e) 400),
    (Z.leb_spec 400 (httpStatus e)), (Z.ltb_spec (httpStatus e) 500),
    (Z.leb_spec 500 (httpStatus e));
    try (exfalso; lia);
    cbn [andb]; projections; rewrite ?add32_small by lia;
    repeat split; lia.
Qed.

Lemma room_weaken (s s' : LogStatistics) (n : Z) :
  room s (n + 1) ->
  0 <= n ->
  traceCount s <= traceCount s' <= traceCount s + 1 ->
  debugCount s <= debugCount s' <= debugCount s + 1 ->
  infoCount s <= infoCount s' <= infoCount s + 1 ->
  warningCount s <= warningCount s' <= warningCount s + 1 ->
  errorCount s <= errorCount s' <= errorCount s + 1 ->
  fatalCount s <= fatalCount s' <= fatalCount s + 1 ->
  unknownCount s <= unknownCount s' <= unknownCount s + 1 ->
  http2xxCount s <= http2xxCount s' <= http2xxCount s + 1 ->
  http3xxCount s <= http3xxCount s' <= http3xxCount s + 1 ->
  http4xxCount s <= http4xxCount s' <= http4xxCount s + 1 ->
  http5xxCount s <= http5xxCount s' <= http5xxCount s + 1 ->
  room s' n.
Proof. unfold room. intros. lia. Qed.

Lemma count_entry_counted (s : LogStatistics) (e : LogEntry) :
  room s 1 -> counted s [e] (count_entry s e).
Proof.
  intros R. rewrite count_entry_split.
  pose proof (count_level_counted s e R) as L.
  unfold room in R. decompose [and] L.
  pose proof (count_http_counted (count_level s e) e
                ltac:(lia) ltac:(lia) ltac:(lia) ltac:(lia)) as Hh.
  unfold counted. decompose [and] Hh.
  repeat split; try lia; congruence.
Qed.

Ltac one_bounds e :=
  pose proof (how_many_bounds in_bucket_trace [e]);
  pose proof (how_many_bounds in_bucket_debug [e]);
  pose proof (how_many_bounds in_bucket_info [e]);
  pose proof (how_many_bounds in_bucket_warning [e]);
  pose proof (how_many_bounds in_bucket_error [e]);
  pose proof (how_many_bounds in_bucket_fatal [e]);
  pose proof (how_many_bounds in_bucket_unknown [e]);
  pose proof (how_many_bounds is_2xx [e]);
  pose proof (how_many_bounds is_3xx [e]);
  pose proof (how_many_bounds is_4xx [e]);
  pose proof (how_many_bounds is_5xx [e]);
  cbn [List.length] in *.

Lemma how_many_cons1 (p : LogEntry -> bool) (e : LogEntry)
    (l : list LogEntry) :
  how_many p (e :: l) = how_many p [e] + how_many p l.
Proof. rewrite how_many_one. apply how_many_cons. Qed.

Lemma fold_count_entry_counted (l : list LogEntry) :
  forall s : LogStatistics,
    room s (Z.of_nat (List.length l)) ->
    counted s l (fold_left count_entry l s).
Proof.
  induction l as [|e l IH]; intros s R.
  - cbn [fold_left]. unfold counted. rewrite !how_many_nil.
    repeat split; lia.
  - cbn [fold_left].
    assert (R1 : room s 1).
    { unfold room in *. cbn [List.length] in R. lia. }
    pose proof (count_entry_counted s e R1) as C1.
    assert (R2 : room (count_entry s e) (Z.of_nat (List.length l))).
    { one_bounds e. unfold counted in C1.
      apply (room_weaken s); [|lia|lia..].
      replace (Z.of_nat (List.length l) + 1)
        with (Z.of_nat (List.length (e :: l)))
        by (cbn [List.length]; lia).
      exact R. }
    specialize (IH _ R2).
    unfold counted in *.
    rewrite !(how_many_cons1 _ e l).
    decompose [and] C1. decompose [and] IH.
    repeat split; try lia; congruence.
Qed.

(** The counters of [UpdateStatistics], for fewer than [2^32] records. *)
Lemma UpdateStatistics_counts (l : list LogEntry) :
  Z.of_nat (List.length l) < two32 ->
  counted (set_totalLines LogStatistics_new (Z.of_nat (List.length l))) l
    (set_lastTimestamp
       (set_firstTimestamp (UpdateStatistics l) []) []).
Proof.
  intros H.
  assert (R : room (set_totalLines LogStatistics_new
                      (to_uint32 (Z.of_nat (List.length l))))
                (Z.of_nat (List.length l))).
  { unfold room. projections. unfold two32 in *. lia. }
  pose proof (fold_count_entry_counted l _ R) as C.
  unfold UpdateStatistics.
  assert (Hu : to_uint32 (Z.of_nat (List.length l)) = Z.of_nat (List.length l)).
  { unfold to_uint32. apply Z.mod_small. lia. }
  rewrite Hu in *.
  set (s := fold_left count_entry l _) in *.
  unfold counted in *.
  destruct l as [|e l']; cbn [negb]; cbv iota; projections;
    decompose [and] C; repeat split; solve [lia|reflexivity|congruence].
Qed.

End Statistics.

(** ** Refresh *)

Module Refresh.

Import ParserTotality LineLoop Statistics.

Lemma parsed_prefix_size (o : Object) :
  size (parsed_prefix o) <= MAX_PARSE_SIZE.
Proof.
  unfold parsed_prefix, Get, GetSize, to_uint32.
  pose proof (size_nonneg (data o)) as Hn.
  assert (Hm : 0 <= Z.min (size (data o)) MAX_PARSE_SIZE <= MAX_PARSE_SIZE)
    by (unfold MAX_PARSE_SIZE; lia).
  rewrite Z.mod_small by (unfold MAX_PARSE_SIZE, two32 in *; lia).
  unfold size at 1. rewrite length_firstn. lia.
Qed.

Lemma run_parser_total (platform : Platform) (format : LogFormat.t)
    (content : string_view) :
  size content < npos ->
  exists parsed,
    run_parser platform format content = Ret parsed /\
    Z.of_nat (List.length parsed) <= size content.
Proof.
  intros Hsz. unfold run_parser, ParseApacheLog, ParseSyslog, ParseLog4j,
    ParseGenericLog.
  destruct format;
    first
      [ apply (parse_content_total _
                 (fun line entry => apache_line_total platform _ line entry)
                 content [] Hsz)
      | apply (parse_content_total _ syslog_line_total content [] Hsz)
      | apply (parse_content_total _ log4j_line_total content [] Hsz)
      | apply (parse_content_total _ generic_line_total content [] Hsz) ].
Qed.

Lemma Update_not_ready (platform : Platform) (this : LOGFile) :
  source_ready this = false -> Update platform this = Ret (false, this).
Proof.
  unfold source_ready, Update. destruct (obj this) as [o|]; [|reflexivity].
  destruct (GetSize o =? 0); [reflexivity|discriminate].
Qed.

Lemma Update_ready (platform : Platform) (this : LOGFile) (o : Object) :
  obj this = Some o ->
  GetSize o <> 0 ->
  exists parsed,
    run_parser platform (DetectLogFormat (parsed_prefix o))
      (parsed_prefix o) = Ret parsed /\
    Z.of_nat (List.length parsed) <= MAX_PARSE_SIZE /\
    Update platform this =
    Ret (true,
         mkLOGFile (Some o) (DetectLogFormat (parsed_prefix o)) parsed
           (UpdateStatistics parsed) (panelsMask this)).
Proof.
  intros Ho Hsz.
  pose proof (parsed_prefix_size o) as Hp.
  destruct (run_parser_total platform (DetectLogFormat (parsed_prefix o))
              (parsed_prefix o)) as [parsed [Hr Hl]].
  { unfold MAX_PARSE_SIZE, npos in *. lia. }
  exists parsed. split; [exact Hr|]. split; [lia|].
  unfold Update. rewrite Ho.
  apply Z.eqb_neq in Hsz. rewrite Hsz.
  cbn [obj detectedFormat entries stats panelsMask].
  fold (parsed_prefix o).
  unfold run_parser in Hr.
  destruct (DetectLogFormat (parsed_prefix o)); rewrite Hr; reflexivity.
Qed.

End Refresh.

Module Detection.

Lemma sample_is_prefix (content : string_view) :
  firstn (Z.to_nat (Z.min (size content) 4096)) content = the_sample content.
Proof.
  unfold the_sample, size.
  destruct (Z.le_gt_cases (Z.of_nat (List.length content)) 4096) as [H|H].
  - rewrite Z.min_l by exact H. rewrite Nat2Z.id.
    rewrite firstn_all. symmetry. apply firstn_all2. lia.
  - rewrite Z.min_r by lia. reflexivity.
Qed.

Lemma orb_assoc_r (a b c : bool) : a || b || c = a || (b || c).
Proof. destruct a, b, c; reflexivity. Qed.

Lemma DetectLogFormat_rules (content : string_view) :
  DetectLogFormat content = first_match detection_rules (the_sample content).
Proof.
  unfold DetectLogFormat. cbv zeta. rewrite sample_is_prefix.
  generalize (the_sample content). intros sample.
  unfold detection_rules, first_match, rule_WebAccess, rule_WebError,
    rule_Syslog, rule_StructuredFramework, rule_JSON, existsb.
  rewrite !orb_false_r, <- !orb_assoc_r. reflexivity.
Qed.

(** C2. [DetectLogFormat] reads the first 4096 bytes of the document only
    (the whole document when shorter) and applies the five format rules in
    their fixed order, first match winning: documents with the same sample
    get the same format; a sample with both the WebAccess and the
    StructuredFramework signature is [Apache]; a sample with no signature
    is [Custom]. *)
Theorem DetectLogFormat_priority (content : string_view) :
  DetectLogFormat content = first_match detection_rules (the_sample content) /\
  (forall content',
      the_sample content' = the_sample content ->
      DetectLogFormat content' = DetectLogFormat content) /\
  (rule_WebAccess (the_sample content) = true ->
   rule_StructuredFramework (the_sample content) = true ->
   DetectLogFormat content = LogFormat.Apache) /\
  (rule_WebAccess (the_sample content) = false ->
   rule_WebError (the_sample content) = false ->
   rule_Syslog (the_sample content) = false ->
   rule_StructuredFramework (the_sample content) = false ->
   rule_JSON (the_sample content) = false ->
   DetectLogFormat content = LogFormat.Custom).
Proof.
  split; [apply DetectLogFormat_rules|]. split; [|split].
  - intros content' H. rewrite !DetectLogFormat_rules, H. reflexivity.
  - intros H1 _. rewrite DetectLogFormat_rules.
    generalize dependent (the_sample content). intros sample H1.
    unfold first_match, detection_rules. rewrite H1. reflexivity.
  - rewrite DetectLogFormat_rules.
    generalize (the_sample content). intros sample H1 H2 H3 H4 H5.
    unfold first_match, detection_rules.
    rewrite H1, H2, H3, H4, H5. reflexivity.
Qed.

End Detection.

Module RefreshClaims.

Import ParserTotality LineLoop Statistics Refresh Detection.

Lemma http_partition (l : list LogEntry) :
  how_many is_2xx l + how_many is_3xx l + how_many is_4xx l +
  how_many is_5xx l = how_many (fun e => 200 <=? httpStatus e) l.
Proof.
  induction l as [|e l IH]; [reflexivity|].
  rewrite !how_many_cons.
  repeat match goal with
         | |- context [ how_many ?p l ] =>
             let n := fresh "n" in set (n := how_many p l) in *
         end.
  unfold is_2xx, is_3xx, is_4xx, is_5xx.
  destruct (Z.leb_spec 200 (httpStatus e)), (Z.ltb_spec (httpStatus e) 300),
    (Z.leb_spec 300 (httpStatus e)), (Z.ltb_spec (httpStatus e) 400),
    (Z.leb_spec 400 (httpStatus e)), (Z.ltb_spec (httpStatus e) 500),
    (Z.leb_spec 500 (httpStatus e)); cbn [andb]; lia.
Qed.

(** C3. After every refresh the seven severity counters add up to
    [totalLines], which is the number of records; every counter is the
    number of records of its bucket, [Fatal] and [Critical] sharing one;
    and the four HTTP counters hold the records with a status in
    [200,300), [300,400), [400,500) and from 500 on, so that a record
    counts in exactly one of them when its status is at least 200 and in
    none otherwise, status 0 included.  A refresh that returns [false]
    changes nothing, so there the session is as it was before: fresh, or
    left by an earlier refresh. *)
Theorem refresh_statistics (platform : Platform) (this this' : LOGFile)
    (ok : bool) :
  Update platform this = Ret (ok, this') ->
  (ok = false -> statistics_consistent this) ->
  statistics_consistent this'.
Proof.
  intros HU Hbefore.
  destruct (source_ready this) eqn:E.
  - unfold source_ready in E. destruct (obj this) as [o|] eqn:Ho;
      [|discriminate].
    apply negb_true_iff, Z.eqb_neq in E.
    destruct (Update_ready platform this o Ho E)
      as [parsed [_ [Hlen HU']]].
    rewrite HU' in HU. injection HU as <- <-.
    unfold statistics_consistent. cbn [stats entries]. cbv zeta.
    assert (H32 : Z.of_nat (List.length parsed) < two32)
      by (unfold MAX_PARSE_SIZE, two32 in *; lia).
    pose proof (UpdateStatistics_counts parsed H32) as C.
    unfold counted in C. projections.
    pose proof (severity_partition parsed) as SP.
    pose proof (http_partition parsed) as HP.
    decompose [and] C. repeat split; lia.
  - rewrite (Update_not_ready _ _ E) in HU. injection HU as <- <-.
    apply Hbefore. reflexivity.
Qed.

(** A fresh session is consistent: no record, every counter zero. *)
Lemma fresh_session_consistent (o : option Object) :
  statistics_consistent (LOGFile_new o).
Proof. unfold statistics_consistent. cbn. repeat split. Qed.

(** The refresh of the scenario A session is an instance. *)
Lemma refresh_statistics_witness :
  statistics_consistent (refreshed (session scenario_A)).
Proof.
  apply (refresh_statistics saturating (session scenario_A) _ true).
  - vm_compute. reflexivity.
  - discriminate.
Defined.

(** C9. [Update] always returns; it returns [false] exactly when [obj] is
    not valid or its source holds no byte, and then, on a fresh session,
    there are no records and every counter is zero; otherwise it returns
    [true] with the detected format of the parsed prefix, the records of
    the parser of that format and their statistics. *)
Theorem Update_outcome (platform : Platform) (this : LOGFile) :
  exists (ok : bool) (this' : LOGFile),
    Update platform this = Ret (ok, this') /\
    (ok = false <->
     obj this = None \/ exists o, obj this = Some o /\ GetSize o = 0) /\
    (ok = false ->
     forall o, this = LOGFile_new o ->
               entries this' = [] /\ stats this' = LogStatistics_new) /\
    (ok = true ->
     exists o,
       obj this = Some o /\
       detectedFormat this' = DetectLogFormat (parsed_prefix o) /\
       run_parser platform (detectedFormat this') (parsed_prefix o) =
       Ret (entries this') /\
       stats this' = UpdateStatistics (entries this')).
Proof.
  destruct (obj this) as [o|] eqn:Ho.
  - destruct (Z.eq_dec (GetSize o) 0) as [Hz|Hnz].
    + exists false, this. split; [|split; [|split]].
      * apply Update_not_ready. unfold source_ready. rewrite Ho.
        apply Z.eqb_eq in Hz. rewrite Hz. reflexivity.
      * split; [intros _; right; exists o; split; [reflexivity|exact Hz]
               |reflexivity].
      * intros _ o' ->. split; reflexivity.
      * discriminate.
    + destruct (Update_ready platform this o Ho Hnz)
        as [parsed [Hp [_ HU]]].
      exists true. eexists. split; [exact HU|]. split; [|split].
      * split; [discriminate|].
        intros [H|[o' [H1 H2]]]; [discriminate|].
        injection H1 as <-. contradiction.
      * discriminate.
      * intros _. exists o. cbn [detectedFormat entries stats].
        repeat split; [exact Hp].
  - exists false, this. split; [|split; [|split]].
    + apply Update_not_ready. unfold source_ready. rewrite Ho. reflexivity.
    + split; [intros _; left; reflexivity|reflexivity].
    + intros _ o' ->. split; reflexivity.
    + discriminate.
Qed.

(** C10. A refresh that returns [false] leaves the object as it was:
    records, statistics and detected format are those of the last
    successful refresh. *)
Theorem Update_failure_keeps_state (platform : Platform)
    (this this' : LOGFile) :
  Update platform this = Ret (false, this') ->
  this' = this /\
  entries this' = entries this /\
  stats this' = stats this /\
  detectedFormat this' = detectedFormat this.
Proof.
  intros HU.
  assert (E : this' = this).
  { destruct (source_ready this) eqn:R.
    - unfold source_ready in R. destruct (obj this) as [o|] eqn:Ho;
        [|discriminate].
      apply negb_true_iff, Z.eqb_neq in R.
      destruct (Update_ready platform this o Ho R) as [p [_ [_ HU']]].
      rewrite HU' in HU. discriminate.
    - rewrite (Update_not_ready _ _ R) in HU. injection HU as <-.
      reflexivity. }
  rewrite E. repeat split.
Qed.

Lemma Update_failure_keeps_state_witness :
  List.length (entries emptied_session) = 1%nat /\
  refreshed emptied_session = emptied_session /\
  entries (refreshed emptied_session) = entries emptied_session /\
  stats (refreshed emptied_session) = stats emptied_session /\
  detectedFormat (refreshed emptied_session) = detectedFormat emptied_session.
Proof.
  split; [reflexivity|].
  apply (Update_failure_keeps_state saturating emptied_session).
  reflexivity.
Defined.

End RefreshClaims.

Module Tiling.

Section Scans.

Variable text : Text.
Let len : Z := Len text.
Hypothesis len_uint32 : len < two32.

Lemma inc_pos (pos : Z) : 0 <= pos < len -> add32 pos 1 = pos + 1.
Proof. intros H. apply add32_small. lia. Qed.

Lemma gap_empty (a : Z) : gap text a a.
Proof. intros i H. lia. Qed.

Lemma gap_join (a b c : Z) : gap text a b -> gap text b c -> gap text a c.
Proof.
  intros H1 H2 i Hi. destruct (Z.lt_ge_cases i b); [apply H1|apply H2]; lia.
Qed.

Lemma gap_one (a : Z) : is_blank (at16 text a) = true -> gap text a (a + 1).
Proof. intros H i Hi. replace i with a by lia. exact H. Qed.

(** [skip_blanks] stops inside the text, over blanks only, and, given
    fuel for the characters left, at a character that is no blank. *)
Lemma skip_blanks_spec (fuel : nat) :
  forall pos,
    0 <= pos <= len ->
    len - pos <= Z.of_nat fuel ->
    let r := skip_blanks fuel text len pos in
    pos <= r <= len /\ gap text pos r /\
    (r < len ->
     (at16 text r =? ch " ") || (at16 text r =? ch TAB) = false).
Proof.
  induction fuel as [|fuel IH]; intros pos Hp Hf; cbn [skip_blanks].
  - cbv zeta. split; [lia|]. split; [apply gap_empty|lia].
  - destruct (Z.ltb_spec pos len) as [Hlt|Hge]; cbn [andb].
    + destruct ((at16 text pos =? ch " ") || (at16 text pos =? ch TAB)) eqn:E.
      * rewrite inc_pos by lia.
        destruct (IH (pos + 1) ltac:(lia) ltac:(lia)) as [H1 [H2 H3]].
        cbv zeta. split; [lia|]. split; [|exact H3].
        apply (gap_join pos (pos + 1)); [|exact H2].
        apply gap_one. unfold is_blank. rewrite E. reflexivity.
      * cbv zeta. split; [lia|]. split; [apply gap_empty|intros _; exact E].
    + cbv zeta. split; [lia|]. split; [apply gap_empty|lia].
Qed.

Lemma scan_string_spec (fuel : nat) (quote : char16) :
  forall pos,
    0 <= pos <= len ->
    len - pos <= Z.of_nat fuel ->
    let r := scan_string fuel text len quote pos in
    pos <= r <= len /\
    (r < len ->
     negb (at16 text r =? quote) && negb (at16 text r =? ch LF) &&
     negb (at16 text r =? ch CR) = false).
Proof.
  induction fuel as [|fuel IH]; intros pos Hp Hf; cbn [scan_string].
  - cbv zeta. split; lia.
  - destruct (Z.ltb_spec pos len) as [Hlt|Hge]; cbn [andb].
    + destruct (negb (at16 text pos =? quote) &&
                negb (at16 text pos =? ch LF) &&
                negb (at16 text pos =? ch CR)) eqn:E.
      * rewrite (inc_pos pos) by lia.
        destruct ((at16 text pos =? ch "\") && (pos + 1 <? len)) eqn:Eb.
        -- apply andb_true_iff in Eb. destruct Eb as [_ Eb].
           apply Z.ltb_lt in Eb.
           rewrite inc_pos by lia.
           destruct (IH (pos + 1 + 1) ltac:(lia) ltac:(lia)) as [H1 H2].
           cbv zeta. split; [lia|exact H2].
        -- rewrite inc_pos by lia.
           destruct (IH (pos + 1) ltac:(lia) ltac:(lia)) as [H1 H2].
           cbv zeta. split; [lia|exact H2].
      * cbv zeta. split; [lia|intros _; exact E].
    + cbv zeta. split; lia.
Qed.

Lemma scan_number_spec (fuel : nat) :
  forall st,
    0 <= n_pos st <= len ->
    len - n_pos st <= Z.of_nat fuel ->
    let r := scan_number fuel text len st in
    n_pos st <= n_pos r <= len /\
    (n_pos st < len -> number_char (at16 text (n_pos st)) = true ->
     (0 < fuel)%nat -> n_pos st < n_pos r) /\
    (n_pos r < len -> number_char (at16 text (n_pos r)) = false).
Proof.
  induction fuel as [|fuel IH]; intros st Hp Hf; cbn [scan_number].
  - cbv zeta. repeat split; try lia.
  - destruct (Z.ltb_spec (n_pos st) len) as [Hlt|Hge].
    2:{ cbv zeta. repeat split; lia. }
    unfold number_char.
    destruct ((at16 text (n_pos st) >=? ch "0") &&
              (at16 text (n_pos st) <=? ch "9")) eqn:E1; cbn [orb].
    { rewrite inc_pos by lia.
      match goal with
      | |- context [ scan_number fuel text len ?s ] =>
          destruct (IH s) as [H1 [H2 H3]]; cbn [n_pos] in *; try lia
      end.
      cbv zeta. repeat split; try lia. exact H3. }
    destruct (at16 text (n_pos st) =? ch ".") eqn:E2; cbn [orb].
    { rewrite inc_pos by lia.
      match goal with
      | |- context [ scan_number fuel text len ?s ] =>
          destruct (IH s) as [H1 [H2 H3]]; cbn [n_pos] in *; try lia
      end.
      cbv zeta. repeat split; try lia. exact H3. }
    destruct (at16 text (n_pos st) =? ch ":") eqn:E3; cbn [orb].
    { rewrite inc_pos by lia.
      match goal with
      | |- context [ scan_number fuel text len ?s ] =>
          destruct (IH s) as [H1 [H2 H3]]; cbn [n_pos] in *; try lia
      end.
      cbv zeta. repeat split; try lia. exact H3. }
    destruct (at16 text (n_pos st) =? ch "-") eqn:E4; cbn [orb].
    { rewrite inc_pos by lia.
      match goal with
      | |- context [ scan_number fuel text len ?s ] =>
          destruct (IH s) as [H1 [H2 H3]]; cbn [n_pos] in *; try lia
      end.
      cbv zeta. repeat split; try lia. exact H3. }
    destruct ((at16 text (n_pos st) =? ch "/") ||
              (at16 text (n_pos st) =? ch "T") ||
              (at16 text (n_pos st) =? ch "Z") ||
              (at16 text (n_pos st) =? ch "+")) eqn:E5.
    { rewrite inc_pos by lia.
      match goal with
      | |- context [ scan_number fuel text len ?s ] =>
          destruct (IH s) as [H1 [H2 H3]]; cbn [n_pos] in *; try lia
      end.
      cbv zeta. repeat split; try lia. exact H3. }
    cbv zeta. repeat split; try lia; try discriminate.
Qed.

Lemma scan_word_spec (fuel : nat) :
  forall pos,
    0 <= pos <= len ->
    len - pos <= Z.of_nat fuel ->
    let r := scan_word fuel text len pos in
    pos <= r <= len /\
    (pos < len -> is_word_char (at16 text pos) = true ->
     (0 < fuel)%nat -> pos < r) /\
    (r < len -> is_word_char (at16 text r) = false).
Proof.
  induction fuel as [|fuel IH]; intros pos Hp Hf; cbn [scan_word].
  - cbv zeta. repeat split; lia.
  - destruct (Z.ltb_spec pos len) as [Hlt|Hge].
    2:{ cbv zeta. repeat split; lia. }
    destruct (is_word_char (at16 text pos)) eqn:E.
    + rewrite inc_pos by lia.
      destruct (IH (pos + 1) ltac:(lia) ltac:(lia)) as [H1 [H2 H3]].
      cbv zeta. repeat split; try lia. exact H3.
    + cbv zeta. repeat split; try lia; try discriminate.
      intros _. exact E.
Qed.

Lemma tiled_one (a s e : Z) (type : Z) (color : TokenColor.t) :
  a <= s -> s < e -> gap text a s ->
  tiled text a e [mkToken type s e color].
Proof.
  intros H1 H2 H3. cbn [tiled tokenStart tokenEnd].
  split; [exact H1|]. split; [exact H2|]. split; [exact H3|].
  split; [lia|apply gap_empty].
Qed.

Lemma is_blank_newline (c : char16) :
  (c =? ch LF) || (c =? ch CR) = true -> is_blank c = true.
Proof.
  unfold is_blank. intros H. apply orb_true_iff in H.
  destruct H as [H|H]; rewrite H; rewrite ?orb_true_r; reflexivity.
Qed.

(** One pass through the loop body: at a [continue] the position has
    moved forward, the new tokens (none or one) were appended and they
    tile what was consumed; at the [break] only blanks were left. *)
Lemma analyze_step_spec (pos : Z) (tokens : list Token) :
  0 <= pos < len ->
  match analyze_step text len pos tokens with
  | Continue pos' tokens' =>
      exists new,
        tokens' = tokens ++ new /\ pos < pos' <= len /\
        tiled text pos pos' new
  | Break => gap text pos len
  end.
Proof.
  intros Hp. unfold analyze_step.
  destruct (skip_blanks_spec (Z.to_nat (len - pos)) pos ltac:(lia) ltac:(lia))
    as [Hr [Hgap _]].
  set (r := skip_blanks _ _ _ _) in *.
  destruct (Z.geb_spec r len) as [Hge|Hlt].
  { replace len with r by lia. exact Hgap. }
  set (c := at16 text r).
  (* line endings *)
  destruct ((c =? ch LF) || (c =? ch CR)) eqn:Enl.
  { rewrite (inc_pos r) by lia.
    exists []. rewrite app_nil_r. split; [reflexivity|].
    assert (G1 : gap text pos (r + 1)).
    { apply (gap_join pos r); [exact Hgap|].
      apply gap_one. apply is_blank_newline. exact Enl. }
    destruct (Z.ltb_spec (r + 1) len) as [H1|H1]; cbn [andb].
    - destruct (((c =? ch CR) && (at16 text (r + 1) =? ch LF)) ||
                ((c =? ch LF) && (at16 text (r + 1) =? ch CR))) eqn:Epair.
      + rewrite inc_pos by lia.
        split; [lia|]. cbn [tiled]. split; [lia|].
        apply (gap_join pos (r + 1)); [exact G1|].
        apply gap_one. apply is_blank_newline.
        apply orb_true_iff in Epair.
        destruct Epair as [E|E]; apply andb_true_iff in E; destruct E as [_ E];
          rewrite E; rewrite ?orb_true_r; reflexivity.
      + split; [lia|]. cbn [tiled]. split; [lia|exact G1].
    - split; [lia|]. cbn [tiled]. split; [lia|exact G1]. }
  (* brackets *)
  destruct ((c =? ch "[") || (c =? ch "]") || (c =? ch "(") || (c =? ch ")") ||
            (c =? ch "{") || (c =? ch "}") || (c =? ch "<") || (c =? ch ">")).
  { rewrite (inc_pos r) by lia. unfold Add.
    eexists. split; [reflexivity|]. split; [lia|].
    apply tiled_one; [lia|lia|exact Hgap]. }
  (* quoted strings *)
  destruct ((c =? ch dquote) || (c =? ch squote)).
  { rewrite (inc_pos r) by lia.
    destruct (scan_string_spec (Z.to_nat (len - (r + 1))) c (r + 1)
                ltac:(lia) ltac:(lia)) as [Hs _].
    set (r2 := scan_string _ _ _ _ _) in *.
    unfold Add. eexists. split; [reflexivity|].
    destruct ((r2 <? len) && (at16 text r2 =? c)) eqn:Eq.
    - apply andb_true_iff in Eq. destruct Eq as [Eq _].
      apply Z.ltb_lt in Eq. rewrite inc_pos by lia.
      split; [lia|]. apply tiled_one; [lia|lia|exact Hgap].
    - split; [lia|]. apply tiled_one; [lia|lia|exact Hgap]. }
  (* numbers *)
  destruct ((c >=? ch "0") && (c <=? ch "9")) eqn:Edigit.
  { set (st0 := mkNumberScan r false false false 0 0).
    destruct (scan_number_spec (Z.to_nat (len - r)) st0) as [Hn [Hmove _]];
      cbn [n_pos st0]; try lia.
    cbn [n_pos st0] in Hn, Hmove.
    assert (Hgt : r < n_pos (scan_number (Z.to_nat (len - r)) text len st0)).
    { apply Hmove; [lia| |lia].
      unfold number_char. fold c. rewrite Edigit. reflexivity. }
    set (st := scan_number _ _ _ _) in *.
    destruct (if (dotCount st =? 3) && negb (hasColon st) && negb (hasDash st)
              then (TokenType.IPAddress, TokenColor.Keyword2)
              else if hasDash st || hasColon st
                   then (TokenType.Timestamp, TokenColor.Keyword)
                   else (TokenType.Number, TokenColor.Number))
      as [tokenType tokenColor].
    unfold Add. eexists. split; [reflexivity|]. split; [lia|].
    apply tiled_one; [lia|lia|exact Hgap]. }
  (* words *)
  destruct (((c >=? ch "A") && (c <=? ch "Z")) ||
            ((c >=? ch "a") && (c <=? ch "z")) || (c =? ch "_")) eqn:Eword.
  { destruct (scan_word_spec (Z.to_nat (len - r)) r ltac:(lia) ltac:(lia))
      as [Hw [Hmove _]].
    assert (Hgt : r < scan_word (Z.to_nat (len - r)) text len r).
    { apply Hmove; [lia| |lia].
      unfold is_word_char. fold c.
      apply orb_true_iff in Eword. destruct Eword as [Eword|Eword].
      - apply orb_true_iff in Eword. destruct Eword as [E|E]; rewrite E;
          rewrite ?orb_true_r; reflexivity.
      - rewrite Eword. rewrite ?orb_true_r. reflexivity. }
    set (r2 := scan_word _ _ _ _) in *.
    destruct (classify_word _) as [tokenType tokenColor].
    unfold Add. eexists. split; [reflexivity|]. split; [lia|].
    apply tiled_one; [lia|lia|exact Hgap]. }
  (* any other character *)
  rewrite (inc_pos r) by lia. unfold Add.
  eexists. split; [reflexivity|]. split; [lia|].
  apply tiled_one; [lia|lia|exact Hgap].
Qed.

Lemma tiled_le (tokens : list Token) :
  forall a b, tiled text a b tokens -> a <= b.
Proof.
  induction tokens as [|t tokens IH]; intros a b H; cbn [tiled] in H.
  - lia.
  - destruct H as [H1 [H2 [_ H3]]]. specialize (IH _ _ H3). lia.
Qed.

Lemma tiled_app (t1 t2 : list Token) :
  forall a b c,
    tiled text a b t1 -> tiled text b c t2 -> tiled text a c (t1 ++ t2).
Proof.
  induction t1 as [|t t1 IH]; intros a b c H1 H2; cbn [app].
  - cbn [tiled] in H1. destruct H1 as [Hab Hg].
    destruct t2 as [|u t2]; cbn [tiled] in *.
    + destruct H2 as [Hbc Hg2]. split; [lia|].
      apply (gap_join a b); assumption.
    + destruct H2 as [Hs [He [Hg2 Hr]]].
      split; [lia|]. split; [exact He|]. split; [|exact Hr].
      apply (gap_join a b); assumption.
  - cbn [tiled] in *. destruct H1 as [Hs [He [Hg Hr]]].
    split; [exact Hs|]. split; [exact He|]. split; [exact Hg|].
    apply (IH _ b); assumption.
Qed.

(** The outer loop, given fuel for the characters left, ends normally
    with the tokens it was given followed by a tiling of the rest. *)
Lemma analyze_loop_spec (fuel : nat) :
  forall pos tokens,
    0 <= pos <= len ->
    len - pos < Z.of_nat fuel ->
    exists new,
      analyze_loop fuel text len pos tokens = Ret (tokens ++ new) /\
      tiled text pos len new.
Proof.
  induction fuel as [|fuel IH]; intros pos tokens Hp Hf; [lia|].
  cbn [analyze_loop].
  destruct (Z.ltb_spec pos len) as [Hlt|Hge].
  - pose proof (analyze_step_spec pos tokens ltac:(lia)) as Hstep.
    destruct (analyze_step text len pos tokens) as [pos' tokens'|].
    + destruct Hstep as [n1 [-> [Hpos' Ht1]]].
      destruct (IH pos' (tokens ++ n1) ltac:(lia) ltac:(lia))
        as [n2 [Hrun Ht2]].
      exists (n1 ++ n2). rewrite app_assoc. split; [exact Hrun|].
      apply (tiled_app _ _ pos pos' len); assumption.
    + exists []. rewrite app_nil_r. split; [reflexivity|].
      cbn [tiled]. split; [lia|exact Hstep].
  - exists []. rewrite app_nil_r. split; [reflexivity|].
    cbn [tiled]. split; [lia|]. replace pos with len by lia. apply gap_empty.
Qed.

Lemma tiled_bounds (tokens : list Token) :
  forall a b t,
    tiled text a b tokens -> In t tokens ->
    a <= tokenStart t /\ tokenStart t < tokenEnd t /\ tokenEnd t <= b.
Proof.
  induction tokens as [|u tokens IH]; intros a b t H Hin; [destruct Hin|].
  cbn [tiled] in H. destruct H as [Hs [He [_ Hr]]].
  destruct Hin as [<-|Hin].
  - pose proof (tiled_le _ _ _ Hr). lia.
  - specialize (IH _ _ _ Hr Hin). lia.
Qed.

(** Spans come in order and do not overlap. *)
Lemma tiled_ordered (tokens : list Token) :
  forall a b,
    tiled text a b tokens ->
    ForallOrdPairs (fun t u => tokenEnd t <= tokenStart u) tokens.
Proof.
  induction tokens as [|t tokens IH]; intros a b H; [constructor|].
  cbn [tiled] in H. destruct H as [_ [_ [_ Hr]]].
  constructor; [|apply (IH _ _ Hr)].
  apply Forall_forall. intros u Hu.
  apply (tiled_bounds _ _ _ _ Hr Hu).
Qed.

(** A character that is no blank lies in a span. *)
Lemma tiled_covers (tokens : list Token) :
  forall a b i,
    tiled text a b tokens ->
    a <= i < b ->
    is_blank (at16 text i) = false ->
    exists t, In t tokens /\ covers t i.
Proof.
  induction tokens as [|t tokens IH]; intros a b i H Hi Hnb; cbn [tiled] in H.
  - destruct H as [_ Hg]. rewrite (Hg i Hi) in Hnb. discriminate.
  - destruct H as [Hs [He [Hg Hr]]].
    destruct (Z.lt_ge_cases i (tokenStart t)) as [H1|H1].
    { rewrite (Hg i ltac:(lia)) in Hnb. discriminate. }
    destruct (Z.lt_ge_cases i (tokenEnd t)) as [H2|H2].
    { exists t. split; [left; reflexivity|]. unfold covers. lia. }
    destruct (IH _ _ i Hr ltac:(lia) Hnb) as [u [Hu Hc]].
    exists u. split; [right; exact Hu|exact Hc].
Qed.

(** No character lies in two spans. *)
Lemma tiled_disjoint (tokens : list Token) :
  forall a b i t u,
    tiled text a b tokens ->
    In t tokens -> In u tokens -> covers t i -> covers u i -> u = t.
Proof.
  induction tokens as [|v tokens IH]; intros a b i t u H Ht Hu Ct Cu;
    [destruct Ht|].
  cbn [tiled] in H. destruct H as [_ [_ [_ Hr]]].
  unfold covers in *.
  destruct Ht as [<-|Ht]; destruct Hu as [<-|Hu].
  - reflexivity.
  - pose proof (tiled_bounds _ _ _ _ Hr Hu). lia.
  - pose proof (tiled_bounds _ _ _ _ Hr Ht). lia.
  - apply (IH _ _ i t u Hr Ht Hu Ct Cu).
Qed.

Lemma firstn_plus (A : Type) (n k : nat) (l : list A) :
  firstn n l ++ firstn k (skipn n l) = firstn (n + k) l.
Proof.
  revert l. induction n as [|n IH]; intros l; [reflexivity|].
  destruct l as [|x l]; cbn [firstn skipn app Nat.add].
  - rewrite firstn_nil. reflexivity.
  - rewrite IH. reflexivity.
Qed.

Lemma slice_join (a m b : Z) :
  0 <= a <= m -> m <= b ->
  slice text a m ++ slice text m b = slice text a b.
Proof.
  intros H1 H2. unfold slice.
  replace (Z.to_nat m) with (Z.to_nat (m - a) + Z.to_nat a)%nat by lia.
  rewrite <- skipn_skipn. rewrite firstn_plus. f_equal. lia.
Qed.

Lemma slice_all : slice text 0 len = text.
Proof.
  unfold slice, len, Len. cbn [Z.to_nat skipn].
  rewrite Z.sub_0_r, Nat2Z.id. apply firstn_all.
Qed.

Lemma slice_gap (a b : Z) :
  0 <= a -> gap text a b -> forallb is_blank (slice text a b) = true.
Proof.
  intros Ha Hg. apply forallb_forall. intros x Hx.
  destruct (In_nth _ _ 0 Hx) as [k [Hk Hn]].
  unfold slice in Hk, Hn.
  rewrite length_firstn in Hk.
  rewrite nth_firstn in Hn.
  destruct (Nat.ltb_spec k (Z.to_nat (b - a))) as [Hlt|Hge]; [|lia].
  rewrite nth_skipn in Hn. rewrite <- Hn.
  specialize (Hg (a + Z.of_nat k) ltac:(lia)).
  unfold at16 in Hg.
  replace (Z.to_nat (a + Z.of_nat k)) with (Z.to_nat a + k)%nat in Hg by lia.
  exact Hg.
Qed.

(** The runs, put together again, are the text between [a] and [b]. *)
Lemma runs_concat (tokens : list Token) :
  forall a b,
    0 <= a -> tiled text a b tokens ->
    List.concat (map snd (runs text a b tokens)) = slice text a b.
Proof.
  induction tokens as [|t tokens IH]; intros a b Ha H;
    cbn [runs map snd List.concat].
  - apply app_nil_r.
  - cbn [tiled] in H. destruct H as [Hs [He [_ Hr]]].
    pose proof (tiled_le _ _ _ Hr) as Hb.
    rewrite (IH (tokenEnd t) b ltac:(lia) Hr).
    rewrite (slice_join (tokenStart t)) by lia.
    apply slice_join; lia.
Qed.

(** The skipped runs hold blanks only. *)
Lemma runs_skipped_blank (tokens : list Token) :
  forall a b,
    0 <= a -> tiled text a b tokens ->
    Forall (fun run => fst run = false -> forallb is_blank (snd run) = true)
      (runs text a b tokens).
Proof.
  induction tokens as [|t tokens IH]; intros a b Ha H; cbn [runs tiled] in *.
  - constructor; [|constructor]. intros _. cbn [snd].
    apply slice_gap; [exact Ha|apply H].
  - destruct H as [Hs [He [Hg Hr]]].
    constructor; [intros _; apply slice_gap; assumption|].
    constructor; [discriminate|].
    apply IH; [lia|exact Hr].
Qed.

End Scans.

(** C7. On every text [AnalyzeText] ends normally; its spans are not
    empty, come in non-decreasing offset order and do not overlap; the
    skipped runs hold only spaces, tabs and line endings; the skipped runs
    and the span extents, put together in order, are the text itself; and
    every character that is no space, tab or line ending lies in exactly
    one span. *)
Theorem AnalyzeText_tiles (text : Text) :
  Len text < two32 ->
  exists tokens,
    AnalyzeText text [] = Ret tokens /\
    tiled text 0 (Len text) tokens /\
    ForallOrdPairs (fun t u => tokenEnd t <= tokenStart u) tokens /\
    Forall (fun t => 0 <= tokenStart t < tokenEnd t /\ tokenEnd t <= Len text)
      tokens /\
    List.concat (map snd (runs text 0 (Len text) tokens)) = text /\
    Forall (fun run => fst run = false -> forallb is_blank (snd run) = true)
      (runs text 0 (Len text) tokens) /\
    (forall i,
        0 <= i < Len text ->
        is_blank (at16 text i) = false ->
        exists t,
          In t tokens /\ covers t i /\
          forall u, In u tokens -> covers u i -> u = t).
Proof.
  intros H32.
  assert (Hlen : 0 <= Len text) by (unfold Len; lia).
  destruct (analyze_loop_spec text H32 (S (List.length text)) 0 [])
    as [tokens [Hrun Ht]]; [lia|unfold Len; lia|].
  cbn [app] in Hrun.
  exists tokens. split; [exact Hrun|]. split; [exact Ht|].
  split; [apply (tiled_ordered text _ _ _ Ht)|].
  split.
  { apply Forall_forall. intros t Hin.
    pose proof (tiled_bounds text _ _ _ t Ht Hin). lia. }
  split.
  { rewrite (runs_concat text tokens 0 (Len text) ltac:(lia) Ht).
    apply slice_all. }
  split; [apply (runs_skipped_blank text tokens 0 (Len text) ltac:(lia) Ht)|].
  intros i Hi Hnb.
  destruct (tiled_covers text _ _ _ i Ht Hi Hnb) as [t [Hin Hc]].
  exists t. split; [exact Hin|]. split; [exact Hc|].
  intros u Hu Hcu. apply (tiled_disjoint text _ _ _ i t u Ht Hin Hu Hc Hcu).
Qed.

End Tiling.

(** ** Word runs *)

Module WordRuns.

Lemma is_word_start_range (c : char16) :
  is_word_start c = true -> 65 <= c <= 90 \/ 97 <= c <= 122 \/ c = 95.
Proof.
  unfold is_word_start.
  change (ch "A") with 65. change (ch "Z") with 90.
  change (ch "a") with 97. change (ch "z") with 122.
  change (ch "_") with 95.
  rewrite !orb_true_iff, !andb_true_iff, !Z.geb_le, !Z.leb_le, Z.eqb_eq.
  tauto.
Qed.

(** The pass of the loop body at the first character of a word run: one
    token from that character to the end of the run, its type and colour
    those of the keyword chain on the upper-cased run. *)
Lemma analyze_step_word (text : Text) (pos : Z) (tokens : list Token) :
  0 <= pos < Len text ->
  is_word_start (at16 text pos) = true ->
  analyze_step text (Len text) pos tokens =
  let stop := scan_word (Z.to_nat (Len text - pos)) text (Len text) pos in
  let kind :=
    classify_word (upper_word (extract_word text (Len text) pos stop)) in
  Continue stop (tokens ++ [mkToken (fst kind) pos stop (snd kind)]).
Proof.
  intros Hp Hw. pose proof (is_word_start_range _ Hw) as Hc.
  unfold analyze_step.
  assert (Hskip : skip_blanks (Z.to_nat (Len text - pos)) text (Len text) pos
                  = pos).
  { destruct (Z.to_nat (Len text - pos)) as [|fuel] eqn:E; [reflexivity|].
    cbn [skip_blanks].
    change (ch " ") with 32. change (ch TAB) with 9.
    destruct (Z.eqb_spec (at16 text pos) 32); [lia|].
    destruct (Z.eqb_spec (at16 text pos) 9); [lia|].
    rewrite andb_false_r. reflexivity. }
  rewrite Hskip. cbv zeta.
  destruct (Z.geb_spec pos (Len text)) as [H|_]; [lia|].
  unfold is_word_start in Hw. rewrite Hw.
  change (ch LF) with 10. change (ch CR) with 13.
  change (ch "[") with 91. change (ch "]") with 93.
  change (ch "(") with 40. change (ch ")") with 41.
  change (ch "{") with 123. change (ch "}") with 125.
  change (ch "<") with 60. change (ch ">") with 62.
  change (ch dquote) with 34. change (ch squote) with 39.
  change (ch "0") with 48. change (ch "9") with 57.
  set (c := at16 text pos) in *.
  destruct (Z.eqb_spec c 10); [lia|]. destruct (Z.eqb_spec c 13); [lia|].
  destruct (Z.eqb_spec c 91); [lia|]. destruct (Z.eqb_spec c 93); [lia|].
  destruct (Z.eqb_spec c 40); [lia|]. destruct (Z.eqb_spec c 41); [lia|].
  destruct (Z.eqb_spec c 123); [lia|]. destruct (Z.eqb_spec c 125); [lia|].
  destruct (Z.eqb_spec c 60); [lia|]. destruct (Z.eqb_spec c 62); [lia|].
  destruct (Z.eqb_spec c 34); [lia|]. destruct (Z.eqb_spec c 39); [lia|].
  cbn [orb].
  destruct (Z.geb_spec c 48) as [H48|H48];
    destruct (Z.leb_spec c 57) as [H57|H57]; try lia; cbn [andb];
    destruct (classify_word _) as [tokenType tokenColor];
    reflexivity.
Qed.

(** One comparison of the chain: equal, the chain stops there. *)
Ltac level_word w k :=
  destruct (str_eqb w k); cbn [orb fst In];
  [solve [split; [intros _; tauto|split; discriminate]]|].

Ltac http_word w k :=
  destruct (str_eqb w k); cbn [orb];
  [solve [split; [reflexivity|discriminate]]|].

(** The keyword chain: a level word gets its level token whatever comes
    after; an HTTP word gets [HTTPMethod]; any other run is [Message]. *)
Lemma classify_word_chain (wordUpper : string_view) :
  (existsb (str_eqb wordUpper) level_words = true ->
   In (fst (classify_word wordUpper))
     [TokenType.LevelError; TokenType.LevelWarning; TokenType.LevelInfo;
      TokenType.LevelDebug]) /\
  (existsb (str_eqb wordUpper) level_words = false ->
   existsb (str_eqb wordUpper) http_words = true ->
   classify_word wordUpper = (TokenType.HTTPMethod, TokenColor.Keyword2)) /\
  (existsb (str_eqb wordUpper) level_words = false ->
   existsb (str_eqb wordUpper) http_words = false ->
   classify_word wordUpper = (TokenType.Message, TokenColor.Word)).
Proof.
  unfold classify_word, level_words, http_words. cbn [existsb].
  level_word wordUpper (lit "ERROR"). level_word wordUpper (lit "ERR").
  level_word wordUpper (lit "ERRO"). level_word wordUpper (lit "WARN").
  level_word wordUpper (lit "WARNING"). level_word wordUpper (lit "WRN").
  level_word wordUpper (lit "INFO"). level_word wordUpper (lit "INF").
  level_word wordUpper (lit "INFORMATION"). level_word wordUpper (lit "DEBUG").
  level_word wordUpper (lit "DBG"). level_word wordUpper (lit "DEBU").
  level_word wordUpper (lit "TRACE"). level_word wordUpper (lit "TRC").
  level_word wordUpper (lit "FATAL"). level_word wordUpper (lit "FTL").
  level_word wordUpper (lit "CRITICAL"). level_word wordUpper (lit "CRIT").
  split; [discriminate|].
  http_word wordUpper (lit "GET"). http_word wordUpper (lit "POST").
  http_word wordUpper (lit "PUT"). http_word wordUpper (lit "DELETE").
  http_word wordUpper (lit "PATCH"). http_word wordUpper (lit "HEAD").
  http_word wordUpper (lit "OPTIONS"). http_word wordUpper (lit "CONNECT").
  http_word wordUpper (lit "HTTP").
  split; [discriminate|reflexivity].
Qed.

End WordRuns.

(** ** The syslog line body against its reference definition *)

Module SyslogReference.

Lemma skipn_cons_inv (A : Type) (k : nat) (s0 s : list A) (c : A) :
  skipn k s0 = c :: s -> skipn (S k) s0 = s.
Proof.
  revert s0. induction k as [|k IH]; intros s0 H.
  - cbn [skipn] in H. rewrite H. reflexivity.
  - destruct s0 as [|x s0]; [discriminate|]. cbn [skipn] in H.
    cbn [skipn]. apply IH. exact H.
Qed.

(** [find_at] walks the offsets in increasing order. *)
Lemma find_at_first_occurrence (p s0 : string_view) :
  forall (s : string_view) (k : nat),
    skipn k s0 = s ->
    find_at s p (Z.of_nat k) =
    match List.find (occurs_at p s0) (seq k (List.length s + 1)) with
    | Some j => Z.of_nat j
    | None => npos
    end.
Proof.
  induction s as [|c s IH]; intros k Hk.
  - cbn [find_at List.length Nat.add seq List.find]. unfold occurs_at.
    rewrite Hk. destruct (starts_with [] p); reflexivity.
  - cbn [find_at List.length Nat.add seq List.find]. unfold occurs_at at 1.
    rewrite Hk. destruct (starts_with (c :: s) p); [reflexivity|].
    replace (Z.of_nat k + 1) with (Z.of_nat (S k)) by lia.
    apply IH. apply (skipn_cons_inv _ _ _ _ _ Hk).
Qed.

Lemma find_first_occurrence (p s : string_view) :
  find s p 0 =
  match first_occurrence_from p s 0 with
  | Some j => Z.of_nat j
  | None => npos
  end.
Proof.
  unfold find, first_occurrence_from.
  pose proof (size_nonneg s) as Hn.
  destruct (size s <? 0) eqn:E; [apply Z.ltb_lt in E; lia|].
  change (Z.to_nat 0) with 0%nat. cbn [skipn].
  rewrite Nat.sub_0_r.
  apply (find_at_first_occurrence p s s 0%nat). reflexivity.
Qed.

Lemma first_occurrence_bound (p s : string_view) (from j : nat) :
  first_occurrence_from p s from = Some j ->
  (from <= j <= List.length s)%nat /\ occurs_at p s j = true.
Proof.
  unfold first_occurrence_from. intros H.
  apply find_some in H. destruct H as [Hin Ho].
  apply in_seq in Hin. split; [lia|exact Ho].
Qed.

Lemma existsb_find (A : Type) (f : A -> bool) (l : list A) :
  existsb f l = match List.find f l with Some _ => true | None => false end.
Proof.
  induction l as [|x l IH]; [reflexivity|].
  cbn [existsb List.find]. destruct (f x); [reflexivity|exact IH].
Qed.

Lemma contains_occurs (s p : string_view) :
  size s < npos ->
  contains s p = existsb (occurs_at p s) (seq 0 (List.length s + 1)).
Proof.
  intros Hs. unfold contains. rewrite find_first_occurrence.
  rewrite existsb_find.
  destruct (first_occurrence_from p s 0) as [j|] eqn:E.
  - pose proof (first_occurrence_bound _ _ _ _ E) as [Hj _].
    unfold first_occurrence_from in E. rewrite Nat.sub_0_r in E.
    rewrite E.
    destruct (Z.eqb_spec (Z.of_nat j) npos) as [H|H]; [|reflexivity].
    unfold size in Hs. lia.
  - unfold first_occurrence_from in E. rewrite Nat.sub_0_r in E.
    rewrite E. reflexivity.
Qed.

Lemma contains_upper_nocase (s keyword : string_view) :
  size s < npos ->
  contains (to_upper s) keyword = contains_nocase s keyword.
Proof.
  intros Hs. unfold contains_nocase.
  rewrite contains_occurs.
  - unfold to_upper. rewrite length_map. reflexivity.
  - unfold size, to_upper in *. rewrite length_map. exact Hs.
Qed.

Lemma find_at_space (s : string_view) :
  forall i,
    (find_at s [" "%char] i = npos /\ after_first_space s = []) \/
    (exists j, find_at s [" "%char] i = i + Z.of_nat j /\
               (j < List.length s)%nat /\
               skipn (S j) s = after_first_space s).
Proof.
  induction s as [|c s IH]; intros i.
  - left. split; reflexivity.
  - cbn [find_at starts_with after_first_space].
    rewrite (Ascii.eqb_sym " " c).
    destruct (Ascii.eqb c " "); cbn [andb].
    + right. exists 0%nat. cbn [List.length skipn].
      split; [lia|split; [lia|reflexivity]].
    + destruct (IH (i + 1)) as [[H1 H2]|[j [H1 [H2 H3]]]].
      * left. split; assumption.
      * right. exists (S j). cbn [List.length].
        split; [lia|]. split; [lia|]. exact H3.
Qed.

Lemma syslog_level (e : LogEntry) :
  size (message e) < npos ->
  (if contains (to_upper (message e)) (lit "ERROR") ||
      contains (to_upper (message e)) (lit "FAIL")
   then set_level e LogLevel.Error
   else if contains (to_upper (message e)) (lit "WARN")
   then set_level e LogLevel.Warning
   else if contains (to_upper (message e)) (lit "DEBUG")
   then set_level e LogLevel.Debug
   else set_level e LogLevel.Info) =
  set_level e (reference_level (message e)).
Proof.
  intros H. rewrite !(contains_upper_nocase _ _ H). unfold reference_level.
  destruct (_ || _); [reflexivity|].
  destruct (contains_nocase _ (lit "WARN")); [reflexivity|].
  destruct (contains_nocase _ (lit "DEBUG")); reflexivity.
Qed.

Lemma syslog_timestamp (line : string_view) (e : LogEntry) :
  timestamp e = [] ->
  (if size line >=? 15
   then ts <- substr line 0 15 ;; Ret (set_timestamp e ts)
   else Ret e) = Ret (set_timestamp e (reference_timestamp line)).
Proof.
  intros He. unfold reference_timestamp.
  pose proof (size_nonneg line) as Hn.
  destruct (Z.geb_spec (size line) 15) as [H|H].
  - rewrite substr_ok by lia. cbn [bind].
    rewrite Z.min_l by lia. change (Z.to_nat 0) with 0%nat.
    change (Z.to_nat 15) with 15%nat. cbn [skipn].
    destruct (Nat.leb_spec 15 (List.length line)) as [H'|H'];
      [reflexivity|unfold size in H; lia].
  - destruct (Nat.leb_spec 15 (List.length line)) as [H'|H'];
      [unfold size in H; lia|].
    destruct e. cbn in He. subst. reflexivity.
Qed.

(** The line body computes the record of the first colon-space. *)
Lemma syslog_line_first_colon (line : string_view)
    (lineStart lineEnd lineNum : Z) :
  size line < npos ->
  syslog_line line (new_entry lineStart lineEnd lineNum) =
  Ret (record_of_first_colon line lineStart lineEnd lineNum).
Proof.
  intros Hs. unfold syslog_line, record_of_first_colon.
  rewrite syslog_timestamp by reflexivity. cbn [bind].
  rewrite find_first_occurrence.
  destruct (first_occurrence_from (lit ": ") line 0) as [k|] eqn:Ek.
  2:{ change (npos =? npos) with true. cbn [negb andb bind].
      rewrite syslog_level by (entry_simpl; exact Hs). reflexivity. }
  apply first_occurrence_bound in Ek. destruct Ek as [Hk Ho].
  unfold occurs_at in Ho. apply starts_with_size in Ho.
  change (size (lit ": ")) with 2 in Ho.
  unfold size in Hs, Ho. rewrite length_skipn in Ho.
  destruct (Z.eqb_spec (Z.of_nat k) npos) as [E|_]; [lia|]. cbn [negb andb].
  destruct (Nat.ltb_spec 15 k) as [H15|H15].
  2:{ destruct (Z.gtb_spec (Z.of_nat k) 15) as [H|_]; [lia|]. cbn [bind].
      rewrite syslog_level by (entry_simpl; unfold size; exact Hs).
      reflexivity. }
  destruct (Z.gtb_spec (Z.of_nat k) 15) as [_|H]; [|lia].
  rewrite substr_ok by (unfold size; lia). cbn [bind].
  rewrite sub64_small by (unfold two64, npos in *; lia).
  rewrite Z.min_l by (unfold size; lia).
  replace (Z.to_nat (Z.of_nat k - 16)) with (k - 16)%nat by lia.
  change (Z.to_nat 16) with 16%nat.
  set (sourcePart := firstn (k - 16) (skipn 16 line)).
  rewrite (add64_small (Z.of_nat k) 2) by (unfold two64, npos in *; lia).
  assert (Hmsg : substr line (Z.of_nat k + 2) npos = Ret (skipn (k + 2) line)).
  { rewrite substr_ok by (unfold size; lia).
    rewrite Z.min_r by (unfold size, npos in *; lia).
    replace (Z.to_nat (Z.of_nat k + 2)) with (k + 2)%nat by lia.
    f_equal. apply firstn_all2. unfold size. rewrite length_skipn. lia. }
  assert (Hsp : size sourcePart < npos).
  { unfold size, sourcePart. rewrite length_firstn, length_skipn. lia. }
  unfold find_char, find.
  pose proof (size_nonneg sourcePart) as Hn.
  destruct (size sourcePart <? 0) eqn:E0; [apply Z.ltb_lt in E0; lia|].
  change (Z.to_nat 0) with 0%nat. cbn [skipn].
  destruct (find_at_space sourcePart 0) as [[H1 H2]|[j [H1 [H2 H3]]]].
  - rewrite H1. change (npos =? npos) with true. cbn [negb bind].
    rewrite Hmsg. cbn [bind].
    rewrite syslog_level.
    + unfold located_record. fold sourcePart. rewrite H2. reflexivity.
    + entry_simpl. unfold size. rewrite length_skipn. lia.
  - rewrite H1.
    destruct (Z.eqb_spec (0 + Z.of_nat j) npos) as [E|_];
      [unfold size in Hsp; lia|]. cbn [negb].
    rewrite add64_small by (unfold two64, npos, size in *; lia).
    rewrite substr_ok by (unfold size; lia). cbn [bind].
    rewrite Z.min_r by (unfold size, npos in *; lia).
    replace (Z.to_nat (0 + Z.of_nat j + 1)) with (S j) by lia.
    rewrite firstn_all2 by (unfold size; rewrite length_skipn; lia).
    rewrite H3. rewrite Hmsg. cbn [bind].
    rewrite syslog_level.
    + unfold located_record. fold sourcePart. reflexivity.
    + entry_simpl. unfold size. rewrite length_skipn. lia.
Qed.

Lemma find_skip_false (A : Type) (f : A -> bool) (l1 l2 : list A) :
  forallb (fun x => negb (f x)) l1 = true ->
  List.find f (l1 ++ l2) = List.find f l2.
Proof.
  induction l1 as [|x l1 IH]; intros H; [reflexivity|].
  cbn [forallb] in H. apply andb_true_iff in H. destruct H as [Hx H].
  cbn [app List.find]. apply negb_true_iff in Hx. rewrite Hx.
  apply IH. exact H.
Qed.

Lemma find_all_false (A : Type) (f : A -> bool) (l : list A) :
  forallb (fun x => negb (f x)) l = true -> List.find f l = None.
Proof.
  intros H. rewrite <- (app_nil_r l). rewrite find_skip_false by exact H.
  reflexivity.
Qed.

(** Without a colon-space at the offsets 0 to 15, the first colon-space
    of the line is the first one from offset 16 on. *)
Lemma first_occurrence_late (p s : string_view) :
  forallb (fun j => negb (occurs_at p s j)) (seq 0 16) = true ->
  first_occurrence_from p s 0 = first_occurrence_from p s 16.
Proof.
  intros H. unfold first_occurrence_from. rewrite Nat.sub_0_r.
  destruct (Nat.le_gt_cases 16 (List.length s + 1)) as [Hl|Hl].
  - replace (List.length s + 1)%nat
      with (16 + (List.length s + 1 - 16))%nat at 1 by lia.
    rewrite seq_app. apply find_skip_false. exact H.
  - replace (List.length s + 1 - 16)%nat with 0%nat by lia.
    cbn [seq List.find]. apply find_all_false.
    replace 16%nat
      with ((List.length s + 1) + (16 - (List.length s + 1)))%nat in H by lia.
    rewrite seq_app, forallb_app in H.
    apply andb_true_iff in H. apply H.
Qed.

(** C6, amended. For a line, the syslog body yields the record of the
    reference definition in which the colon-space located is the first
    one of the line, and only when its offset is greater than 15:
    timestamp the first 15 characters (empty below 15 characters), source
    the text after the first space between offset 16 and the colon,
    message the text after the colon-space, or else the whole line as
    message and an empty source; the level from the message, ignoring
    case, ERROR or FAIL before WARN before DEBUG, else Info.  For a line
    without a colon-space at the offsets 0 to 15 this is the record of
    the reference definition as claimed. *)
Theorem syslog_line_reference (line : string_view)
    (lineStart lineEnd lineNum : Z) :
  size line < npos ->
  syslog_line line (new_entry lineStart lineEnd lineNum) =
    Ret (record_of_first_colon line lineStart lineEnd lineNum) /\
  (forallb (fun j => negb (occurs_at (lit ": ") line j)) (seq 0 16) = true ->
   record_of_first_colon line lineStart lineEnd lineNum =
   record_as_claimed line lineStart lineEnd lineNum).
Proof.
  intros Hs. split; [apply syslog_line_first_colon; exact Hs|].
  intros H. unfold record_of_first_colon, record_as_claimed.
  rewrite (first_occurrence_late _ _ H).
  destruct (first_occurrence_from (lit ": ") line 16) as [k|] eqn:E;
    [|reflexivity].
  apply first_occurrence_bound in E. destruct E as [Hk _].
  destruct (Nat.ltb_spec 15 k); [reflexivity|lia].
Qed.

Lemma syslog_line_reference_witness :
  syslog_line usual_syslog_line (new_entry 0 44 1) =
    Ret (record_of_first_colon usual_syslog_line 0 44 1) /\
  (forallb (fun j => negb (occurs_at (lit ": ") usual_syslog_line j))
     (seq 0 16) = true ->
   record_of_first_colon usual_syslog_line 0 44 1 =
   record_as_claimed usual_syslog_line 0 44 1).
Proof.
  apply (syslog_line_reference usual_syslog_line 0 44 1). reflexivity.
Defined.

(** The line [two_colons] has its first colon-space at offset 1 and
    another at offset 20: the code keeps the whole line as message, the
    reference definition as claimed takes the text after offset 20. *)
Lemma two_colons_differ :
  syslog_line two_colons (new_entry 0 25 1) <>
  Ret (record_as_claimed two_colons 0 25 1).
Proof. vm_compute. discriminate. Qed.

End SyslogReference.

(** ** The status and severity of an access-log line *)

Module AccessStatus.

Import ParserTotality.




Lemma find_at_char_skip (c : ascii) (s1 s2 : string_view) :
  forall i,
    ~ In c s1 ->
    find_at (s1 ++ c :: s2) [c] i = i + Z.of_nat (List.length s1).
Proof.
  induction s1 as [|d s1 IH]; intros i Hn.
  - cbn [app find_at starts_with List.length]. rewrite Ascii.eqb_refl.
    cbn [andb]. lia.
  - cbn [app find_at starts_with List.length].
    destruct (Ascii.eqb_spec c d) as [E|E].
    + exfalso. apply Hn. left. symmetry. exact E.
    + cbn [andb]. rewrite IH; [lia|].
      intros H. apply Hn. right. exact H.
Qed.


Lemma apache_line_steps (platform : Platform) (behind line : string_view)
    (entry : LogEntry) :
  apache_line platform behind line entry =
  let ipEnd := find_char line " " 0 in
  if negb (ipEnd =? npos) then
    ip <- substr line 0 ipEnd ;;
    entry <- timestamp_step line (set_ipAddress entry ip) ;;
    entry <- request_step platform behind line entry ;;
    Ret (set_message entry line)
  else Ret entry.
Proof. reflexivity. Qed.











Lemma mem_not_In (c : ascii) (s : string_view) :
  mem c s = false -> ~ In c s.
Proof.
  unfold mem. intros H Hin.
  assert (Ht : existsb (Ascii.eqb c) s = true).
  { apply existsb_exists. exists c. split; [exact Hin|apply Ascii.eqb_refl]. }
  congruence.
Qed.


(** A view that ends within the status: the digit behind it is read with
    those of the line, 503 and not 50. *)
Lemma status_read_behind_the_line :
  exists e,
    apache_line saturating (lit "3" ++ [LF]) status_cut_short
      (new_entry 0 14 1) = Ret e /\
    httpStatus e = 503 /\ level e = LogLevel.Error.
Proof. eexists. split; [vm_compute; reflexivity|]. split; reflexivity. Qed.


End AccessStatus.

Module Scenarios.
Import ParserTotality LineLoop AccessStatus.

(** C4. Scenario A: the line is detected as [Apache], and the refresh
    yields one record with the address, timestamp, method, URL, status
    200 and severity [Info] of the line. *)
Theorem scenario_A_record (platform : Platform) :
  DetectLogFormat scenario_A = LogFormat.Apache /\
  exists this' e,
    Update platform (session scenario_A) = Ret (true, this') /\
    detectedFormat this' = LogFormat.Apache /\
    entries this' = [e] /\
    ipAddress e = lit "127.0.0.1" /\
    timestamp e = lit "10/Oct/2023:13:55:36 +0000" /\
    httpMethod e = lit "GET" /\
    url e = lit "/index.html" /\
    httpStatus e = 200 /\
    level e = LogLevel.Info.
Proof.
  split; [vm_compute; reflexivity|].
  eexists. eexists. split; [vm_compute; reflexivity|].
  repeat split.
Qed.

Lemma find_at_char_absent (c : ascii) (s : string_view) :
  forall i, ~ In c s -> find_at s [c] i = npos.
Proof.
  induction s as [|d s IH]; intros i Hn; [reflexivity|].
  cbn [find_at starts_with].
  destruct (Ascii.eqb_spec c d) as [E|E].
  - exfalso. apply Hn. left. symmetry. exact E.
  - cbn [andb]. apply IH. intros H. apply Hn. right. exact H.
Qed.

(** The fallback and generic bodies keep a message for every line. *)
Lemma generic_line_message (line : string_view) (entry e : LogEntry) :
  generic_line line entry = Ret e -> message e = line.
Proof.
  unfold generic_line. intros H.
  match type of H with
  | bind ?m _ = _ => destruct m as [e1| |] eqn:E1; try discriminate
  end.
  cbn [bind] in H.
  assert (Hm : message e1 = line).
  { destruct (Ascii.eqb (at_ line 0) "[").
    - destruct (negb _).
      + destruct (substr line 1 _); try discriminate.
        cbn [bind] in E1. injection E1 as <-. reflexivity.
      + injection E1 as <-. reflexivity.
    - destruct (_ && _ && _).
      + destruct (substr line 0 _); try discriminate.
        cbn [bind] in E1. injection E1 as <-. reflexivity.
      + injection E1 as <-. reflexivity. }
  injection H as <-.
  repeat match goal with
         | |- context [ if ?c then _ else _ ] => destruct c
         end; exact Hm.
Qed.

Lemma log4j_line_message (line : string_view) (entry e : LogEntry) :
  log4j_line line entry = Ret e -> line <> [] -> message e <> [].
Proof.
  unfold log4j_line. intros H Hne.
  match type of H with
  | bind ?m _ = _ => destruct m as [[t e1]| |]; try discriminate
  end.
  cbn [bind] in H.
  match type of H with
  | bind ?m _ = _ => destruct m as [remaining| |]; try discriminate
  end.
  cbn [bind] in H.
  destruct (log4j_find_level _ _ _) as [e2| |]; try discriminate.
  cbn [bind] in H. injection H as <-.
  destruct (empty (message e2)) eqn:E.
  - destruct e2. cbn. exact Hne.
  - intros Hm. rewrite Hm in E. discriminate.
Qed.

(** A line with a space gets the whole line as message. *)
Lemma apache_line_message (platform : Platform) (behind line : string_view)
    (entry e : LogEntry) :
  find_char line " " 0 <> npos ->
  apache_line platform behind line entry = Ret e ->
  message e = line.
Proof.
  intros Hsp H. rewrite apache_line_steps in H. cbv zeta in H.
  apply Z.eqb_neq in Hsp. rewrite Hsp in H. cbn [negb] in H.
  destruct (substr line 0 _) as [ip| |]; try discriminate. cbn [bind] in H.
  destruct (timestamp_step line _) as [e1| |]; try discriminate.
  cbn [bind] in H.
  destruct (request_step platform behind line e1) as [e2| |];
    try discriminate.
  cbn [bind] in H. injection H as <-. reflexivity.
Qed.

(** Every record of the generic and of the structured-framework parser
    has a message. *)
Lemma ParseGenericLog_messages (content : string_view) (r : list LogEntry) :
  ParseGenericLog content [] = Ret r ->
  Forall (fun e => message e <> []) r.
Proof.
  unfold ParseGenericLog, parse_content. intros H.
  refine (parse_lines_entries generic_line (fun e => message e <> [])
            _ _ _ _ _ _ _ H _).
  - intros line ls le ln e Hne Hb. cbv beta.
    rewrite (generic_line_message _ _ _ Hb). exact Hne.
  - constructor.
Qed.

Lemma ParseLog4j_messages (content : string_view) (r : list LogEntry) :
  ParseLog4j content [] = Ret r ->
  Forall (fun e => message e <> []) r.
Proof.
  unfold ParseLog4j, parse_content. intros H.
  refine (parse_lines_entries log4j_line (fun e => message e <> [])
            _ _ _ _ _ _ _ H _).
  - intros line ls le ln e Hne Hb. exact (log4j_line_message _ _ _ Hb Hne).
  - constructor.
Qed.

(** C1, on the code: [apache_line] leaves a line without a space as the
    entry was constructed, so the second line of [access_then_word], which
    is not empty, yields a record whose message is empty. *)
Theorem apache_line_without_space (platform : Platform) :
  (forall behind line entry,
      ~ In " "%char line ->
      apache_line platform behind line entry = Ret entry) /\
  exists this' e1 e2,
    Update platform (session access_then_word) = Ret (true, this') /\
    detectedFormat this' = LogFormat.Apache /\
    entries this' = [e1; e2] /\
    lineNumber e2 = 2 /\
    message e2 = [].
Proof.
  split.
  - intros behind line entry Hn. unfold apache_line, find_char, find.
    pose proof (size_nonneg line).
    destruct (size line <? 0) eqn:E; [apply Z.ltb_lt in E; lia|].
    change (Z.to_nat 0) with 0%nat. cbn [skipn].
    rewrite find_at_char_absent by exact Hn. reflexivity.
  - eexists. eexists. eexists. split; [vm_compute; reflexivity|].
    repeat split.
Qed.

(** The same gap in [syslog_line]: the text after a trailing colon-space
    is empty and becomes the message. *)
Lemma syslog_line_bare_colon :
  exists e,
    syslog_line syslog_bare_colon (new_entry 0 27 1) = Ret e /\
    message e = [].
Proof. eexists. split; [vm_compute; reflexivity|reflexivity]. Qed.

(** Every alias of [ParseLogLevel] but [NOTICE] gets its level token. *)
Lemma classify_word_aliases :
  Forall
    (fun alias =>
       str_eqb alias (lit "NOTICE") = false ->
       fst (classify_word alias) = level_token (ParseLogLevel alias))
    level_aliases.
Proof.
  unfold level_aliases.
  repeat (constructor;
          [vm_compute; intros H; first [reflexivity|discriminate]|]).
  constructor.
Qed.

(** C8, on the code: the word [NOTICE], which [ParseLogLevel] maps to
    [Info], is tagged [Message] by the tokenizer, whose keyword chain has
    no [NOTICE]; the word [TRACE] is tagged [LevelDebug], before the HTTP
    methods are looked at. *)
Theorem tokenizer_NOTICE_is_message :
  AnalyzeText (text_of (lit "NOTICE")) [] =
    Ret [mkToken TokenType.Message 0 6 TokenColor.Word] /\
  ParseLogLevel (lit "NOTICE") = LogLevel.Info /\
  AnalyzeText (text_of (lit "TRACE")) [] =
    Ret [mkToken TokenType.LevelDebug 0 5 TokenColor.Comment].
Proof. repeat split; vm_compute; reflexivity. Qed.

(** Scenario D is an instance. *)
Lemma AnalyzeText_tiles_witness :
  exists tokens,
    AnalyzeText scenario_D [] = Ret tokens /\
    tiled scenario_D 0 (Len scenario_D) tokens /\
    ForallOrdPairs (fun t u => tokenEnd t <= tokenStart u) tokens /\
    Forall
      (fun t => 0 <= tokenStart t < tokenEnd t /\ tokenEnd t <= Len scenario_D)
      tokens /\
    List.concat (map snd (runs scenario_D 0 (Len scenario_D) tokens))
    = scenario_D /\
    Forall
      (fun run => fst run = false ->
                  forallb is_blank (snd run) = true)
      (runs scenario_D 0 (Len scenario_D) tokens) /\
    (forall i,
        0 <= i < Len scenario_D ->
        is_blank (at16 scenario_D i) = false ->
        exists t,
          In t tokens /\ covers t i /\
          forall u, In u tokens -> covers u i -> u = t).
Proof. apply (Tiling.AnalyzeText_tiles scenario_D). reflexivity. Defined.

(** A document with both signatures is an instance. *)
Lemma DetectLogFormat_priority_witness :
  DetectLogFormat both_signatures = LogFormat.Apache.
Proof.
  apply (proj1 (proj2 (proj2 (Detection.DetectLogFormat_priority
                                both_signatures))));
    vm_compute; reflexivity.
Defined.

End Scenarios.

Import Lines Severities Marks Shapes Rows KeywordTables AccessLayout.

(** ** What a successful refresh leaves *)

Module RefreshFacts.

Import Refresh.

Lemma Update_true_parsed (platform : Platform) (this this' : LOGFile) :
  Update platform this = Ret (true, this') ->
  exists o,
    obj this = Some o /\ GetSize o <> 0 /\
    run_parser platform (DetectLogFormat (parsed_prefix o))
      (parsed_prefix o) = Ret (entries this') /\
    Z.of_nat (List.length (entries this')) <= MAX_PARSE_SIZE /\
    this' =
    mkLOGFile (Some o) (DetectLogFormat (parsed_prefix o)) (entries this')
      (UpdateStatistics (entries this')) (panelsMask this).
Proof.
  intros H. destruct (obj this) as [o|] eqn:Ho.
  2:{ rewrite Update_not_ready in H by (unfold source_ready; rewrite Ho;
        reflexivity). discriminate. }
  destruct (Z.eqb_spec (GetSize o) 0) as [E|E].
  { rewrite Update_not_ready in H.
    - discriminate.
    - unfold source_ready. rewrite Ho.
      apply Z.eqb_eq in E. rewrite E. reflexivity. }
  destruct (Update_ready platform this o Ho E) as [parsed [Hr [Hn Hu]]].
  rewrite Hu in H. injection H as <-.
  exists o. cbn [entries]. repeat split; assumption.
Qed.

End RefreshFacts.

(** ** The records of the line loop, line by line *)

Module LineRecords.

Import Refresh RefreshFacts.

Import StringViewFacts ParserTotality LineLoop AccessStatus Scenarios.

Lemma split_lines_cons (s : string_view) :
  exists l ls, split_lines s = l :: ls.
Proof.
  destruct s as [|c s]; cbn [split_lines]; [eauto|].
  destruct (Ascii.eqb c LF); [eauto|].
  destruct (split_lines s); eauto.
Qed.

Lemma join_split (s : string_view) : join_lines (split_lines s) = s.
Proof.
  induction s as [|c s IH]; [reflexivity|].
  cbn [split_lines].
  destruct (Ascii.eqb_spec c LF) as [->|Hc].
  - destruct (split_lines_cons s) as [l [ls E]]. rewrite E in *.
    cbn [join_lines app] in *. rewrite IH. reflexivity.
  - destruct (split_lines_cons s) as [l [ls E]]. rewrite E in *.
    cbn [join_lines] in *. destruct ls; cbn [app]; rewrite <- IH; reflexivity.
Qed.

Lemma split_lines_no_LF (s : string_view) :
  Forall (fun l => ~ In LF l) (split_lines s).
Proof.
  induction s as [|c s IH]; cbn [split_lines].
  - constructor; [intros []|constructor].
  - destruct (Ascii.eqb_spec c LF) as [->|Hc].
    + constructor; [intros []|exact IH].
    + destruct (split_lines s) as [|l ls].
      * constructor; [|constructor]. intros [H|[]]. congruence.
      * inversion IH as [|? ? Hl Hls]; subst.
        constructor; [|exact Hls].
        intros [H|H]; [congruence|exact (Hl H)].
Qed.

Lemma size_app (a b : string_view) : size (a ++ b) = size a + size b.
Proof. unfold size. rewrite length_app. lia. Qed.

Lemma strip_cr_code (line : string_view) :
  size line < two64 ->
  (if negb (empty line) && Ascii.eqb (back line) CR
   then substr line 0 (sub64 (size line) 1)
   else Ret line) = Ret (strip_cr line).
Proof.
  intros Hlt. unfold strip_cr.
  destruct (negb (empty line) && Ascii.eqb (back line) CR) eqn:E;
    [|reflexivity].
  assert (Hs : 1 <= size line).
  { destruct line as [|c line]; [discriminate|].
    rewrite size_cons. pose proof (size_nonneg line). lia. }
  rewrite substr_ok by lia.
  rewrite sub64_small by lia.
  change (Z.to_nat 0) with 0%nat. cbn [skipn].
  f_equal. f_equal. unfold size in *. lia.
Qed.

Lemma skipn_size_app (done rest : string_view) :
  skipn (Z.to_nat (size done)) (done ++ rest) = rest.
Proof.
  unfold size. rewrite Nat2Z.id. rewrite skipn_app.
  rewrite skipn_all. rewrite Nat.sub_diag. reflexivity.
Qed.

(** A line is what [strip_cr] leaves of it, followed by the carriage
    return that was cut off, if any. *)
Lemma strip_cr_cut (l : string_view) :
  l = strip_cr l ++ [] \/ l = strip_cr l ++ [CR].
Proof.
  unfold strip_cr.
  destruct (negb (empty l) && Ascii.eqb (back l) CR) eqn:E.
  - right. apply andb_true_iff in E. destruct E as [E1 E2].
    apply Ascii.eqb_eq in E2. unfold back in E2.
    assert (Hne : l <> []) by (intros ->; discriminate).
    rewrite (app_removelast_last zero Hne) at 1. rewrite E2.
    rewrite removelast_firstn_len.
    replace (Init.Nat.pred (List.length l)) with (List.length l - 1)%nat
      by lia.
    reflexivity.
  - left. rewrite app_nil_r. reflexivity.
Qed.

(** Behind a line that a line feed ends, no digit follows the view: the
    carriage return that was cut off comes first, or else the line
    feed. *)
Lemma behind_ended_line (platform : Platform)
    (before l after : string_view) (lineEnd num : Z) :
  leading_digits
    (behind_line platform (before ++ l ++ LF :: after) (strip_cr l)
       (new_entry (size before) lineEnd num)) = [].
Proof.
  unfold behind_line.
  change (lineStart (new_entry (size before) lineEnd num))
    with (size before).
  rewrite <- size_app.
  assert (E : exists cut,
             l = strip_cr l ++ cut /\ (cut = [] \/ cut = [CR])).
  { destruct (strip_cr_cut l) as [E|E]; eauto. }
  destruct E as [cut [E Hcut]].
  set (line := strip_cr l) in *.
  replace ((before ++ l ++ LF :: after) ++ beyond platform)
    with ((before ++ line) ++ cut ++ LF :: after ++ beyond platform)
    by (rewrite E; repeat rewrite <- app_assoc; reflexivity).
  rewrite skipn_size_app.
  destruct Hcut as [->| ->]; reflexivity.
Qed.

Lemma find_char_after (done rest : string_view) (c : ascii) :
  find_char (done ++ rest) c (size done) = find_at rest [c] (size done).
Proof.
  unfold find_char, find. rewrite size_app.
  pose proof (size_nonneg rest).
  destruct (Z.ltb_spec (size done + size rest) (size done)); [lia|].
  rewrite skipn_size_app. reflexivity.
Qed.

(** The line loop, started behind [done] on the lines that follow,
    yields the records of these lines. *)
Lemma parse_lines_records (body : string_view -> LogEntry -> Exc LogEntry) :
  forall (lines : list string_view) (content done : string_view)
         (entries : list LogEntry) (lineNum : Z) (fuel : nat),
    Forall (fun l => ~ In LF l) lines ->
    content = done ++ join_lines lines ->
    size content < two32 - 1 ->
    0 <= lineNum <= size done + 1 ->
    size (join_lines lines) < Z.of_nat fuel ->
    parse_lines body fuel content (size done) lineNum entries =
    records body lines (size done) lineNum entries.
Proof.
  induction lines as [|l ls IH];
    intros content done entries lineNum fuel Hno Hc Hsz Hnum Hf.
  - cbn [join_lines] in *. rewrite app_nil_r in Hc. subst content.
    destruct fuel as [|fuel]; [rewrite size_nil in Hf; lia|].
    cbn [parse_lines records]. rewrite Z.ltb_irrefl. reflexivity.
  - apply Forall_cons_iff in Hno. destruct Hno as [Hl Hls].
    pose proof (size_nonneg done) as Hd.
    pose proof (size_nonneg l) as Hl0.
    destruct fuel as [|fuel]; [pose proof (size_nonneg (join_lines (l :: ls))); lia|].
    cbn [records]. cbn [parse_lines].
    assert (Hsize : size content = size done + size (join_lines (l :: ls))).
    { rewrite Hc. apply size_app. }
    destruct ls as [|l2 ls'].
    + (* the last line *)
      cbn [join_lines] in *.
      destruct l as [|c l].
      * rewrite size_nil in *.
        destruct (Z.ltb_spec (size done) (size content)); [lia|].
        reflexivity.
      * pose proof (size_nonneg l) as Hl1.
        rewrite size_cons in Hl0, Hf.
        destruct (Z.ltb_spec (size done) (size content)) as [Hlt|Hge];
          [|rewrite size_cons in Hsize; lia].
        assert (Hfind : find_char content LF (size done) = npos).
        { rewrite Hc. rewrite find_char_after.
          apply find_at_char_absent. exact Hl. }
        rewrite Hfind.
        rewrite Z.eqb_refl.
        rewrite substr_ok by lia.
        rewrite sub64_small by (unfold two32, two64 in *; lia).
        rewrite Z.min_id.
        assert (Hline : firstn (Z.to_nat (size content - size done))
                          (skipn (Z.to_nat (size done)) content) = c :: l).
        { rewrite Hsize. rewrite Hc. rewrite skipn_size_app. replace (size done + size (c :: l) - size done)
            with (size (c :: l)) by lia.
          unfold size. rewrite Nat2Z.id. apply firstn_all. }
        rewrite Hline. cbn [bind].
        rewrite strip_cr_code by (unfold two32, two64 in *; lia).
        cbn [bind].
        replace (size content) with (size done + size (c :: l)) at 1 by lia.
        match goal with
        | |- bind ?m _ = bind ?m _ => destruct m as [entries'| |]
        end; cbn [bind]; try reflexivity.
        destruct fuel as [|fuel]; [lia|].
        cbn [parse_lines records].
        rewrite add64_small by (unfold two32, two64 in *; lia).
        destruct (Z.ltb_spec (size content + 1) (size content)); [lia|].
        reflexivity.
    + (* a line followed by a line feed *)
      assert (Hj : join_lines (l :: l2 :: ls') =
                   l ++ LF :: join_lines (l2 :: ls')) by reflexivity.
      rewrite Hj in *. clear Hj.
      set (rest := join_lines (l2 :: ls')) in *.
      pose proof (size_nonneg rest) as Hr.
      assert (Hsz2 : size (l ++ LF :: rest) = size l + 1 + size rest).
      { rewrite size_app, size_cons. lia. }
      destruct (Z.ltb_spec (size done) (size content)) as [Hlt|Hge]; [|lia].
      assert (Hfind : find_char content LF (size done) = size done + size l).
      { rewrite Hc. rewrite find_char_after.
        apply find_at_char_skip. exact Hl. }
      rewrite Hfind.
      destruct (Z.eqb_spec (size done + size l) npos) as [E|_];
        [unfold npos, two32 in *; lia|].
      rewrite substr_ok by lia.
      rewrite sub64_small by (unfold two32, two64 in *; lia).
      assert (Hline : firstn (Z.to_nat (Z.min (size done + size l - size done)
                                         (size content - size done)))
                        (skipn (Z.to_nat (size done)) content) = l).
      { rewrite Z.min_l by lia. rewrite Hc. rewrite skipn_size_app.
        replace (size done + size l - size done) with (size l) by lia.
        unfold size. rewrite Nat2Z.id.
        rewrite firstn_app. rewrite Nat.sub_diag. cbn [firstn].
        rewrite app_nil_r. apply firstn_all. }
      rewrite Hline. cbn [bind].
      rewrite strip_cr_code by (unfold two32, two64 in *; lia).
      cbn [bind].
      match goal with
      | |- bind ?m _ = bind ?m _ => destruct m as [entries'| |]
      end; cbn [bind]; try reflexivity.
      rewrite add64_small by (unfold two32, two64 in *; lia).
      rewrite add32_small by (unfold two32 in *; lia).
      assert (Hd' : size (done ++ l ++ [LF]) = size done + size l + 1).
      { rewrite !size_app. change (size [LF]) with 1. lia. }
      rewrite <- Hd'.
      apply IH.
      * exact Hls.
      * rewrite Hc. rewrite <- !app_assoc. reflexivity.
      * exact Hsz.
      * lia.
      * lia.
Qed.

(** *** The bodies leave the offsets alone *)

Ltac ret_cases :=
  repeat match goal with
         | H : Ret _ = Ret _ |- _ => injection H as H
         | H : bind ?m _ = Ret _ |- _ =>
             destruct m eqn:?; cbn [bind] in H;
             [|discriminate H|discriminate H]
         | H : (if ?c then _ else _) = Ret _ |- _ => destruct c
         | H : match ?p with pair _ _ => _ end = Ret _ |- _ => destruct p
         end.

Ltac goal_cases :=
  repeat match goal with
         | |- context [ if ?c then _ else _ ] => destruct c
         end.

Lemma apache_line_keeps_place (platform : Platform) (behind : string_view) :
  keeps_place (apache_line platform behind).
Proof.
  intros line e e' H. unfold apache_line in H. cbv zeta in H.
  ret_cases; subst; goal_cases; entry_simpl; auto.
Qed.

Lemma apache_body_keeps_place (platform : Platform) (content : string_view) :
  keeps_place (apache_body platform content).
Proof.
  intros line e e' H. unfold apache_body in H.
  exact (apache_line_keeps_place _ _ _ _ _ H).
Qed.

Lemma syslog_line_keeps_place : keeps_place syslog_line.
Proof.
  intros line e e' H. unfold syslog_line in H. cbv zeta in H.
  ret_cases; subst; goal_cases; entry_simpl; auto.
Qed.

Lemma generic_line_keeps_place : keeps_place generic_line.
Proof.
  intros line e e' H. unfold generic_line in H. cbv zeta in H.
  ret_cases; subst; goal_cases; entry_simpl; auto.
Qed.

Lemma log4j_find_level_keeps_place (levels : list string_view)
    (remaining : string_view) :
  forall e e',
    log4j_find_level levels remaining e = Ret e' ->
    lineStart e' = lineStart e /\ lineEnd e' = lineEnd e /\
    lineNumber e' = lineNumber e.
Proof.
  induction levels as [|lvl levels IH]; intros e e' H;
    cbn [log4j_find_level] in H.
  - injection H as <-. auto.
  - cbv zeta in H.
    destruct (negb (find remaining lvl 0 =? npos) &&
              (find remaining lvl 0 <? 20)); [|apply IH; exact H].
    ret_cases; subst; entry_simpl; auto.
Qed.

Lemma log4j_line_keeps_place : keeps_place log4j_line.
Proof.
  intros line e e' H. unfold log4j_line in H. cbv zeta in H.
  match type of H with
  | bind ?m _ = _ => destruct m as [[t e1]| |] eqn:E1; try discriminate
  end.
  cbn [bind] in H.
  match type of H with
  | bind ?m _ = _ => destruct m as [remaining| |]; try discriminate
  end.
  cbn [bind] in H.
  destruct (log4j_find_level _ _ _) as [e2| |] eqn:E2; try discriminate.
  cbn [bind] in H. injection H as H.
  apply log4j_find_level_keeps_place in E2.
  assert (H1 : lineStart e1 = lineStart e /\ lineEnd e1 = lineEnd e /\
               lineNumber e1 = lineNumber e).
  { ret_cases; subst; entry_simpl; auto. }
  subst e'. goal_cases; entry_simpl; intuition congruence.
Qed.

(** *** The records of a list of lines *)

Lemma line_feeds_app (a b : string_view) :
  line_feeds (a ++ b) = line_feeds a + line_feeds b.
Proof. unfold line_feeds. rewrite count_occ_app. lia. Qed.

Lemma line_feeds_none (l : string_view) : ~ In LF l -> line_feeds l = 0.
Proof.
  intros H. unfold line_feeds.
  apply (count_occ_not_In ascii_dec) in H. rewrite H. reflexivity.
Qed.

Lemma line_feeds_past (done l : string_view) :
  ~ In LF l ->
  line_feeds (done ++ l ++ [LF]) = line_feeds done + 1.
Proof.
  intros H. rewrite !line_feeds_app. rewrite (line_feeds_none l H).
  reflexivity.
Qed.

Lemma size_past (done l : string_view) :
  size (done ++ l ++ [LF]) = size done + size l + 1.
Proof. rewrite !size_app. change (size [LF]) with 1. lia. Qed.

Lemma has_text_nonempty (l : string_view) : has_text l = true -> l <> [].
Proof. intros H ->. discriminate. Qed.

(** [records] appends, for a line with text, the answer of the body. *)
Lemma records_head (body : string_view -> LogEntry -> Exc LogEntry)
    (l : string_view) (start num : Z) (entries entries' : list LogEntry) :
  (if negb (empty (strip_cr l)) then
     entry <- body (strip_cr l) (new_entry start (start + size l) num) ;;
     Ret (entries ++ [entry])
   else Ret entries) = Ret entries' ->
  (has_text l = false /\ entries' = entries) \/
  (exists e,
      has_text l = true /\ entries' = entries ++ [e] /\
      body (strip_cr l) (new_entry start (start + size l) num) = Ret e).
Proof.
  unfold has_text. destruct (negb (empty (strip_cr l))); intros H.
  - destruct (body _ _) as [e| |]; cbn [bind] in H; try discriminate.
    injection H as <-. right. exists e. auto.
  - injection H as <-. left. auto.
Qed.

Section Placement.

Variable body : string_view -> LogEntry -> Exc LogEntry.
Hypothesis body_keeps : keeps_place body.

Lemma records_placed :
  forall (lines : list string_view) (content done : string_view)
         (entries r : list LogEntry),
    Forall (fun l => ~ In LF l) lines ->
    content = done ++ join_lines lines ->
    (done = [] \/ exists b, done = b ++ [LF]) ->
    records body lines (size done) (1 + line_feeds done) entries = Ret r ->
    exists new,
      r = entries ++ new /\
      Forall (fun e => placed content e /\ size done <= lineStart e /\
                       1 + line_feeds done <= lineNumber e) new /\
      ForallOrdPairs precedes new.
Proof.
  induction lines as [|l ls IH]; intros content done entries r Hno Hc Hd H.
  - cbn [records] in H. injection H as <-. exists [].
    rewrite app_nil_r. repeat split; constructor.
  - apply Forall_cons_iff in Hno. destruct Hno as [Hl Hls].
    cbn [records] in H.
    match type of H with
    | bind ?m _ = _ => destruct m as [entries'| |] eqn:E; try discriminate
    end.
    cbn [bind] in H.
    pose proof (size_nonneg l) as Hl0.
    (* what follows the line *)
    assert (Hafter : exists after,
               content = done ++ l ++ after /\
               (after = [] \/ exists a, after = LF :: a)).
    { destruct ls as [|l2 ls'].
      - exists []. rewrite app_nil_r. split; [exact Hc|left; reflexivity].
      - exists (LF :: join_lines (l2 :: ls')).
        split; [exact Hc|right; eexists; reflexivity]. }
    destruct Hafter as [after [Hc' Ha]].
    (* the records of the lines that follow *)
    assert (Hrest : exists new,
               r = entries' ++ new /\
               Forall (fun e => placed content e /\
                                size done + size l + 1 <= lineStart e /\
                                1 + line_feeds done + 1 <= lineNumber e) new /\
               ForallOrdPairs precedes new).
    { destruct ls as [|l2 ls'].
      - cbn [records] in H. injection H as <-. exists [].
        rewrite app_nil_r. repeat split; constructor.
      - rewrite <- (size_past done l) in H.
        replace (1 + line_feeds done + 1)
          with (1 + line_feeds (done ++ l ++ [LF])) in H
          by (rewrite (line_feeds_past done l Hl); lia).
        destruct (IH content (done ++ l ++ [LF]) entries' r Hls) as
          [new [Hr [Hp Ho]]].
        + rewrite Hc. rewrite <- !app_assoc. reflexivity.
        + right. exists (done ++ l). rewrite <- app_assoc. reflexivity.
        + exact H.
        + exists new. split; [exact Hr|]. split; [|exact Ho].
          rewrite size_past, (line_feeds_past done l Hl) in Hp.
          eapply Forall_impl; [|exact Hp]. cbv beta.
          intros e [H1 [H2 H3]]. split; [exact H1|]. split; lia. }
    destruct Hrest as [new [Hr [Hp Ho]]].
    destruct (records_head _ _ _ _ _ _ E) as [[Ht ->]|[e [Ht [-> Hb]]]].
    + exists new. split; [exact Hr|]. split; [|exact Ho].
      eapply Forall_impl; [|exact Hp]. cbv beta.
      intros e [H1 [H2 H3]]. split; [exact H1|]. split; lia.
    + exists (e :: new). split; [rewrite Hr, <- app_assoc; reflexivity|].
      destruct (body_keeps _ _ _ Hb) as [K1 [K2 K3]]. entry_simpl.
      split.
      * constructor.
        -- split; [|split; lia].
           exists done, l, after. split.
           { split; [exact Hc'|]. split; [exact Hl|]. split; assumption. }
           split; [apply has_text_nonempty; exact Ht|].
           split; [exact K1|]. split; [exact K2|exact K3].
        -- eapply Forall_impl; [|exact Hp]. cbv beta.
           intros e' [H1 [H2 H3]]. split; [exact H1|]. split; lia.
      * constructor; [|exact Ho].
        eapply Forall_impl; [|exact Hp]. cbv beta.
        intros e' [H1 [H2 H3]]. unfold precedes. lia.
Qed.

End Placement.

Section Count.

Variable body : string_view -> LogEntry -> Exc LogEntry.
Hypothesis body_total : forall line entry, exists e, body line entry = Ret e.

Lemma records_count :
  forall (lines : list string_view) (start num : Z) (entries : list LogEntry),
  exists r,
    records body lines start num entries = Ret r /\
    List.length r =
    (List.length entries + List.length (filter has_text lines))%nat.
Proof.
  induction lines as [|l ls IH]; intros start num entries.
  - exists entries. split; [reflexivity|]. cbn [filter List.length]. lia.
  - cbn [records filter]. unfold has_text at 1.
    destruct (negb (empty (strip_cr l))).
    + destruct (body_total (strip_cr l) (new_entry start (start + size l) num))
        as [e ->].
      cbn [bind].
      destruct (IH (start + size l + 1) (num + 1) (entries ++ [e]))
        as [r [Hr Hn]].
      exists r. split; [exact Hr|]. rewrite Hn, length_app.
      cbn [List.length]. lia.
    + cbn [bind]. apply IH.
Qed.

End Count.

(** *** The four parsers, line by line *)

Lemma run_parser_body (platform : Platform) (format : LogFormat.t)
    (content : string_view) :
  run_parser platform format content =
  parse_content (body_of platform content format) content [].
Proof. destruct format; reflexivity. Qed.

Lemma body_of_keeps_place (platform : Platform) (content : string_view)
    (format : LogFormat.t) :
  keeps_place (body_of platform content format).
Proof.
  destruct format; cbn [body_of];
    first [ apply apache_body_keeps_place | apply syslog_line_keeps_place
          | apply log4j_line_keeps_place | apply generic_line_keeps_place ].
Qed.

Lemma body_of_total (platform : Platform) (content : string_view)
    (format : LogFormat.t) (line : string_view) (entry : LogEntry) :
  exists e, body_of platform content format line entry = Ret e.
Proof.
  destruct format; cbn [body_of];
    first [ apply apache_line_total | apply syslog_line_total
          | apply log4j_line_total | apply generic_line_total ].
Qed.

Lemma parse_content_records
    (body : string_view -> LogEntry -> Exc LogEntry)
    (content : string_view) (entries : list LogEntry) :
  size content < two32 - 1 ->
  parse_content body content entries =
  records body (split_lines content) 0 1 entries.
Proof.
  intros Hsz. unfold parse_content.
  change 0 with (size []) at 1 2.
  apply parse_lines_records.
  - apply split_lines_no_LF.
  - rewrite join_split. reflexivity.
  - exact Hsz.
  - rewrite size_nil. lia.
  - rewrite join_split. unfold size. lia.
Qed.

Lemma run_parser_by_lines_eq (platform : Platform) (o : Object)
    (format : LogFormat.t) :
  run_parser platform format (parsed_prefix o) =
  records (body_of platform (parsed_prefix o) format)
    (split_lines (parsed_prefix o))
    0 1 [].
Proof.
  rewrite run_parser_body. apply parse_content_records.
  pose proof (parsed_prefix_size o). unfold MAX_PARSE_SIZE, two32 in *. lia.
Qed.

(** X1. Each of the four parsers reads a document line by line: its records
    are, in order, the answers of its line body on the lines that hold
    text once a carriage return at their end is removed, each with the
    offsets of its line and its number among all lines; they follow the
    records the parser was given. *)
Theorem parsers_by_lines (platform : Platform) (content : string_view)
    (entries : list LogEntry) :
  size content < two32 - 1 ->
  ParseApacheLog platform content entries =
  records (apache_body platform content) (split_lines content) 0 1
    entries /\
  ParseSyslog content entries =
  records syslog_line (split_lines content) 0 1 entries /\
  ParseLog4j content entries =
  records log4j_line (split_lines content) 0 1 entries /\
  ParseGenericLog content entries =
  records generic_line (split_lines content) 0 1 entries.
Proof.
  intros Hsz.
  unfold ParseApacheLog, ParseSyslog, ParseLog4j, ParseGenericLog.
  repeat split; apply parse_content_records; exact Hsz.
Qed.

Lemma parsers_by_lines_witness :
  ParseApacheLog saturating four_lines [] =
  records (apache_body saturating four_lines) (split_lines four_lines) 0 1
    [] /\
  ParseSyslog four_lines [] =
  records syslog_line (split_lines four_lines) 0 1 [] /\
  ParseLog4j four_lines [] =
  records log4j_line (split_lines four_lines) 0 1 [] /\
  ParseGenericLog four_lines [] =
  records generic_line (split_lines four_lines) 0 1 [].
Proof. apply parsers_by_lines. vm_compute. reflexivity. Defined.

(** X2. After a refresh that succeeds, every record lies on a line of the
    parsed bytes that is not empty: its offsets are those of the line,
    which holds no line feed and is bounded by line feeds or the ends of
    the bytes, and its line number is one more than the number of line
    feeds before it.  The records are in document order: each one ends
    before the next begins and has a smaller line number. *)
Theorem Update_records_placed (platform : Platform)
    (this this' : LOGFile) (o : Object) :
  Update platform this = Ret (true, this') ->
  obj this = Some o ->
  Forall (placed (parsed_prefix o)) (entries this') /\
  ForallOrdPairs precedes (entries this').
Proof.
  intros H Ho.
  destruct (Update_true_parsed _ _ _ H) as [o' [Ho' [_ [Hr _]]]].
  rewrite Ho in Ho'. injection Ho' as <-.
  rewrite run_parser_by_lines_eq in Hr.
  destruct (records_placed _
              (body_of_keeps_place platform (parsed_prefix o)
                 (DetectLogFormat (parsed_prefix o)))
              (split_lines (parsed_prefix o)) (parsed_prefix o) []
              [] (entries this') (split_lines_no_LF _)) as [new [Hn [Hp Hord]]].
  - rewrite join_split. reflexivity.
  - left. reflexivity.
  - exact Hr.
  - cbn [app] in Hn. subst new. split; [|exact Hord].
    eapply Forall_impl; [|exact Hp]. cbv beta. intros e [He _]. exact He.
Qed.

Lemma Update_records_placed_witness :
  Forall (placed (parsed_prefix (mkObject four_lines)))
    (entries (refreshed (session four_lines))) /\
  ForallOrdPairs precedes (entries (refreshed (session four_lines))).
Proof.
  apply (Update_records_placed saturating (session four_lines)).
  - vm_compute. reflexivity.
  - reflexivity.
Defined.

(** X3. A refresh that succeeds yields exactly one record for every line of
    the parsed bytes that holds text once a carriage return at its end is
    removed: empty lines and lines of one carriage return give none. *)
Theorem Update_record_count (platform : Platform)
    (this this' : LOGFile) (o : Object) :
  Update platform this = Ret (true, this') ->
  obj this = Some o ->
  List.length (entries this') =
  List.length (filter has_text (split_lines (parsed_prefix o))).
Proof.
  intros H Ho.
  destruct (Update_true_parsed _ _ _ H) as [o' [Ho' [_ [Hr _]]]].
  rewrite Ho in Ho'. injection Ho' as <-.
  rewrite run_parser_by_lines_eq in Hr.
  destruct (records_count _ (body_of_total platform (parsed_prefix o)
                               (DetectLogFormat (parsed_prefix o)))
              (split_lines (parsed_prefix o)) 0 1 []) as [r [Hr' Hn]].
  rewrite Hr' in Hr. injection Hr as <-. exact Hn.
Qed.

Lemma Update_record_count_witness :
  List.length (entries (refreshed (session four_lines))) =
  List.length
    (filter has_text (split_lines (parsed_prefix (mkObject four_lines)))).
Proof.
  apply (Update_record_count saturating (session four_lines)).
  - vm_compute. reflexivity.
  - reflexivity.
Defined.




End LineRecords.

(** ** Severities, time range and panels of a session *)

Module SessionFacts.

Import StringViewFacts ParserTotality LineLoop Statistics Refresh.
Import RefreshFacts LineRecords.

(** *** Severities *)

Lemma ParseLogLevel_not_Critical (levelStr : string_view) :
  ParseLogLevel levelStr <> LogLevel.Critical.
Proof.
  unfold ParseLogLevel. cbv zeta. goal_cases; discriminate.
Qed.

(** X5. The name of every severity is read back by [ParseLogLevel] as that
    severity, but for [Critical], whose name is read as [Fatal]; so
    [ParseLogLevel] never answers [Critical]. *)
Theorem level_name_round_trip :
  (forall l, ParseLogLevel (LogLevelToString l) = reparsed l) /\
  (forall levelStr, ParseLogLevel levelStr <> LogLevel.Critical).
Proof.
  split.
  - intros l. destruct l; vm_compute; reflexivity.
  - exact ParseLogLevel_not_Critical.
Qed.

Lemma apache_line_levels (platform : Platform) (behind line : string_view)
    (e e' : LogEntry) :
  apache_line platform behind line e = Ret e' ->
  level e = LogLevel.Unknown ->
  level_among [LogLevel.Unknown; LogLevel.Info; LogLevel.Warning;
               LogLevel.Error] e'.
Proof.
  intros H Hl. unfold apache_line in H. cbv zeta in H. unfold level_among.
  ret_cases; subst; goal_cases; entry_simpl; rewrite ?Hl; cbn [In]; tauto.
Qed.

Lemma syslog_line_levels (line : string_view) (e e' : LogEntry) :
  syslog_line line e = Ret e' ->
  level_among [LogLevel.Error; LogLevel.Warning; LogLevel.Debug;
               LogLevel.Info] e'.
Proof.
  intros H. unfold syslog_line in H. cbv zeta in H. unfold level_among.
  ret_cases; subst; goal_cases; entry_simpl; cbn [In]; tauto.
Qed.

Lemma generic_line_levels (line : string_view) (e e' : LogEntry) :
  generic_line line e = Ret e' -> level e' <> LogLevel.Critical.
Proof.
  intros H. unfold generic_line in H. cbv zeta in H.
  ret_cases; subst; goal_cases; entry_simpl; discriminate.
Qed.

Lemma log4j_find_level_levels (levels : list string_view)
    (remaining : string_view) :
  forall e e',
    log4j_find_level levels remaining e = Ret e' ->
    level e <> LogLevel.Critical -> level e' <> LogLevel.Critical.
Proof.
  induction levels as [|lvl levels IH]; intros e e' H Hl;
    cbn [log4j_find_level] in H.
  - injection H as <-. exact Hl.
  - cbv zeta in H.
    destruct (negb (find remaining lvl 0 =? npos) &&
              (find remaining lvl 0 <? 20)); [|apply (IH _ _ H Hl)].
    ret_cases; subst; entry_simpl; apply ParseLogLevel_not_Critical.
Qed.

Lemma log4j_line_levels (line : string_view) (e e' : LogEntry) :
  log4j_line line e = Ret e' -> level e' <> LogLevel.Critical.
Proof.
  intros H. unfold log4j_line in H. cbv zeta in H.
  match type of H with
  | bind ?m _ = _ => destruct m as [[t e1]| |] eqn:E1; try discriminate
  end.
  cbn [bind] in H.
  match type of H with
  | bind ?m _ = _ => destruct m as [remaining| |]; try discriminate
  end.
  cbn [bind] in H.
  destruct (log4j_find_level _ _ _) as [e2| |] eqn:E2; try discriminate.
  cbn [bind] in H. injection H as H.
  apply log4j_find_level_levels in E2.
  - subst e'. goal_cases; entry_simpl; exact E2.
  - ret_cases; subst; entry_simpl; discriminate.
Qed.

Lemma run_parser_entries (platform : Platform) (format : LogFormat.t)
    (content : string_view) (r : list LogEntry) (P : LogEntry -> Prop) :
  run_parser platform format content = Ret r ->
  (forall line e e',
      level e = LogLevel.Unknown ->
      body_of platform content format line e = Ret e' -> P e') ->
  Forall P r.
Proof.
  intros H Hb. rewrite run_parser_body in H. unfold parse_content in H.
  refine (parse_lines_entries (body_of platform content format) P
            _ _ _ _ _ _ _ H _).
  - intros line ls le ln e _ He.
    apply (Hb line (new_entry ls le ln) e); [reflexivity|exact He].
  - constructor.
Qed.

Lemma how_many_none (p : LogEntry -> bool) (l : list LogEntry) :
  Forall (fun e => p e = false) l -> how_many p l = 0.
Proof.
  induction 1 as [|e l He _ IH]; [apply how_many_nil|].
  rewrite how_many_cons, He, IH. reflexivity.
Qed.

(** X6. No record of a refresh has the severity [Critical].  The records of a
    document read as [Apache] are [Unknown], [Info], [Warning] or [Error];
    those of a document read as [Syslog] are [Error], [Warning], [Debug] or
    [Info], so that its count of unknown severities is zero. *)
Theorem Update_levels (platform : Platform) (this this' : LOGFile) :
  Update platform this = Ret (true, this') ->
  Forall (fun e => level e <> LogLevel.Critical) (entries this') /\
  (detectedFormat this' = LogFormat.Apache ->
   Forall (level_among [LogLevel.Unknown; LogLevel.Info; LogLevel.Warning;
                        LogLevel.Error]) (entries this')) /\
  (detectedFormat this' = LogFormat.Syslog ->
   Forall (level_among [LogLevel.Error; LogLevel.Warning; LogLevel.Debug;
                        LogLevel.Info]) (entries this') /\
   unknownCount (stats this') = 0 /\ traceCount (stats this') = 0 /\
   fatalCount (stats this') = 0).
Proof.
  intros H.
  destruct (Update_true_parsed _ _ _ H) as [o [Ho [_ [Hr [Hn Ht]]]]].
  split; [|split].
  - apply (run_parser_entries _ _ _ _ _ Hr).
    intros line e e' Hl He.
    destruct (DetectLogFormat (parsed_prefix o)); cbn [body_of] in He;
      first
        [ apply (apache_line_levels _ _ _ _ _ He) in Hl;
          unfold level_among in Hl; cbn [In] in Hl;
          intros Hc; rewrite Hc in Hl; intuition discriminate
        | apply syslog_line_levels in He;
          unfold level_among in He; cbn [In] in He;
          intros Hc; rewrite Hc in He; intuition discriminate
        | apply (log4j_line_levels _ _ _ He)
        | apply (generic_line_levels _ _ _ He) ].
  - intros Hf. rewrite Ht in Hf. cbn [detectedFormat] in Hf.
    rewrite Hf in Hr.
    apply (run_parser_entries _ _ _ _ _ Hr).
    intros line e e' Hl He. cbn [body_of] in He.
    apply (apache_line_levels _ _ _ _ _ He Hl).
  - intros Hf. rewrite Ht in Hf. cbn [detectedFormat] in Hf.
    rewrite Hf in Hr.
    assert (Hlev : Forall (level_among [LogLevel.Error; LogLevel.Warning;
                                        LogLevel.Debug; LogLevel.Info])
                     (entries this')).
    { apply (run_parser_entries _ _ _ _ _ Hr).
      intros line e e' Hl He. cbn [body_of] in He.
      apply (syslog_line_levels _ _ _ He). }
    split; [exact Hlev|].
    assert (Hlt : Z.of_nat (List.length (entries this')) < two32)
      by (unfold MAX_PARSE_SIZE, two32 in *; lia).
    pose proof (UpdateStatistics_counts (entries this') Hlt) as C.
    unfold counted in C.
    destruct C as (Htr & _ & _ & _ & _ & Hfa & Hun & _).
    cbn [unknownCount traceCount fatalCount set_lastTimestamp
         set_firstTimestamp set_totalLines LogStatistics_new] in Htr, Hfa, Hun.
    assert (Hst : stats this' = UpdateStatistics (entries this'))
      by (rewrite Ht at 1; reflexivity).
    rewrite Hst, Htr, Hfa, Hun.
    rewrite !how_many_none; [repeat split| | |];
      (eapply Forall_impl; [|exact Hlev]); cbv beta;
      intros e He; unfold level_among in He; cbn [In] in He;
      unfold in_bucket_unknown, in_bucket_fatal, in_bucket_trace;
      destruct (level e); try reflexivity; intuition discriminate.
Qed.

Lemma Update_levels_witness :
  Forall (fun e => level e <> LogLevel.Critical)
    (entries (refreshed (session syslog_sample))) /\
  (detectedFormat (refreshed (session syslog_sample)) = LogFormat.Apache ->
   Forall (level_among [LogLevel.Unknown; LogLevel.Info; LogLevel.Warning;
                        LogLevel.Error])
     (entries (refreshed (session syslog_sample)))) /\
  (detectedFormat (refreshed (session syslog_sample)) = LogFormat.Syslog ->
   Forall (level_among [LogLevel.Error; LogLevel.Warning; LogLevel.Debug;
                        LogLevel.Info])
     (entries (refreshed (session syslog_sample))) /\
   unknownCount (stats (refreshed (session syslog_sample))) = 0 /\
   traceCount (stats (refreshed (session syslog_sample))) = 0 /\
   fatalCount (stats (refreshed (session syslog_sample))) = 0).
Proof.
  apply (Update_levels saturating (session syslog_sample)).
  vm_compute. reflexivity.
Defined.

(** *** The time range of the statistics *)

Lemma count_entry_timestamps (s : LogStatistics) (e : LogEntry) :
  firstTimestamp (count_entry s e) = firstTimestamp s /\
  lastTimestamp (count_entry s e) = lastTimestamp s.
Proof.
  unfold count_entry. cbv zeta.
  destruct (level e); goal_cases; split; reflexivity.
Qed.

Lemma fold_count_entry_timestamps (l : list LogEntry) :
  forall s,
    firstTimestamp (fold_left count_entry l s) = firstTimestamp s /\
    lastTimestamp (fold_left count_entry l s) = lastTimestamp s.
Proof.
  induction l as [|e l IH]; intros s; cbn [fold_left]; [auto|].
  destruct (IH (count_entry s e)) as [H1 H2].
  destruct (count_entry_timestamps s e) as [H3 H4].
  split; congruence.
Qed.

Lemma UpdateStatistics_first (l : list LogEntry) :
  firstTimestamp (UpdateStatistics l) = first_timestamp l [] /\
  lastTimestamp (UpdateStatistics l) = first_timestamp (rev l) [].
Proof.
  unfold UpdateStatistics. cbv zeta.
  destruct (fold_count_entry_timestamps l
              (set_totalLines LogStatistics_new
                 (to_uint32 (Z.of_nat (List.length l))))) as [H1 H2].
  cbn [firstTimestamp lastTimestamp set_totalLines LogStatistics_new]
    in H1, H2.
  destruct l as [|e l].
  - cbn [negb]. cbv iota. split; reflexivity.
  - cbn [negb]. cbv iota.
    cbn [firstTimestamp lastTimestamp set_firstTimestamp set_lastTimestamp].
    rewrite H1, H2. split; reflexivity.
Qed.

Lemma first_timestamp_none (l : list LogEntry) :
  first_timestamp l [] = [] <-> Forall no_timestamp l.
Proof.
  unfold no_timestamp. induction l as [|e l IH]; cbn [first_timestamp].
  - split; [constructor|reflexivity].
  - destruct (timestamp e) as [|c t] eqn:E; cbn [empty negb].
    + rewrite IH. split; [intros H; constructor; assumption|].
      intros H. apply Forall_cons_iff in H. apply H.
    + split; [discriminate|].
      intros H. apply Forall_cons_iff in H. destruct H as [H _].
      congruence.
Qed.

Lemma first_timestamp_found (pre post : list LogEntry) (e : LogEntry) :
  Forall no_timestamp pre -> timestamp e <> [] ->
  first_timestamp (pre ++ e :: post) [] = timestamp e.
Proof.
  unfold no_timestamp. intros Hpre He.
  induction Hpre as [|x pre Hx _ IH]; cbn [app first_timestamp].
  - destruct (timestamp e); [congruence|reflexivity].
  - rewrite Hx. cbn [empty negb]. exact IH.
Qed.

(** X7. The time range of the statistics: [firstTimestamp] is the timestamp
    of the first record that has one and [lastTimestamp] that of the last
    record that has one; each of them is empty exactly when no record has
    a timestamp. *)
Theorem UpdateStatistics_time_range (l : list LogEntry) :
  (firstTimestamp (UpdateStatistics l) = [] <-> Forall no_timestamp l) /\
  (lastTimestamp (UpdateStatistics l) = [] <-> Forall no_timestamp l) /\
  (forall pre e post,
      l = pre ++ e :: post -> Forall no_timestamp pre ->
      timestamp e <> [] ->
      firstTimestamp (UpdateStatistics l) = timestamp e) /\
  (forall pre e post,
      l = pre ++ e :: post -> Forall no_timestamp post ->
      timestamp e <> [] ->
      lastTimestamp (UpdateStatistics l) = timestamp e).
Proof.
  destruct (UpdateStatistics_first l) as [-> ->].
  split; [apply first_timestamp_none|].
  split; [rewrite first_timestamp_none; split; intros H;
          [rewrite <- (rev_involutive l)|]; apply Forall_rev; exact H|].
  split.
  - intros pre e post -> Hpre He. apply first_timestamp_found; assumption.
  - intros pre e post -> Hpost He.
    rewrite rev_app_distr. cbn [rev]. rewrite <- app_assoc. cbn [app].
    apply first_timestamp_found; [apply Forall_rev; exact Hpost|exact He].
Qed.

(** *** A refresh depends on the source alone *)

Lemma Update_same_source (platform : Platform)
    (this other this' : LOGFile) :
  Update platform this = Ret (true, this') ->
  obj other = obj this ->
  panelsMask other = panelsMask this ->
  Update platform other = Ret (true, this').
Proof.
  intros H Ho Hm.
  destruct (Update_true_parsed _ _ _ H) as [o [Hobj [Hsz [Hr [_ Ht]]]]].
  rewrite Hobj in Ho.
  destruct (Update_ready platform other o Ho Hsz) as [parsed [Hp [_ Hu]]].
  rewrite Hu, Ht. rewrite Hp in Hr. injection Hr as ->. rewrite Hm.
  reflexivity.
Qed.

(** X8. A refresh reads nothing of the session but its source and its panel
    mask: with any other format, records and statistics in place before
    the call, it succeeds or fails alike and, when it succeeds, leaves the
    same session. *)
Theorem Update_source_only (platform : Platform) (this : LOGFile)
    (format0 : LogFormat.t) (entries0 : list LogEntry)
    (stats0 : LogStatistics) :
  Update platform
    (mkLOGFile (obj this) format0 entries0 stats0 (panelsMask this)) =
  match Update platform this with
  | Ret (true, this') => Ret (true, this')
  | _ =>
      Ret (false,
           mkLOGFile (obj this) format0 entries0 stats0 (panelsMask this))
  end.
Proof.
  destruct (source_ready this) eqn:E.
  - unfold source_ready in E. destruct (obj this) as [o|] eqn:Ho;
      [|discriminate].
    apply negb_true_iff in E. apply Z.eqb_neq in E.
    destruct (Update_ready platform this o Ho E) as [p [_ [_ Hu]]].
    rewrite Hu.
    apply (Update_same_source platform this _ _ Hu).
    + cbn [obj]. symmetry. exact Ho.
    + reflexivity.
  - rewrite (Update_not_ready _ _ E).
    apply Update_not_ready. exact E.
Qed.



(** *** Panels *)

Lemma land_7_bit (id : Z) :
  0 <= id ->
  Z.land 7 (Z.shiftl 1 id) = if id <? 3 then Z.shiftl 1 id else 0.
Proof.
  intros Hid. destruct (Z.ltb_spec id 3) as [Hlt|Hge].
  - assert (Hc : id = 0 \/ id = 1 \/ id = 2) by lia.
    destruct Hc as [->|[->| ->]]; reflexivity.
  - apply Z.bits_inj'. intros n Hn.
    rewrite Z.land_spec, Z.bits_0.
    rewrite Z.shiftl_spec by exact Hn.
    destruct (Z.eq_dec n id) as [->|Hne].
    + replace 7 with (Z.ones 3) by reflexivity.
      rewrite Z.ones_spec_high by lia. reflexivity.
    + destruct (Z.lt_ge_cases n id).
      * rewrite (Z.testbit_neg_r 1) by lia. apply andb_false_r.
      * rewrite (Z.bits_above_log2 1 (n - id)); [apply andb_false_r|lia|].
        cbn. lia.
Qed.

(** X10. A session offers the Information, the Entries and the Errors panel
    and no other among the panels 0 to 63, those for which the shift of
    [HasPanel] is defined, from its construction on: no refresh changes
    what [HasPanel] answers, for any panel. *)
Theorem HasPanel_three (platform : Platform) (o : option Object) :
  (forall id,
      0 <= id < 64 ->
      (HasPanel platform (LOGFile_new o) id = true <->
       id = Panels.Information \/ id = Panels.Entries \/
       id = Panels.Errors)) /\
  (forall this this' b id,
      Update platform this = Ret (b, this') ->
      HasPanel platform this' id = HasPanel platform this id).
Proof.
  split.
  - intros id Hid. unfold HasPanel, LOGFile_new, to_uint8. cbv zeta.
    cbn [panelsMask].
    rewrite Z.mod_small by lia.
    destruct (Z.ltb_spec id 64) as [_|Hge]; [|lia].
    change (Z.lor (Z.lor (Z.lor 0 (Z.shiftl 1 Panels.Information))
                     (Z.shiftl 1 Panels.Entries))
              (Z.shiftl 1 Panels.Errors)) with 7.
    rewrite land_7_bit by lia.
    unfold Panels.Information, Panels.Entries, Panels.Errors.
    destruct (Z.ltb_spec id 3) as [Hlt|Hge].
    + assert (Hc : id = 0 \/ id = 1 \/ id = 2) by lia.
      split; [intros _; exact Hc|].
      destruct Hc as [->|[->| ->]]; reflexivity.
    + split; [discriminate|lia].
  - intros this this' b id H. unfold HasPanel.
    destruct b.
    + destruct (Update_true_parsed _ _ _ H) as [o' [_ [_ [_ [_ Ht]]]]].
      rewrite Ht. reflexivity.
    + destruct (source_ready this) eqn:E.
      * unfold source_ready in E. destruct (obj this) as [o'|] eqn:Ho;
          [|discriminate].
        apply negb_true_iff in E. apply Z.eqb_neq in E.
        destruct (Update_ready platform this o' Ho E) as [p [_ [_ Hu]]].
        rewrite Hu in H. discriminate.
      * rewrite (Update_not_ready _ _ E) in H. injection H as <-.
        reflexivity.
Qed.

(** From panel 64 on the answer is the platform's: where the shift takes
    its count modulo 64, the panels 64, 65, 66 and 128 are offered as
    the panels 0, 1, 2 and 0 are, and the panel 67 is not. *)
Lemma HasPanel_from_64 (o : option Object) :
  map (HasPanel saturating (LOGFile_new o)) [64; 65; 66; 67; 128] =
  [true; true; true; false; true].
Proof. reflexivity. Qed.

End SessionFacts.

(** ** What [Validate] accepts *)

Module Acceptance.

Import StringViewFacts Detection SyslogReference Plugin.

Lemma str_eqb_eq (s t : string_view) : str_eqb s t = true -> s = t.
Proof.
  revert t. induction s as [|c s IH]; intros [|d t] H; cbn [str_eqb] in H;
    try discriminate; [reflexivity|].
  apply andb_true_iff in H. destruct H as [H1 H2].
  apply Ascii.eqb_eq in H1. apply IH in H2. congruence.
Qed.

(** [Validate] in terms of its marks. *)
Lemma Validate_marks (buf extension : string_view) :
  Validate buf extension =
  allowed_extension extension &&
  (holds_one_of web_marks (the_sample buf) ||
   holds_one_of time_marks (the_sample buf) ||
   holds_one_of level_marks (the_sample buf)).
Proof.
  unfold Validate. cbv zeta. rewrite sample_is_prefix.
  fold (allowed_extension extension).
  generalize (the_sample buf). intros content.
  destruct (allowed_extension extension); cbn [andb];
    [|destruct (empty extension); reflexivity].
  unfold holds_one_of, web_marks, time_marks, level_marks, existsb.
  rewrite !orb_false_r. rewrite <- !orb_assoc_r.
  repeat match goal with
         | |- context [ if ?c then true else false ] =>
             replace (if c then true else false) with c
               by (destruct c; reflexivity)
         end.
  destruct (empty extension);
    repeat match goal with
           | |- context [ if ?c then true else ?d ] =>
               replace (if c then true else d) with (c || d)
                 by (destruct c; reflexivity)
           end;
    rewrite ?orb_false_r, <- ?orb_assoc_r; reflexivity.
Qed.

Lemma the_sample_idem (buf : string_view) :
  the_sample (the_sample buf) = the_sample buf.
Proof.
  unfold the_sample. rewrite firstn_firstn. rewrite Nat.min_id. reflexivity.
Qed.

Lemma the_sample_size (buf : string_view) : size (the_sample buf) < npos.
Proof.
  unfold the_sample, size, npos. rewrite length_firstn.
  pose proof (Nat.le_min_l 4096 (List.length buf)).
  assert (Z.of_nat 4096 = 4096) by reflexivity. lia.
Qed.

(** X11. [Validate] accepts a buffer only behind the extensions [.log],
    [.txt] and [.logs], written in lower case, and never an empty one;
    its answer depends on the first 4096 bytes only. *)
Theorem Validate_scope (buf extension : string_view) :
  Validate (the_sample buf) extension = Validate buf extension /\
  (Validate buf extension = true ->
   (extension = lit ".log" \/ extension = lit ".txt" \/
    extension = lit ".logs") /\ buf <> []).
Proof.
  split.
  - rewrite !Validate_marks, the_sample_idem. reflexivity.
  - rewrite Validate_marks. intros H.
    apply andb_true_iff in H. destruct H as [He Hm]. split.
    + unfold allowed_extension in He.
      apply orb_true_iff in He. destruct He as [He|He];
        [apply orb_true_iff in He; destruct He as [He|He]|];
        apply str_eqb_eq in He; auto.
    + intros ->. vm_compute in Hm. discriminate.
Qed.

(** *** Detected formats that [Validate] accepts *)

Lemma starts_with_app_l (a q : string_view) :
  forall s,
    starts_with s (a ++ q) = true ->
    starts_with (skipn (List.length a) s) q = true.
Proof.
  induction a as [|c a IH]; intros s H; [exact H|].
  destruct s as [|d s]; cbn [app starts_with] in H; [discriminate|].
  apply andb_true_iff in H. destruct H as [_ H].
  cbn [List.length skipn]. apply IH. exact H.
Qed.

Lemma starts_with_app_r (p b : string_view) :
  forall s, starts_with s (p ++ b) = true -> starts_with s p = true.
Proof.
  induction p as [|c p IH]; intros s H; [reflexivity|].
  destruct s as [|d s]; cbn [app starts_with] in *; [discriminate|].
  apply andb_true_iff in H. destruct H as [H1 H2].
  rewrite H1. cbn [andb]. apply IH. exact H2.
Qed.

(** A text that holds [a ++ p ++ b] holds [p]. *)
Lemma contains_inner (a p b s : string_view) :
  size s < npos ->
  contains s (a ++ p ++ b) = true -> contains s p = true.
Proof.
  intros Hs. rewrite !contains_occurs by exact Hs.
  intros H. apply existsb_exists in H. destruct H as [k [Hk Ho]].
  apply existsb_exists. exists (k + List.length a)%nat.
  unfold occurs_at in *.
  pose proof (starts_with_size _ _ Ho) as Hsz.
  unfold size in Hsz. rewrite length_skipn, !length_app in Hsz.
  apply in_seq in Hk. split.
  - apply in_seq. lia.
  - apply starts_with_app_l in Ho. rewrite skipn_skipn in Ho.
    rewrite Nat.add_comm. eapply starts_with_app_r. exact Ho.
Qed.

Lemma holds_one_of_incl (marks marks' : list string_view) (s : string_view) :
  incl marks marks' ->
  holds_one_of marks s = true -> holds_one_of marks' s = true.
Proof.
  unfold holds_one_of. intros Hi H.
  apply existsb_exists in H. destruct H as [m [Hm Hc]].
  apply existsb_exists. exists m. split; [apply Hi; exact Hm|exact Hc].
Qed.

(** X12. Behind the extensions [.log], [.txt] and [.logs], [Validate]
    accepts every buffer that [DetectLogFormat] reads as [Apache],
    [Syslog] or [Log4j]. *)
Theorem Validate_accepts_detected (buf extension : string_view) :
  extension = lit ".log" \/ extension = lit ".txt" \/
  extension = lit ".logs" ->
  DetectLogFormat buf = LogFormat.Apache \/
  DetectLogFormat buf = LogFormat.Syslog \/
  DetectLogFormat buf = LogFormat.Log4j ->
  Validate buf extension = true.
Proof.
  intros Hext Hd.
  assert (He : allowed_extension extension = true)
    by (destruct Hext as [->|[->| ->]]; reflexivity).
  rewrite Validate_marks, He. cbn [andb].
  rewrite DetectLogFormat_rules in Hd.
  pose proof (the_sample_size buf) as Hs.
  revert Hd Hs. generalize (the_sample buf). intros sample Hd Hs.
  unfold detection_rules, first_match in Hd.
  destruct (rule_WebAccess sample) eqn:E1.
  { (* a web access log *)
    unfold rule_WebAccess in E1. apply andb_true_iff in E1.
    destruct E1 as [_ E1].
    assert (Hw : holds_one_of web_marks sample = true).
    { apply (holds_one_of_incl
               [dquote :: lit " 200 "; dquote :: lit " 404 ";
                dquote :: lit " 500 "; lit "GET "; lit "POST "]).
      - intros m Hm. unfold web_marks. cbn [In] in *. tauto.
      - unfold holds_one_of, existsb. rewrite orb_false_r.
        rewrite <- !orb_assoc_r. exact E1. }
    rewrite Hw. reflexivity. }
  destruct (rule_WebError sample) eqn:E2.
  { destruct Hd as [Hd|[Hd|Hd]]; discriminate. }
  destruct (rule_Syslog sample) eqn:E3.
  { (* a month name followed by a space *)
    unfold rule_Syslog in E3. apply andb_true_iff in E3.
    destruct E3 as [E3 _].
    assert (Ht : holds_one_of time_marks sample = true).
    { refine (holds_one_of_incl _ _ _ _ E3).
      intros m Hm. unfold time_marks. cbn [In] in *. tauto. }
    rewrite Ht. rewrite orb_true_r. reflexivity. }
  destruct (rule_StructuredFramework sample) eqn:E4.
  { (* a severity in upper case, between spaces or brackets *)
    unfold rule_StructuredFramework in E4. apply andb_true_iff in E4.
    destruct E4 as [E4 _].
    apply existsb_exists in E4. destruct E4 as [m [Hm Hc]].
    assert (Hl : holds_one_of level_marks sample = true).
    { unfold holds_one_of. apply existsb_exists.
      cbn [In] in Hm.
      destruct Hm as [<-|[<-|[<-|[<-|[<-|[<-|[<-|[<-|[]]]]]]]]].
      - exists (lit "INFO"). split; [unfold level_marks; cbn [In]; tauto|].
        apply (contains_inner [" "%char] (lit "INFO") [" "%char] _ Hs Hc).
      - exists (lit "DEBUG"). split; [unfold level_marks; cbn [In]; tauto|].
        apply (contains_inner [" "%char] (lit "DEBUG") [" "%char] _ Hs Hc).
      - exists (lit "ERROR"). split; [unfold level_marks; cbn [In]; tauto|].
        apply (contains_inner [" "%char] (lit "ERROR") [" "%char] _ Hs Hc).
      - exists (lit "WARN"). split; [unfold level_marks; cbn [In]; tauto|].
        apply (contains_inner [" "%char] (lit "WARN") [" "%char] _ Hs Hc).
      - exists (lit "INFO"). split; [unfold level_marks; cbn [In]; tauto|].
        apply (contains_inner ["["%char] (lit "INFO") ["]"%char] _ Hs Hc).
      - exists (lit "DEBUG"). split; [unfold level_marks; cbn [In]; tauto|].
        apply (contains_inner ["["%char] (lit "DEBUG") ["]"%char] _ Hs Hc).
      - exists (lit "ERROR"). split; [unfold level_marks; cbn [In]; tauto|].
        apply (contains_inner ["["%char] (lit "ERROR") ["]"%char] _ Hs Hc).
      - exists (lit "WARN"). split; [unfold level_marks; cbn [In]; tauto|].
        apply (contains_inner ["["%char] (lit "WARN") ["]"%char] _ Hs Hc). }
    rewrite Hl. rewrite orb_true_r. reflexivity. }
  destruct (rule_JSON sample); destruct Hd as [Hd|[Hd|Hd]]; discriminate.
Qed.

Lemma Validate_accepts_detected_witness :
  Validate scenario_A (lit ".log") = true.
Proof.
  apply Validate_accepts_detected.
  - left. reflexivity.
  - left. vm_compute. reflexivity.
Defined.

End Acceptance.

(** ** The shape of the tokens *)

Module TokenShapes.

Import Tiling WordRuns.

Section Shapes.

Variable text : Text.
Let len : Z := Len text.
Hypothesis len_uint32 : len < two32.

Lemma slice_one (a : Z) : 0 <= a < len -> slice text a (a + 1) = [at16 text a].
Proof.
  intros H. unfold slice, at16.
  replace (Z.to_nat (a + 1 - a)) with 1%nat by lia.
  assert (Hlt : (Z.to_nat a < List.length text)%nat)
    by (unfold len, Len in H; lia).
  destruct (skipn (Z.to_nat a) text) as [|c rest] eqn:E.
  - apply (f_equal (@List.length _)) in E. rewrite length_skipn in E.
    cbn [List.length] in E. lia.
  - cbn [firstn]. f_equal.
    rewrite <- (firstn_skipn (Z.to_nat a) text) at 1.
    rewrite app_nth2 by (rewrite length_firstn; lia).
    rewrite length_firstn.
    replace (Z.to_nat a - Nat.min (Z.to_nat a) (List.length text))%nat
      with 0%nat by lia.
    rewrite E. reflexivity.
Qed.

Lemma slice_snoc (a b : Z) :
  0 <= a <= b -> b < len ->
  slice text a (b + 1) = slice text a b ++ [at16 text b].
Proof.
  intros H1 H2. rewrite <- (slice_join text a b (b + 1)) by lia.
  rewrite slice_one by lia. reflexivity.
Qed.

Lemma all_in_empty (p : char16 -> bool) (a : Z) : all_in text p a a.
Proof. intros i H. lia. Qed.

Lemma all_in_step (p : char16 -> bool) (a b c : Z) :
  p (at16 text a) = true -> b = a + 1 -> all_in text p b c ->
  all_in text p a c.
Proof.
  intros H1 -> H2 i Hi.
  destruct (Z.eq_dec i a) as [->|Hne]; [exact H1|apply H2; lia].
Qed.

(** [scan_word] passes word characters only. *)
Lemma scan_word_chars (fuel : nat) :
  forall pos,
    0 <= pos <= len ->
    all_in text is_word_char pos (scan_word fuel text len pos).
Proof.
  induction fuel as [|fuel IH]; intros pos Hp; cbn [scan_word].
  - apply all_in_empty.
  - destruct (Z.ltb_spec pos len) as [Hlt|Hge]; [|apply all_in_empty].
    destruct (is_word_char (at16 text pos)) eqn:E; [|apply all_in_empty].
    rewrite (inc_pos text len_uint32) by lia.
    apply (all_in_step _ pos (pos + 1)); [exact E|reflexivity|].
    apply IH. lia.
Qed.

Lemma has_char_snoc (c x : char16) (l : list char16) :
  has_char c (l ++ [x]) = has_char c l || (c =? x).
Proof.
  unfold has_char. rewrite existsb_app. cbn [existsb].
  rewrite orb_false_r. reflexivity.
Qed.

Lemma count_char_snoc (c x : char16) (l : list char16) :
  count_char c (l ++ [x]) = count_char c l + (if x =? c then 1 else 0).
Proof.
  unfold count_char. rewrite count_occ_app. cbn [count_occ].
  destruct (Z.eq_dec x c) as [E|E]; destruct (Z.eqb_spec x c);
    try contradiction; rewrite Nat2Z.inj_add; reflexivity.
Qed.

Lemma count_char_bound (c : char16) (a b : Z) :
  0 <= a <= b -> 0 <= count_char c (slice text a b) <= b - a.
Proof.
  intros H. unfold count_char.
  pose proof (count_occ_bound Z.eq_dec c (slice text a b)) as Hb.
  unfold slice in *. rewrite length_firstn in Hb. lia.
Qed.

(** The characters of the tests, as numbers. *)
Ltac char_codes :=
  change (ch "0") with 48 in *; change (ch "9") with 57 in *;
  change (ch ".") with 46 in *; change (ch ":") with 58 in *;
  change (ch "-") with 45 in *; change (ch "/") with 47 in *;
  change (ch "T") with 84 in *; change (ch "Z") with 90 in *;
  change (ch "+") with 43 in *.

Lemma number_char_spec (c : char16) :
  number_char c = true <->
  (48 <= c <= 57 \/ c = 46 \/ c = 58 \/ c = 45 \/ c = 47 \/ c = 84 \/
   c = 90 \/ c = 43).
Proof.
  unfold number_char. char_codes.
  rewrite !orb_true_iff, andb_true_iff, Z.geb_le, Z.leb_le, !Z.eqb_eq.
  tauto.
Qed.

Lemma scan_number_run (a : Z) (fuel : nat) :
  forall st,
    0 <= a <= n_pos st -> n_pos st <= len ->
    flags_of text a st ->
    let r := scan_number fuel text len st in
    flags_of text a r /\ all_in text number_char (n_pos st) (n_pos r).
Proof.
  induction fuel as [|fuel IH]; intros st Ha Hp Hf; cbn [scan_number].
  - cbv zeta. split; [exact Hf|apply all_in_empty].
  - destruct (Z.ltb_spec (n_pos st) len) as [Hlt|Hge].
    2:{ cbv zeta. split; [exact Hf|apply all_in_empty]. }
    pose proof (count_char_bound (ch ".") a (n_pos st) ltac:(lia)) as Hcb.
    pose proof (slice_snoc a (n_pos st) ltac:(lia) Hlt) as Hs.
    set (c := at16 text (n_pos st)) in *.
    assert (Hstep : forall st',
               n_pos st' = n_pos st + 1 ->
               (48 <= c <= 57 \/ c = 46 \/ c = 58 \/ c = 45 \/ c = 47 \/
                c = 84 \/ c = 90 \/ c = 43) ->
               flags_of text a st' ->
               flags_of text a (scan_number fuel text len st') /\
               all_in text number_char (n_pos st)
                 (n_pos (scan_number fuel text len st'))).
    { intros st' Hp' Hnc Hf'.
      destruct (IH st' ltac:(lia) ltac:(lia) Hf') as [H1 H2].
      split; [exact H1|].
      apply (all_in_step _ (n_pos st) (n_pos st'));
        [apply number_char_spec; exact Hnc|exact Hp'|exact H2]. }
    cbv zeta. fold c.
    rewrite (inc_pos text len_uint32) by lia.
    assert (Hexit : flags_of text a st /\
                    all_in text number_char (n_pos st) (n_pos st))
      by (split; [exact Hf|apply all_in_empty]).
    destruct Hf as [Hc [Hd Hn]].
    unfold flags_of in Hstep |- *. char_codes.
    destruct (Z.geb_spec c 48) as [G1|G1];
      destruct (Z.leb_spec c 57) as [G2|G2]; cbn [andb].
    all: destruct (Z.eqb_spec c 46) as [E1|E1].
    all: destruct (Z.eqb_spec c 58) as [E2|E2].
    all: destruct (Z.eqb_spec c 45) as [E3|E3].
    all: destruct (Z.eqb_spec c 47) as [E4|E4].
    all: destruct (Z.eqb_spec c 84) as [E5|E5].
    all: destruct (Z.eqb_spec c 90) as [E6|E6].
    all: destruct (Z.eqb_spec c 43) as [E7|E7].
    all: cbn [orb]; try lia.
    all: first
           [ exact Hexit
           | apply Hstep; [reflexivity|lia|];
             cbn [n_pos hasColon hasDash dotCount];
             rewrite Hs, !has_char_snoc, count_char_snoc;
             destruct (Z.eqb_spec 58 c); try lia;
             destruct (Z.eqb_spec 45 c); try lia;
             destruct (Z.eqb_spec c 46); try lia;
             rewrite ?orb_true_r, ?orb_false_r;
             rewrite ?add32_small by (unfold len in *; lia);
             repeat split; first [assumption|reflexivity|lia] ].
Qed.

Lemma slice_empty (a : Z) : slice text a a = [].
Proof. unfold slice. rewrite Z.sub_diag. reflexivity. Qed.

(** [lia] without the boolean facts of the context. *)
Ltac blia :=
  repeat match goal with
         | H : _ = true |- _ => clear H
         | H : _ = false |- _ => clear H
         | H : _ -> _ = false |- _ => clear H
         end;
  lia.

(** One pass of the loop body appends tokens of the five shapes only. *)
Lemma analyze_step_shape (pos : Z) (tokens : list Token) :
  0 <= pos < len ->
  match analyze_step text len pos tokens with
  | Continue pos' tokens' =>
      exists new, tokens' = tokens ++ new /\ Forall (token_shape text) new
  | Break => True
  end.
Proof.
  intros Hp. unfold analyze_step.
  destruct (skip_blanks_spec text len_uint32 (Z.to_nat (len - pos)) pos
              ltac:(blia) ltac:(blia)) as [Hr [_ Hstop]].
  fold len in Hr, Hstop |- *.
  set (r := skip_blanks _ _ _ _) in *.
  destruct (Z.geb_spec r len) as [Hge|Hlt]; [exact I|].
  specialize (Hstop Hlt).
  set (c := at16 text r) in *.
  (* line endings *)
  destruct ((c =? ch LF) || (c =? ch CR)) eqn:Enl.
  { exists []. rewrite app_nil_r. split; [reflexivity|constructor]. }
  (* brackets *)
  destruct ((c =? ch "[") || (c =? ch "]") || (c =? ch "(") || (c =? ch ")") ||
            (c =? ch "{") || (c =? ch "}") || (c =? ch "<") || (c =? ch ">"))
    eqn:Ebr.
  { rewrite (inc_pos text len_uint32 r) by (fold len; blia). unfold Add.
    eexists. split; [reflexivity|]. constructor; [|constructor].
    apply shape_bracket; cbn [tokenStart tokenEnd tokenType tokenColor];
      [exact Ebr|reflexivity|reflexivity|reflexivity]. }
  (* quoted strings *)
  destruct ((c =? ch dquote) || (c =? ch squote)) eqn:Equ.
  { rewrite (inc_pos text len_uint32 r) by (fold len; blia).
    destruct (scan_string_spec text len_uint32 (Z.to_nat (len - (r + 1))) c
                (r + 1) ltac:(fold len; blia) ltac:(fold len; blia))
      as [Hs Hend].
    fold len in Hs, Hend.
    set (r2 := scan_string _ _ _ _ _) in *.
    unfold Add. eexists. split; [reflexivity|]. constructor; [|constructor].
    destruct (Z.ltb_spec r2 len) as [H2|H2]; cbn [andb].
    - destruct (Z.eqb_spec (at16 text r2) c) as [Ec|Ec].
      + rewrite (inc_pos text len_uint32 r2) by (fold len; blia).
        apply shape_string; cbn [tokenStart tokenEnd tokenType tokenColor];
          [exact Equ| |reflexivity|reflexivity].
        left. split; [blia|]. replace (r2 + 1 - 1) with r2 by blia. exact Ec.
      + apply shape_string; cbn [tokenStart tokenEnd tokenType tokenColor];
          [exact Equ| |reflexivity|reflexivity].
        right. split; [blia|]. right.
        specialize (Hend H2). unfold is_line_end.
        destruct (Z.eqb_spec (at16 text r2) c); [contradiction|].
        cbn [negb andb] in Hend.
        destruct (at16 text r2 =? ch LF); [reflexivity|].
        destruct (at16 text r2 =? ch CR); [reflexivity|discriminate].
    - apply shape_string; cbn [tokenStart tokenEnd tokenType tokenColor];
        [exact Equ| |reflexivity|reflexivity].
      right. split; [blia|]. left. unfold len in *. blia. }
  (* numbers *)
  destruct ((c >=? ch "0") && (c <=? ch "9")) eqn:Edigit.
  { set (st0 := mkNumberScan r false false false 0 0).
    destruct (scan_number_spec text len_uint32 (Z.to_nat (len - r)) st0)
      as [Hn [_ Hend]]; cbn [n_pos st0]; try (fold len; blia).
    fold len in Hn, Hend. cbn [n_pos st0] in Hn.
    destruct (scan_number_run r (Z.to_nat (len - r)) st0) as [Hfl Hall];
      cbn [n_pos st0]; try blia.
    { unfold flags_of. cbn [n_pos hasColon hasDash dotCount st0].
      rewrite slice_empty. repeat split. }
    cbn [n_pos st0] in Hall.
    set (st := scan_number _ _ _ _) in *.
    destruct (if (dotCount st =? 3) && negb (hasColon st) && negb (hasDash st)
              then (TokenType.IPAddress, TokenColor.Keyword2)
              else if hasDash st || hasColon st
                   then (TokenType.Timestamp, TokenColor.Keyword)
                   else (TokenType.Number, TokenColor.Number))
      as [ty col] eqn:Ek.
    unfold Add. eexists. split; [reflexivity|]. constructor; [|constructor].
    apply shape_numeric; cbn [tokenStart tokenEnd tokenType tokenColor].
    - exact Edigit.
    - exact Hall.
    - exact Hend.
    - unfold numeric_kind. destruct Hfl as [F1 [F2 F3]].
      rewrite <- F1, <- F2, <- F3. symmetry. exact Ek. }
  (* words *)
  destruct (((c >=? ch "A") && (c <=? ch "Z")) ||
            ((c >=? ch "a") && (c <=? ch "z")) || (c =? ch "_")) eqn:Eword.
  { destruct (scan_word_spec text len_uint32 (Z.to_nat (len - r)) r
                ltac:(fold len; blia) ltac:(fold len; blia))
      as [Hw [_ Hend]].
    fold len in Hw, Hend.
    pose proof (scan_word_chars (Z.to_nat (len - r)) r ltac:(blia)) as Hall.
    set (r2 := scan_word _ _ _ _) in *.
    destruct (classify_word _) as [ty col] eqn:Ek.
    unfold Add. eexists. split; [reflexivity|]. constructor; [|constructor].
    apply shape_word; cbn [tokenStart tokenEnd tokenType tokenColor].
    - exact Eword.
    - exact Hall.
    - exact Hend.
    - rewrite <- Ek. unfold extract_word, slice.
      rewrite Z.min_l by blia. reflexivity. }
  (* any other character *)
  rewrite (inc_pos text len_uint32 r) by (fold len; blia). unfold Add.
  eexists. split; [reflexivity|]. constructor; [|constructor].
  apply shape_other; cbn [tokenStart tokenEnd tokenType tokenColor];
    try reflexivity; try assumption.
  unfold is_blank. fold c.
  apply orb_false_iff in Hstop. destruct Hstop as [S1 S2].
  apply orb_false_iff in Enl. destruct Enl as [N1 N2].
  rewrite S1, S2, N1, N2. reflexivity.
Qed.

(** The outer loop appends tokens of the five shapes only. *)
Lemma analyze_loop_shape (fuel : nat) :
  forall pos tokens,
    0 <= pos <= len ->
    len - pos < Z.of_nat fuel ->
    exists new,
      analyze_loop fuel text len pos tokens = Ret (tokens ++ new) /\
      Forall (token_shape text) new.
Proof.
  induction fuel as [|fuel IH]; intros pos tokens Hp Hf; [lia|].
  cbn [analyze_loop].
  destruct (Z.ltb_spec pos len) as [Hlt|Hge].
  - pose proof (analyze_step_spec text len_uint32 pos tokens
                  ltac:(fold len; lia)) as Hspec.
    pose proof (analyze_step_shape pos tokens ltac:(lia)) as Hshape.
    fold len in Hspec.
    destruct (analyze_step text len pos tokens) as [pos' tokens'|].
    + destruct Hspec as [n0 [_ [Hpos' _]]].
      destruct Hshape as [n1 [-> Hs1]].
      destruct (IH pos' (tokens ++ n1) ltac:(lia) ltac:(lia))
        as [n2 [Hr Hs2]].
      exists (n1 ++ n2). rewrite app_assoc. split; [exact Hr|].
      apply Forall_app. split; assumption.
    + exists []. rewrite app_nil_r. split; [reflexivity|constructor].
  - exists []. rewrite app_nil_r. split; [reflexivity|constructor].
Qed.

End Shapes.

Lemma AnalyzeText_shaped (text : Text) :
  Len text < two32 ->
  exists tokens,
    AnalyzeText text [] = Ret tokens /\ Forall (token_shape text) tokens.
Proof.
  intros Hlen. unfold AnalyzeText. cbv zeta.
  destruct (analyze_loop_shape text Hlen (S (List.length text)) 0 [])
    as [new [Hr Hs]].
  - pose proof (Zle_0_nat (List.length text)). unfold Len. lia.
  - unfold Len. lia.
  - exists new. split; [exact Hr|exact Hs].
Qed.

(** X13. Every token that [AnalyzeText] makes of a text has one of five
    shapes, decided by its first character: a bracket alone; a quoted
    string that ends with the quote it begins with, or else before a line
    ending or at the end of the text; a run
    of number characters that begins with a digit, cannot be extended and
    is an address, a timestamp or a number by the dots, colons and dashes
    it holds; a run of word characters that begins with a letter or an
    underscore, cannot be extended and is typed by the keyword chain; or
    any other character alone, as a separator. *)
Theorem AnalyzeText_token_shapes (text : Text) :
  Len text < two32 ->
  exists tokens,
    AnalyzeText text [] = Ret tokens /\ Forall (token_shape text) tokens.
Proof. apply AnalyzeText_shaped. Qed.

Lemma AnalyzeText_token_shapes_witness :
  exists tokens,
    AnalyzeText scenario_D [] = Ret tokens /\
    Forall (token_shape scenario_D) tokens.
Proof. apply (AnalyzeText_token_shapes scenario_D). vm_compute. reflexivity.
Defined.

(** *** Types, colours and names *)

Ltac in_list := cbn [In]; repeat first [left; reflexivity | right].

Lemma kind_pairs (type : Z) (color : TokenColor.t) :
  In (type, color)
    [(TokenType.Bracket, TokenColor.Operator);
     (TokenType.String, TokenColor.String);
     (TokenType.Separator, TokenColor.Operator);
     (TokenType.IPAddress, TokenColor.Keyword2);
     (TokenType.Timestamp, TokenColor.Keyword);
     (TokenType.Number, TokenColor.Number);
     (TokenType.LevelError, TokenColor.Error);
     (TokenType.LevelWarning, TokenColor.Keyword2);
     (TokenType.LevelInfo, TokenColor.Keyword);
     (TokenType.LevelDebug, TokenColor.Comment);
     (TokenType.HTTPMethod, TokenColor.Keyword2);
     (TokenType.Message, TokenColor.Word)] ->
  In type emitted_types /\ color = colour_of type /\
  GetTokenIDStringRepresentation type <> lit "Unknown".
Proof.
  intros H. cbn [In] in H.
  repeat match type of H with
         | _ \/ _ => destruct H as [H|H]
         end;
    try contradiction; injection H as <- <-;
    (split; [unfold emitted_types; in_list|]);
    (split; [reflexivity|vm_compute; discriminate]).
Qed.

Lemma numeric_kind_cases (run : list char16) :
  In (numeric_kind run)
    [(TokenType.IPAddress, TokenColor.Keyword2);
     (TokenType.Timestamp, TokenColor.Keyword);
     (TokenType.Number, TokenColor.Number)].
Proof.
  unfold numeric_kind.
  destruct (_ && _ && _); [in_list|]. destruct (_ || _); in_list.
Qed.

Lemma classify_word_cases (wordUpper : string_view) :
  In (classify_word wordUpper)
    [(TokenType.LevelError, TokenColor.Error);
     (TokenType.LevelWarning, TokenColor.Keyword2);
     (TokenType.LevelInfo, TokenColor.Keyword);
     (TokenType.LevelDebug, TokenColor.Comment);
     (TokenType.HTTPMethod, TokenColor.Keyword2);
     (TokenType.Message, TokenColor.Word)].
Proof.
  unfold classify_word.
  repeat match goal with
         | |- context [ if ?c then _ else _ ] => destruct c; [in_list|]
         end.
  in_list.
Qed.

Lemma token_shape_pair (text : Text) (t : Token) :
  token_shape text t ->
  In (tokenType t, tokenColor t)
    [(TokenType.Bracket, TokenColor.Operator);
     (TokenType.String, TokenColor.String);
     (TokenType.Separator, TokenColor.Operator);
     (TokenType.IPAddress, TokenColor.Keyword2);
     (TokenType.Timestamp, TokenColor.Keyword);
     (TokenType.Number, TokenColor.Number);
     (TokenType.LevelError, TokenColor.Error);
     (TokenType.LevelWarning, TokenColor.Keyword2);
     (TokenType.LevelInfo, TokenColor.Keyword);
     (TokenType.LevelDebug, TokenColor.Comment);
     (TokenType.HTTPMethod, TokenColor.Keyword2);
     (TokenType.Message, TokenColor.Word)].
Proof.
  intros [Hb He Ht Hc|Hq Hd Ht Hc|Hd Ha He Hk|Hw Ha He Hk|_ _ _ _ _ He Ht Hc].
  - rewrite Ht, Hc. in_list.
  - rewrite Ht, Hc. in_list.
  - rewrite Hk.
    pose proof (numeric_kind_cases
                  (slice text (tokenStart t) (tokenEnd t))) as H.
    cbn [In] in H |- *. tauto.
  - rewrite Hk.
    pose proof (classify_word_cases
                  (upper_word (slice text (tokenStart t) (tokenEnd t)))) as H.
    cbn [In] in H |- *. tauto.
  - rewrite Ht, Hc. in_list.
Qed.

(** X14. The tokens of a text have twelve of the sixteen token types, never
    [Level], [Source], [HTTPStatus] or [URL]; the colour of a token is
    decided by its type, and [GetTokenIDStringRepresentation] has a name
    other than Unknown for it. *)
Theorem AnalyzeText_token_kinds (text : Text) :
  Len text < two32 ->
  exists tokens,
    AnalyzeText text [] = Ret tokens /\
    Forall (fun t => In (tokenType t) emitted_types /\
                     tokenColor t = colour_of (tokenType t) /\
                     GetTokenIDStringRepresentation (tokenType t) <>
                     lit "Unknown") tokens.
Proof.
  intros Hlen. destruct (AnalyzeText_shaped text Hlen) as [tokens [Hr Hs]].
  exists tokens. split; [exact Hr|].
  eapply Forall_impl; [|exact Hs]. cbv beta. intros t Ht.
  apply kind_pairs. apply (token_shape_pair text). exact Ht.
Qed.

Lemma AnalyzeText_token_kinds_witness :
  exists tokens,
    AnalyzeText scenario_D [] = Ret tokens /\
    Forall (fun t => In (tokenType t) emitted_types /\
                     tokenColor t = colour_of (tokenType t) /\
                     GetTokenIDStringRepresentation (tokenType t) <>
                     lit "Unknown") tokens.
Proof. apply (AnalyzeText_token_kinds scenario_D). vm_compute. reflexivity.
Defined.

(** *** Character classes *)

(** Every character literal of the goal and the context as its code. *)
Ltac all_codes :=
  repeat match goal with
         | |- context [ ch ?a ] =>
             let v := eval vm_compute in (ch a) in change (ch a) with v in *
         | H : context [ ch ?a ] |- _ =>
             let v := eval vm_compute in (ch a) in change (ch a) with v in *
         end.

(** Decide the tests of the goal that the context settles. *)
Ltac settle_tests :=
  repeat match goal with
         | |- context [ ?x =? ?k ] =>
             destruct (Z.eqb_spec x k); [lia|]
         | |- context [ ?x >=? ?k ] =>
             first [ destruct (Z.geb_spec x k); [lia|]
                   | destruct (Z.geb_spec x k); [|lia] ]
         | |- context [ ?x <=? ?k ] =>
             first [ destruct (Z.leb_spec x k); [lia|]
                   | destruct (Z.leb_spec x k); [|lia] ]
         end;
  cbn [orb andb].

Lemma class_of_bracket (c : char16) :
  is_bracket c = true -> CharType.GetCharType c = CharType.Bracket.
Proof.
  unfold is_bracket. all_codes.
  rewrite !orb_true_iff, !Z.eqb_eq. intros H.
  decompose [or] H; subst c; reflexivity.
Qed.

Lemma class_of_quote (c : char16) :
  is_quote c = true -> CharType.GetCharType c = CharType.Quote.
Proof.
  unfold is_quote. all_codes.
  rewrite !orb_true_iff, !Z.eqb_eq. intros H.
  decompose [or] H; subst c; reflexivity.
Qed.

Lemma class_of_digit (c : char16) :
  is_digit c = true -> CharType.GetCharType c = CharType.Digit.
Proof.
  unfold is_digit. all_codes.
  rewrite andb_true_iff, Z.geb_le, Z.leb_le. intros H.
  unfold CharType.GetCharType. all_codes. settle_tests. reflexivity.
Qed.

Lemma class_of_word_start (c : char16) :
  is_word_start c = true -> CharType.GetCharType c = CharType.Word.
Proof.
  intros H. apply is_word_start_range in H.
  unfold CharType.GetCharType. all_codes. settle_tests. reflexivity.
Qed.

Lemma class_of_other (c : char16) :
  is_blank c = false -> is_bracket c = false -> is_quote c = false ->
  is_digit c = false ->
  CharType.GetCharType c = CharType.Separator \/
  CharType.GetCharType c = CharType.Punctuation \/
  CharType.GetCharType c = CharType.Word.
Proof.
  unfold is_blank, is_bracket, is_quote, is_digit. all_codes.
  rewrite !orb_false_iff, andb_false_iff, !Z.eqb_neq, Z.geb_leb,
    !Z.leb_gt.
  intros H1 H2 H3 H4.
  unfold CharType.GetCharType. all_codes.
  destruct (Z.eqb_spec c 32); [lia|].
  destruct (Z.eqb_spec c 9); [lia|].
  destruct (Z.eqb_spec c 10); [lia|].
  destruct (Z.eqb_spec c 13); [lia|].
  destruct (Z.eqb_spec c 91); [lia|].
  destruct (Z.eqb_spec c 93); [lia|].
  destruct (Z.eqb_spec c 40); [lia|].
  destruct (Z.eqb_spec c 41); [lia|].
  destruct (Z.eqb_spec c 123); [lia|].
  destruct (Z.eqb_spec c 125); [lia|].
  destruct (Z.eqb_spec c 60); [lia|].
  destruct (Z.eqb_spec c 62); [lia|].
  destruct (Z.eqb_spec c 34); [lia|].
  destruct (Z.eqb_spec c 39); [lia|].
  cbn [orb].
  assert (Hd : (c >=? 48) && (c <=? 57) = false).
  { destruct (Z.geb_spec c 48); destruct (Z.leb_spec c 57); try reflexivity.
    lia. }
  rewrite Hd.
  repeat match goal with
         | |- context [ if ?b then _ else _ ] => destruct b; [tauto|]
         end.
  tauto.
Qed.

(** X15. The class that [GetCharType] gives to the first character of a token
    allows the type of the token: a digit begins an address, a timestamp
    or a number, a bracket a bracket token, a quote a string, a separator
    or punctuation character a separator token, a character of the class
    Word a word or a separator token; no token begins with a character of
    the classes Space and NewLine. *)
Theorem AnalyzeText_first_characters (text : Text) :
  Len text < two32 ->
  exists tokens,
    AnalyzeText text [] = Ret tokens /\
    Forall (fun t =>
              In (tokenType t)
                (class_kinds
                   (CharType.GetCharType (at16 text (tokenStart t)))))
      tokens.
Proof.
  intros Hlen. destruct (AnalyzeText_shaped text Hlen) as [tokens [Hr Hs]].
  exists tokens. split; [exact Hr|].
  eapply Forall_impl; [|exact Hs]. cbv beta.
  intros t [Hb He Ht Hc|Hq Hd Ht Hc|Hd Ha He Hk|Hw Ha He Hk
           |Hbl Hbr Hqu Hdi Hws He Ht Hc].
  - rewrite (class_of_bracket _ Hb), Ht. in_list.
  - rewrite (class_of_quote _ Hq), Ht. in_list.
  - rewrite (class_of_digit _ Hd).
    pose proof (numeric_kind_cases
                  (slice text (tokenStart t) (tokenEnd t))) as H.
    rewrite <- Hk in H. cbn [In] in H.
    decompose [or] H; try contradiction;
      match goal with
      | E : (_, _) = (_, _) |- _ => injection E as E _; rewrite <- E
      end; in_list.
  - rewrite (class_of_word_start _ Hw).
    pose proof (classify_word_cases
                  (upper_word (slice text (tokenStart t) (tokenEnd t)))) as H.
    rewrite <- Hk in H. cbn [In] in H.
    decompose [or] H; try contradiction;
      match goal with
      | E : (_, _) = (_, _) |- _ => injection E as E _; rewrite <- E
      end; in_list.
  - rewrite Ht.
    destruct (class_of_other _ Hbl Hbr Hqu Hdi) as [E|[E|E]]; rewrite E;
      in_list.
Qed.

Lemma AnalyzeText_first_characters_witness :
  exists tokens,
    AnalyzeText scenario_D [] = Ret tokens /\
    Forall (fun t =>
              In (tokenType t)
                (class_kinds
                   (CharType.GetCharType (at16 scenario_D (tokenStart t)))))
      tokens.
Proof.
  apply (AnalyzeText_first_characters scenario_D). vm_compute. reflexivity.
Defined.

(** *** Blanks *)

Lemma is_word_char_spec (c : char16) :
  is_word_char c = true ->
  65 <= c <= 90 \/ 97 <= c <= 122 \/ 48 <= c <= 57 \/ c = 95 \/ c = 45 \/
  c = 46.
Proof.
  unfold is_word_char. all_codes.
  rewrite !orb_true_iff, !andb_true_iff, !Z.geb_le, !Z.leb_le, !Z.eqb_eq.
  tauto.
Qed.

Lemma not_blank (c : char16) :
  c <> 32 -> c <> 9 -> c <> 10 -> c <> 13 -> is_blank c = false.
Proof.
  intros H1 H2 H3 H4. unfold is_blank. all_codes. settle_tests. reflexivity.
Qed.

(** X16. A token that is no quoted string holds neither a space nor a tab nor
    a line ending. *)
Theorem AnalyzeText_blanks_in_strings_only (text : Text) :
  Len text < two32 ->
  exists tokens,
    AnalyzeText text [] = Ret tokens /\
    Forall (fun t =>
              tokenType t <> TokenType.String ->
              all_in text (fun c => negb (is_blank c))
                (tokenStart t) (tokenEnd t)) tokens.
Proof.
  intros Hlen. destruct (AnalyzeText_shaped text Hlen) as [tokens [Hr Hs]].
  exists tokens. split; [exact Hr|].
  eapply Forall_impl; [|exact Hs]. cbv beta.
  intros t [Hb He Ht Hc|Hq Hd Ht Hc|Hd Ha He Hk|Hw Ha He Hk
           |Hbl Hbr Hqu Hdi Hws He Ht Hc] Hns i Hi.
  - replace i with (tokenStart t) by lia.
    unfold is_bracket in Hb. all_codes.
    rewrite !orb_true_iff, !Z.eqb_eq in Hb.
    rewrite not_blank; [reflexivity|lia|lia|lia|lia].
  - contradiction.
  - specialize (Ha i Hi). apply number_char_spec in Ha.
    rewrite not_blank; [reflexivity|lia|lia|lia|lia].
  - specialize (Ha i Hi). apply is_word_char_spec in Ha.
    rewrite not_blank; [reflexivity|lia|lia|lia|lia].
  - replace i with (tokenStart t) by lia. rewrite Hbl. reflexivity.
Qed.

Lemma AnalyzeText_blanks_in_strings_only_witness :
  exists tokens,
    AnalyzeText scenario_D [] = Ret tokens /\
    Forall (fun t =>
              tokenType t <> TokenType.String ->
              all_in scenario_D (fun c => negb (is_blank c))
                (tokenStart t) (tokenEnd t)) tokens.
Proof.
  apply (AnalyzeText_blanks_in_strings_only scenario_D).
  vm_compute. reflexivity.
Defined.

(** *** The sink *)

Lemma analyze_step_appends (text : Text) (len pos : Z) (tokens : list Token) :
  analyze_step text len pos tokens =
  match analyze_step text len pos [] with
  | Continue pos' new => Continue pos' (tokens ++ new)
  | Break => Break
  end.
Proof.
  unfold analyze_step, Add. cbv zeta.
  repeat match goal with
         | |- context [ if ?c then _ else _ ] =>
             lazymatch c with
             | true => fail
             | false => fail
             | _ => destruct c
             end
         | |- context [ classify_word ?w ] => destruct (classify_word w)
         end;
    try rewrite app_nil_r; reflexivity.
Qed.

Lemma analyze_loop_appends (text : Text) (len : Z) (fuel : nat) :
  forall pos tokens,
    analyze_loop fuel text len pos tokens =
    (new <- analyze_loop fuel text len pos [] ;; Ret (tokens ++ new)).
Proof.
  induction fuel as [|fuel IH]; intros pos tokens; [reflexivity|].
  cbn [analyze_loop].
  destruct (pos <? len); [|cbn [bind]; rewrite app_nil_r; reflexivity].
  rewrite (analyze_step_appends text len pos tokens).
  destruct (analyze_step text len pos []) as [pos' new|].
  - rewrite (IH pos' (tokens ++ new)). rewrite (IH pos' new).
    destruct (analyze_loop fuel text len pos' []) as [r| |]; cbn [bind];
      [rewrite app_assoc|..]; reflexivity.
  - cbn [bind]. rewrite app_nil_r. reflexivity.
Qed.

(** X17. [AnalyzeText] only appends to the token list it is given: the tokens
    that were there stay, in place and unchanged, and those it adds are
    the ones it yields on an empty list. *)
Theorem AnalyzeText_appends (text : Text) (tokens : list Token) :
  AnalyzeText text tokens =
  (new <- AnalyzeText text [] ;; Ret (tokens ++ new)).
Proof. unfold AnalyzeText. cbv zeta. apply analyze_loop_appends. Qed.

End TokenShapes.

(** ** The rows of the list panels *)

Module PanelRows.

Import PanelViews.

Lemma fold_AddItem (A : Type) (row : A -> Row) (l : list A) :
  forall acc : ListView,
    fold_left (fun list x => AddItem list (row x)) l acc = acc ++ map row l.
Proof.
  induction l as [|x l IH]; intros acc; cbn [fold_left map].
  - rewrite app_nil_r. reflexivity.
  - rewrite IH. unfold AddItem. rewrite <- app_assoc. reflexivity.
Qed.

Lemma firstn_min_length (A : Type) (l : list A) (n : Z) :
  0 <= n ->
  firstn (Z.to_nat (Z.min (Z.of_nat (List.length l)) n)) l =
  firstn (Z.to_nat n) l.
Proof.
  intros Hn.
  destruct (Z.le_gt_cases (Z.of_nat (List.length l)) n) as [H|H].
  - rewrite Z.min_l by exact H. rewrite Nat2Z.id.
    rewrite firstn_all. symmetry. apply firstn_all2. lia.
  - rewrite Z.min_r by lia. reflexivity.
Qed.

(** X18. The Entries panel lists the records in their order, one row each,
    up to [MAX_DISPLAY_ENTRIES] of them; when there are more, and only
    then, one more row says how many there are. *)
Theorem Entries_PopulateList_rows (entries : list LogEntry) :
  Entries_PopulateList entries =
  map entries_row (firstn (Z.to_nat MAX_DISPLAY_ENTRIES) entries) ++
  (if Z.of_nat (List.length entries) >? MAX_DISPLAY_ENTRIES
   then [entries_notice (Z.of_nat (List.length entries))]
   else []) /\
  Z.of_nat (List.length (Entries_PopulateList entries)) =
  Z.min (Z.of_nat (List.length entries)) (MAX_DISPLAY_ENTRIES + 1).
Proof.
  assert (E : Entries_PopulateList entries =
              map entries_row (firstn (Z.to_nat MAX_DISPLAY_ENTRIES) entries)
              ++ (if Z.of_nat (List.length entries) >? MAX_DISPLAY_ENTRIES
                  then [entries_notice (Z.of_nat (List.length entries))]
                  else [])).
  { unfold Entries_PopulateList. cbv zeta.
    rewrite firstn_min_length by (unfold MAX_DISPLAY_ENTRIES; lia).
    rewrite (fold_AddItem LogEntry entries_row). cbn [app].
    destruct (_ >? _); [reflexivity|rewrite app_nil_r; reflexivity]. }
  split; [exact E|]. rewrite E.
  rewrite length_app, length_map, length_firstn.
  unfold MAX_DISPLAY_ENTRIES.
  destruct (Z.gtb_spec (Z.of_nat (List.length entries)) 10000);
    cbn [List.length]; lia.
Qed.

Lemma errors_loop_rows (entries : list LogEntry) :
  forall (errorCount : Z) (list : ListView),
    0 <= errorCount <= MAX_DISPLAY_ERRORS ->
    let q := filter is_problem entries in
    let room := Z.to_nat (MAX_DISPLAY_ERRORS - errorCount) in
    errors_loop entries errorCount list =
    (errorCount + Z.of_nat (Nat.min (List.length q) room),
     list ++ map errors_row (firstn room q) ++
     (if (room <? List.length q)%nat then [errors_notice] else [])).
Proof.
  induction entries as [|e es IH]; intros k list Hk; cbv zeta.
  - cbn [errors_loop filter List.length Nat.min map app].
    rewrite firstn_nil. cbn [map app Nat.ltb Nat.leb].
    destruct (Z.to_nat (MAX_DISPLAY_ERRORS - k)); cbn [Nat.ltb Nat.leb];
      rewrite app_nil_r; f_equal; lia.
  - cbn [errors_loop filter].
    change (match level e with
            | LogLevel.Error | LogLevel.Warning | LogLevel.Fatal
            | LogLevel.Critical => true
            | _ => false
            end) with (is_problem e).
    destruct (is_problem e).
    + destruct (Z.geb_spec k MAX_DISPLAY_ERRORS) as [Hge|Hlt].
      * replace (Z.to_nat (MAX_DISPLAY_ERRORS - k)) with 0%nat by lia.
        cbn [firstn map app List.length Nat.min Nat.ltb Nat.leb].
        unfold AddItem. f_equal. lia.
      * rewrite add32_small by (unfold MAX_DISPLAY_ERRORS, two32 in *; lia).
        rewrite (IH (k + 1) (AddItem list _) ltac:(lia)). cbv zeta.
        replace (Z.to_nat (MAX_DISPLAY_ERRORS - k))
          with (S (Z.to_nat (MAX_DISPLAY_ERRORS - (k + 1)))) by lia.
        set (room := Z.to_nat (MAX_DISPLAY_ERRORS - (k + 1))).
        cbn [firstn map List.length Nat.min].
        change (S room <? S (List.length (filter is_problem es)))%nat
          with (room <? List.length (filter is_problem es))%nat.
        unfold AddItem. rewrite <- app_assoc. cbn [app].
        f_equal. lia.
    + apply (IH k list Hk).
Qed.

(** X19. The Errors panel lists the records of severity [Error], [Warning],
    [Fatal] or [Critical] in their order, one row each, up to
    [MAX_DISPLAY_ERRORS] of them; when there are more, and only then, one
    more row says so; when there is none, its only row says that. *)
Theorem Errors_PopulateList_rows (entries : list LogEntry) :
  Errors_PopulateList entries =
  match filter is_problem entries with
  | [] => [errors_none]
  | _ :: _ =>
      map errors_row
        (firstn (Z.to_nat MAX_DISPLAY_ERRORS) (filter is_problem entries)) ++
      (if Z.of_nat (List.length (filter is_problem entries)) >?
          MAX_DISPLAY_ERRORS
       then [errors_notice] else [])
  end.
Proof.
  unfold Errors_PopulateList. cbv zeta.
  rewrite (errors_loop_rows entries 0 [])
    by (unfold MAX_DISPLAY_ERRORS; lia).
  cbv zeta. rewrite Z.sub_0_r. cbn [app].
  set (q := filter is_problem entries).
  assert (Hroom : (0 < Z.to_nat MAX_DISPLAY_ERRORS)%nat)
    by (unfold MAX_DISPLAY_ERRORS; lia).
  destruct q as [|e q'].
  - cbn [List.length Nat.min]. rewrite firstn_nil.
    cbn [map app]. change (0 + Z.of_nat 0 =? 0) with true. cbv iota.
    destruct (Z.to_nat MAX_DISPLAY_ERRORS); [lia|]. reflexivity.
  - destruct (Z.eqb_spec
                (0 + Z.of_nat (Nat.min (List.length (e :: q'))
                                 (Z.to_nat MAX_DISPLAY_ERRORS))) 0)
      as [E|_].
    { cbn [List.length] in E. lia. }
    f_equal.
    destruct (Nat.ltb_spec (Z.to_nat MAX_DISPLAY_ERRORS)
                (List.length (e :: q')));
      destruct (Z.gtb_spec (Z.of_nat (List.length (e :: q')))
                  MAX_DISPLAY_ERRORS); try reflexivity; lia.
Qed.

End PanelRows.

(** ** The records of the generic and of the structured-framework parser *)

Module KeywordRecords.

Import StringViewFacts ParserTotality LineLoop Refresh SyslogReference.
Import Scenarios RefreshFacts LineRecords SessionFacts Acceptance.

(** *** Lines and what the loop hands to a body *)

Lemma split_lines_size (s : string_view) :
  Forall (fun l => size l <= size s) (split_lines s).
Proof.
  induction s as [|c s IH]; cbn [split_lines].
  - constructor; [lia|constructor].
  - rewrite size_cons.
    assert (Hw : Forall (fun l => size l <= size s + 1) (split_lines s)).
    { eapply Forall_impl; [|exact IH]. cbv beta. intros l Hl. lia. }
    destruct (Ascii.eqb c LF).
    + constructor; [|exact Hw]. rewrite size_nil.
      pose proof (size_nonneg s). lia.
    + destruct (split_lines s) as [|l ls].
      * constructor; [|constructor]. rewrite size_cons, size_nil.
        pose proof (size_nonneg s). lia.
      * apply Forall_cons_iff in IH. destruct IH as [Hl Hls].
        apply Forall_cons_iff in Hw. destruct Hw as [_ Hw].
        constructor; [rewrite size_cons; lia|exact Hw].
Qed.

Lemma strip_cr_facts (l : string_view) :
  size (strip_cr l) <= size l /\ (~ In LF l -> ~ In LF (strip_cr l)).
Proof.
  unfold strip_cr. destruct (_ && _); [|split; [lia|auto]].
  split.
  - unfold size. rewrite length_firstn. lia.
  - intros H Hin. apply H.
    rewrite <- (firstn_skipn (List.length l - 1) l).
    apply in_or_app. left. exact Hin.
Qed.

(** What holds of the answers of the body on the lines holds of the
    records. *)
Lemma records_entries (body : string_view -> LogEntry -> Exc LogEntry)
    (P : LogEntry -> Prop) (bound : Z) :
  (forall line entry e,
      line <> [] -> ~ In LF line -> size line <= bound ->
      level entry = LogLevel.Unknown ->
      body line entry = Ret e -> P e) ->
  forall (lines : list string_view) (start num : Z)
         (entries r : list LogEntry),
    Forall (fun l => ~ In LF l /\ size l <= bound) lines ->
    records body lines start num entries = Ret r ->
    Forall P entries -> Forall P r.
Proof.
  intros Hbody.
  induction lines as [|l ls IH]; intros start num entries r Hl H HP;
    cbn [records] in H.
  - injection H as <-. exact HP.
  - apply Forall_cons_iff in Hl. destruct Hl as [[Hno Hsz] Hls].
    match type of H with
    | bind ?m _ = _ => destruct m as [entries'| |] eqn:E; try discriminate
    end.
    cbn [bind] in H. apply (IH _ _ _ _ Hls H).
    destruct (records_head _ _ _ _ _ _ E) as [[_ ->]|[e [Ht [-> Hb]]]];
      [exact HP|].
    apply Forall_app. split; [exact HP|]. constructor; [|constructor].
    destruct (strip_cr_facts l) as [S1 S2].
    apply (Hbody (strip_cr l) (new_entry start (start + size l) num) e);
      try assumption.
    + unfold has_text in Ht. intros Hnil. rewrite Hnil in Ht. discriminate.
    + apply S2. exact Hno.
    + lia.
    + reflexivity.
Qed.

Lemma Update_records_of_lines (platform : Platform)
    (this this' : LOGFile) (P : LogEntry -> Prop) :
  Update platform this = Ret (true, this') ->
  (forall content line entry e,
      line <> [] -> ~ In LF line -> size line <= MAX_PARSE_SIZE ->
      level entry = LogLevel.Unknown ->
      body_of platform content (detectedFormat this') line entry = Ret e ->
      P e) ->
  Forall P (entries this').
Proof.
  intros H Hbody.
  destruct (Update_true_parsed _ _ _ H) as [o [Ho [_ [Hr [_ Ht]]]]].
  assert (Hf : detectedFormat this' = DetectLogFormat (parsed_prefix o))
    by (rewrite Ht; reflexivity).
  rewrite Hf in Hbody.
  rewrite run_parser_by_lines_eq in Hr.
  refine (records_entries _ P MAX_PARSE_SIZE (Hbody (parsed_prefix o))
            _ _ _ _ _ _ Hr _);
    [|constructor].
  pose proof (split_lines_no_LF (parsed_prefix o)) as H1.
  pose proof (split_lines_size (parsed_prefix o)) as H2.
  pose proof (parsed_prefix_size o) as H3.
  apply Forall_forall. intros l Hl.
  rewrite Forall_forall in H1, H2. split; [apply H1; exact Hl|].
  specialize (H2 l Hl). lia.
Qed.

(** *** The generic parser *)

Lemma generic_line_level (line : string_view) (entry e : LogEntry) :
  size line < npos ->
  generic_line line entry = Ret e ->
  level e = keyword_level severity_keywords line.
Proof.
  intros Hsz H. unfold generic_line in H. cbv zeta in H.
  match type of H with
  | bind ?m _ = _ => destruct m as [e1| |] eqn:E1; try discriminate
  end.
  cbn [bind] in H. injection H as <-.
  assert (H1 : level e1 = LogLevel.Unknown).
  { ret_cases; subst; entry_simpl; reflexivity. }
  rewrite !(contains_upper_nocase line) by exact Hsz.
  unfold severity_keywords, keyword_level, existsb.
  rewrite !orb_false_r, <- !orb_assoc.
  unfold lit. cbn [list_ascii_of_string].
  goal_cases; entry_simpl; first [reflexivity|exact H1].
Qed.

(** X20. The records of a document that the generic parser reads, whatever
    its format but [Apache], [Syslog] and [Log4j]: the message is the line
    of the record, not empty and without line feed, and the severity is
    that of the first keyword row, in the order of precedence FATAL or
    CRITICAL, ERROR or EXCEPTION or FAIL, WARN, DEBUG, TRACE, INFO, that
    has a keyword in the message, letter case ignored; [Unknown] when
    there is none. *)
Theorem Update_generic_records (platform : Platform)
    (this this' : LOGFile) :
  Update platform this = Ret (true, this') ->
  read_by_generic (detectedFormat this') = true ->
  Forall (fun e => message e <> [] /\ ~ In LF (message e) /\
                   level e = keyword_level severity_keywords (message e))
    (entries this').
Proof.
  intros H Hg.
  apply (Update_records_of_lines platform this this' _ H).
  intros content line entry e Hne Hno Hsz _ Hb.
  assert (Hbody : generic_line line entry = Ret e).
  { destruct (detectedFormat this'); try discriminate; exact Hb. }
  rewrite (generic_line_message _ _ _ Hbody).
  split; [exact Hne|]. split; [exact Hno|].
  assert (Hlt : size line < npos)
    by (unfold MAX_PARSE_SIZE, npos in *; lia).
  apply (generic_line_level line entry e Hlt Hbody).
Qed.

Lemma Update_generic_records_witness :
  Forall (fun e => message e <> [] /\ ~ In LF (message e) /\
                   level e = keyword_level severity_keywords (message e))
    (entries (refreshed (session generic_sample))).
Proof.
  apply (Update_generic_records saturating (session generic_sample)).
  - vm_compute. reflexivity.
  - vm_compute. reflexivity.
Defined.

(** *** The structured-framework parser *)

Lemma log4j_find_level_among (remaining : string_view) (e e' : LogEntry) :
  log4j_find_level log4j_levels remaining e = Ret e' ->
  level e' = level e \/
  level_among [LogLevel.Trace; LogLevel.Debug; LogLevel.Info;
               LogLevel.Warning; LogLevel.Error; LogLevel.Fatal] e'.
Proof.
  unfold log4j_levels, level_among. cbn [log4j_find_level]. cbv zeta.
  intros H.
  repeat match type of H with
         | (if ?c then _ else _) = _ =>
             destruct c;
             [ret_cases; subst; entry_simpl; right; cbn [In];
              repeat first [left; reflexivity | right]|]
         end.
  injection H as <-. left. reflexivity.
Qed.

Lemma log4j_line_level_among (line : string_view) (e e' : LogEntry) :
  log4j_line line e = Ret e' ->
  level_among [LogLevel.Unknown; LogLevel.Trace; LogLevel.Debug;
               LogLevel.Info; LogLevel.Warning; LogLevel.Error;
               LogLevel.Fatal] e'.
Proof.
  intros H. unfold log4j_line in H. cbv zeta in H.
  match type of H with
  | bind ?m _ = _ => destruct m as [[t e1]| |] eqn:E1; try discriminate
  end.
  cbn [bind] in H.
  match type of H with
  | bind ?m _ = _ => destruct m as [remaining| |]; try discriminate
  end.
  cbn [bind] in H.
  destruct (log4j_find_level _ _ _) as [e2| |] eqn:E2; try discriminate.
  cbn [bind] in H. injection H as H.
  apply log4j_find_level_among in E2.
  assert (H1 : level e1 = LogLevel.Unknown).
  { ret_cases; subst; entry_simpl; reflexivity. }
  assert (H2 : level e' = level e2).
  { subst e'. goal_cases; entry_simpl; reflexivity. }
  unfold level_among in *. rewrite H2. cbn [In] in *.
  destruct E2 as [E2|E2]; [left; congruence|tauto].
Qed.

(** X21. The records of a document read as [Log4j] have a message that is not
    empty, and a severity that is [Unknown] or one of [Trace], [Debug],
    [Info], [Warning], [Error] and [Fatal]. *)
Theorem Update_log4j_records (platform : Platform)
    (this this' : LOGFile) :
  Update platform this = Ret (true, this') ->
  detectedFormat this' = LogFormat.Log4j ->
  Forall (fun e => message e <> [] /\
                   level_among [LogLevel.Unknown; LogLevel.Trace;
                                LogLevel.Debug; LogLevel.Info;
                                LogLevel.Warning; LogLevel.Error;
                                LogLevel.Fatal] e)
    (entries this').
Proof.
  intros H Hf.
  apply (Update_records_of_lines platform this this' _ H).
  intros content line entry e Hne Hno Hsz _ Hb.
  rewrite Hf in Hb. cbn [body_of] in Hb.
  split; [apply (log4j_line_message _ _ _ Hb Hne)|].
  apply (log4j_line_level_among _ _ _ Hb).
Qed.

Lemma Update_log4j_records_witness :
  Forall (fun e => message e <> [] /\
                   level_among [LogLevel.Unknown; LogLevel.Trace;
                                LogLevel.Debug; LogLevel.Info;
                                LogLevel.Warning; LogLevel.Error;
                                LogLevel.Fatal] e)
    (entries (refreshed (session log4j_sample))).
Proof.
  apply (Update_log4j_records saturating (session log4j_sample)).
  - vm_compute. reflexivity.
  - vm_compute. reflexivity.
Defined.

(** *** A row of the level table that is never used *)

Lemma find_seq_least (f : nat -> bool) :
  forall (n a j : nat),
    (a <= j < a + n)%nat -> f j = true ->
    exists i, List.find f (seq a n) = Some i /\ (i <= j)%nat.
Proof.
  induction n as [|n IH]; intros a j Hj Hf; [lia|].
  cbn [seq List.find]. destruct (f a) eqn:E.
  - exists a. split; [reflexivity|lia].
  - apply IH; [|exact Hf].
    destruct (Nat.eq_dec j a) as [->|Hne]; [congruence|lia].
Qed.

(** Where [p ++ b] occurs, [p] occurs: its first occurrence is not later
    than that of [p ++ b]. *)
Lemma find_prefix_first (s p b : string_view) :
  size s < npos ->
  find s (p ++ b) 0 <> npos ->
  find s p 0 <> npos /\ find s p 0 <= find s (p ++ b) 0.
Proof.
  intros Hs. rewrite !find_first_occurrence.
  destruct (first_occurrence_from (p ++ b) s 0) as [j|] eqn:E;
    [intros _|congruence].
  destruct (first_occurrence_bound _ _ _ _ E) as [Hj Ho].
  unfold occurs_at in Ho. apply starts_with_app_r in Ho.
  destruct (find_seq_least (occurs_at p s) (List.length s + 1 - 0) 0 j
              ltac:(lia) Ho) as [i [Hi Hle]].
  unfold first_occurrence_from. rewrite Hi.
  unfold size, npos in *. split; lia.
Qed.

(** X22. The row WARNING of the level table of the structured-framework
    parser is never the one that matches: where WARNING occurs, WARN,
    which stands before it in the table, occurs as well, so that the
    parser behaves as if the table had no such row. *)
Theorem log4j_WARNING_never_matched (remaining : string_view)
    (entry : LogEntry) :
  size remaining < npos ->
  log4j_find_level log4j_levels remaining entry =
  log4j_find_level log4j_levels_in_use remaining entry.
Proof.
  intros Hs. unfold log4j_levels, log4j_levels_in_use.
  cbn [log4j_find_level]. cbv zeta.
  destruct (negb (find remaining (lit "TRACE") 0 =? npos) &&
            (find remaining (lit "TRACE") 0 <? 20)); [reflexivity|].
  destruct (negb (find remaining (lit "DEBUG") 0 =? npos) &&
            (find remaining (lit "DEBUG") 0 <? 20)); [reflexivity|].
  destruct (negb (find remaining (lit "INFO") 0 =? npos) &&
            (find remaining (lit "INFO") 0 <? 20)); [reflexivity|].
  destruct (negb (find remaining (lit "WARN") 0 =? npos) &&
            (find remaining (lit "WARN") 0 <? 20)) eqn:EW; [reflexivity|].
  assert (Hdead : negb (find remaining (lit "WARNING") 0 =? npos) &&
                  (find remaining (lit "WARNING") 0 <? 20) = false).
  { destruct (Z.eqb_spec (find remaining (lit "WARNING") 0) npos) as [E|E];
      [reflexivity|].
    cbn [negb andb].
    change (lit "WARNING") with (lit "WARN" ++ lit "ING") in *.
    destruct (find_prefix_first remaining (lit "WARN") (lit "ING") Hs E)
      as [H1 H2].
    apply Z.eqb_neq in H1. rewrite H1 in EW. cbn [negb andb] in EW.
    apply Z.ltb_ge in EW. apply Z.ltb_ge. lia. }
  rewrite Hdead. reflexivity.
Qed.

Lemma log4j_WARNING_never_matched_witness :
  log4j_find_level log4j_levels
    (lit " WARNING [main] Worker - disk almost full") LogEntry_new =
  log4j_find_level log4j_levels_in_use
    (lit " WARNING [main] Worker - disk almost full") LogEntry_new.
Proof. apply log4j_WARNING_never_matched. vm_compute. reflexivity. Defined.

End KeywordRecords.

(** ** The fields of an access-log line *)

Module AccessFields.

Import StringViewFacts ParserTotality AccessStatus LineRecords.

Lemma find_char_first (pre post : string_view) (c : ascii) :
  ~ In c pre -> find_char (pre ++ c :: post) c 0 = size pre.
Proof.
  intros H. unfold find_char, find.
  pose proof (size_nonneg (pre ++ c :: post)).
  destruct (Z.ltb_spec (size (pre ++ c :: post)) 0); [lia|].
  change (Z.to_nat 0) with 0%nat. cbn [skipn].
  rewrite find_at_char_skip by exact H. unfold size. lia.
Qed.

Lemma find_char_next (done mid post : string_view) (c : ascii) :
  ~ In c mid ->
  find_char (done ++ mid ++ c :: post) c (size done) = size done + size mid.
Proof.
  intros H. rewrite find_char_after.
  rewrite find_at_char_skip by exact H. unfold size. lia.
Qed.

Lemma substr_middle (a m b : string_view) :
  substr (a ++ m ++ b) (size a) (size m) = Ret m.
Proof.
  pose proof (size_nonneg m). pose proof (size_nonneg b).
  rewrite substr_ok by (rewrite !size_app; lia).
  rewrite skipn_size_app. rewrite !size_app.
  rewrite Z.min_l by lia. unfold size. rewrite Nat2Z.id.
  rewrite firstn_app, Nat.sub_diag. cbn [firstn]. rewrite app_nil_r.
  rewrite firstn_all. reflexivity.
Qed.

Lemma substr_to_end (a b : string_view) :
  size b < npos -> substr (a ++ b) (size a) npos = Ret b.
Proof.
  intros Hb. pose proof (size_nonneg b).
  rewrite substr_ok by (rewrite size_app; lia).
  rewrite skipn_size_app. rewrite size_app.
  rewrite Z.min_r by lia.
  replace (size a + size b - size a) with (size b) by lia.
  unfold size. rewrite Nat2Z.id. rewrite firstn_all. reflexivity.
Qed.

(** Both sides are the same list, bracketed differently. *)
Ltac same_list :=
  repeat first [rewrite <- app_assoc | progress cbn [app]]; reflexivity.

Lemma method_step_fields (method u proto : string_view) (entry : LogEntry) :
  size (method ++ " "%char :: u ++ " "%char :: proto) < npos ->
  ~ In " "%char method -> ~ In " "%char u ->
  method_step (method ++ " "%char :: u ++ " "%char :: proto) entry =
  Ret (set_url (set_httpMethod entry method) u).
Proof.
  intros Hs Hm Hu. unfold method_step. cbv zeta.
  set (request := method ++ " "%char :: u ++ " "%char :: proto) in *.
  pose proof (size_nonneg method) as N1. pose proof (size_nonneg u) as N2.
  pose proof (size_nonneg proto) as N3.
  assert (Hsize : size request = size method + 1 + size u + 1 + size proto).
  { subst request. rewrite size_app, size_cons, size_app, size_cons. lia. }
  assert (H1 : find_char request " " 0 = size method)
    by (apply find_char_first; exact Hm).
  rewrite H1.
  destruct (Z.eqb_spec (size method) npos) as [E|_]; [lia|]. cbn [negb].
  assert (H2 : substr request 0 (size method) = Ret method).
  { change 0 with (size []) at 1.
    change request with ([] ++ method ++ " "%char :: u ++ " "%char :: proto).
    apply substr_middle. }
  rewrite H2. cbn [bind].
  rewrite add64_small by (unfold npos, two64 in *; lia).
  assert (R : request = (method ++ [" "%char]) ++ u ++ " "%char :: proto)
    by (subst request; same_list).
  assert (Hd : size (method ++ [" "%char]) = size method + 1)
    by (rewrite size_app; reflexivity).
  assert (H3 : find_char request " " (size method + 1)
               = size method + 1 + size u).
  { rewrite R, <- Hd. apply find_char_next. exact Hu. }
  rewrite H3.
  destruct (Z.eqb_spec (size method + 1 + size u) npos) as [E|_]; [lia|].
  cbn [negb].
  rewrite (sub64_small (size method + 1 + size u) (size method))
    by (unfold npos, two64 in *; lia).
  rewrite sub64_small by (unfold npos, two64 in *; lia).
  replace (size method + 1 + size u - size method - 1) with (size u) by lia.
  assert (H4 : substr request (size method + 1) (size u) = Ret u).
  { rewrite R, <- Hd. apply substr_middle. }
  rewrite H4. reflexivity.
Qed.

Lemma status_step_fields (platform : Platform) (behind rest : string_view)
    (entry e : LogEntry) :
  status_step platform behind rest entry = Ret e ->
  ipAddress e = ipAddress entry /\ timestamp e = timestamp entry /\
  httpMethod e = httpMethod entry /\ url e = url entry.
Proof.
  intros H. unfold status_step in H. cbv zeta in H.
  ret_cases; subst; goal_cases; entry_simpl; auto.
Qed.

Lemma timestamp_step_fields (before ts after : string_view)
    (entry : LogEntry) :
  size (before ++ "["%char :: ts ++ "]"%char :: after) < npos ->
  ~ In "["%char before -> ~ In "]"%char before -> ~ In "]"%char ts ->
  timestamp_step (before ++ "["%char :: ts ++ "]"%char :: after) entry =
  Ret (set_timestamp entry ts).
Proof.
  intros Hs Hb1 Hb2 Ht. unfold timestamp_step. cbv zeta.
  set (line := before ++ "["%char :: ts ++ "]"%char :: after) in *.
  pose proof (size_nonneg before) as N1. pose proof (size_nonneg ts) as N2.
  pose proof (size_nonneg after) as N3.
  assert (Hsize : size line = size before + 1 + size ts + 1 + size after).
  { subst line. rewrite size_app, size_cons, size_app, size_cons. lia. }
  assert (H1 : find_char line "[" 0 = size before)
    by (apply find_char_first; exact Hb1).
  assert (R : line = (before ++ "["%char :: ts) ++ "]"%char :: after)
    by (subst line; same_list).
  assert (Hd : size (before ++ "["%char :: ts) = size before + 1 + size ts)
    by (rewrite size_app, size_cons; lia).
  assert (H2 : find_char line "]" 0 = size before + 1 + size ts).
  { rewrite R, <- Hd. apply find_char_first.
    rewrite in_app_iff. cbn [In]. intros [Hi|[Hi|Hi]];
      [exact (Hb2 Hi)|discriminate|exact (Ht Hi)]. }
  rewrite H1, H2.
  destruct (Z.eqb_spec (size before) npos) as [E|_]; [lia|].
  destruct (Z.eqb_spec (size before + 1 + size ts) npos) as [E|_]; [lia|].
  cbn [negb andb].
  rewrite add64_small by (unfold npos, two64 in *; lia).
  rewrite (sub64_small (size before + 1 + size ts) (size before))
    by (unfold npos, two64 in *; lia).
  rewrite sub64_small by (unfold npos, two64 in *; lia).
  replace (size before + 1 + size ts - size before - 1) with (size ts)
    by lia.
  assert (R2 : line = (before ++ ["["%char]) ++ ts ++ "]"%char :: after)
    by (subst line; same_list).
  assert (Hd2 : size (before ++ ["["%char]) = size before + 1)
    by (rewrite size_app; reflexivity).
  rewrite R2 at 1. rewrite <- Hd2. rewrite substr_middle. reflexivity.
Qed.

Lemma request_step_fields (platform : Platform)
    (behind pre request rest : string_view) (entry : LogEntry) :
  size (pre ++ dquote :: request ++ dquote :: rest) < npos ->
  ~ In dquote pre -> ~ In dquote request ->
  request_step platform behind
    (pre ++ dquote :: request ++ dquote :: rest) entry =
  (entry <- method_step request entry ;;
   status_step platform behind rest entry).
Proof.
  intros Hs Hp Hr. unfold request_step. cbv zeta.
  set (line := pre ++ dquote :: request ++ dquote :: rest) in *.
  pose proof (size_nonneg pre) as N1. pose proof (size_nonneg request) as N2.
  pose proof (size_nonneg rest) as N3.
  assert (Hsize : size line = size pre + 1 + size request + 1 + size rest).
  { subst line. rewrite size_app, size_cons, size_app, size_cons. lia. }
  assert (H1 : find_char line dquote 0 = size pre)
    by (apply find_char_first; exact Hp).
  rewrite H1.
  destruct (Z.eqb_spec (size pre) npos) as [E|_]; [lia|]. cbn [negb].
  rewrite add64_small by (unfold npos, two64 in *; lia).
  assert (R : line = (pre ++ [dquote]) ++ request ++ dquote :: rest)
    by (subst line; same_list).
  assert (Hd : size (pre ++ [dquote]) = size pre + 1)
    by (rewrite size_app; reflexivity).
  assert (H2 : find_char line dquote (size pre + 1)
               = size pre + 1 + size request).
  { rewrite R, <- Hd. apply find_char_next. exact Hr. }
  rewrite H2.
  destruct (Z.eqb_spec (size pre + 1 + size request) npos) as [E|_]; [lia|].
  cbn [negb].
  rewrite (sub64_small (size pre + 1 + size request) (size pre))
    by (unfold npos, two64 in *; lia).
  rewrite sub64_small by (unfold npos, two64 in *; lia).
  replace (size pre + 1 + size request - size pre - 1) with (size request)
    by lia.
  assert (H3 : substr line (size pre + 1) (size request) = Ret request).
  { rewrite R, <- Hd. apply substr_middle. }
  rewrite H3. cbn [bind].
  rewrite add64_small by (unfold npos, two64 in *; lia).
  assert (R2 : line = (pre ++ dquote :: request ++ [dquote]) ++ rest)
    by (subst line; same_list).
  assert (Hd2 : size (pre ++ dquote :: request ++ [dquote])
                = size pre + 1 + size request + 1).
  { rewrite size_app, size_cons, size_app. change (size [dquote]) with 1.
    lia. }
  assert (H4 : substr line (size pre + 1 + size request + 1) npos = Ret rest).
  { rewrite R2, <- Hd2. apply substr_to_end. lia. }
  destruct (method_step request entry) as [e1| |]; cbn [bind];
    [|reflexivity|reflexivity].
  rewrite H4. reflexivity.
Qed.

(** [c] is not in a list, given that it is in none of its parts. *)
Ltac notin H :=
  let Hi := fresh "Hi" in
  intros Hi; apply H; clear - Hi;
  repeat first [rewrite in_app_iff in * | progress cbn [In] in *];
  change dquote with (Ascii false true false false false true false false)
    in *;
  intuition discriminate.

Lemma status_step_total (platform : Platform) (behind rest : string_view)
    (entry : LogEntry) :
  exists e, status_step platform behind rest entry = Ret e.
Proof.
  unfold status_step. cbv zeta. destruct (negb _); eexists; reflexivity.
Qed.

(** X23. For a line with the layout of an access-log line, the access-log
    parser yields the address, the timestamp, the method and the address
    of the resource of the line as [ipAddress], [timestamp], [httpMethod]
    and [url], and the line as message. *)
Theorem apache_line_fields (platform : Platform)
    (behind line ip mid1 ts mid2 method u proto rest : string_view)
    (lineStart lineEnd lineNum : Z) :
  size line < npos ->
  access_layout line ip mid1 ts mid2 method u proto rest ->
  exists e,
    apache_line platform behind line (new_entry lineStart lineEnd lineNum)
    = Ret e /\
    ipAddress e = ip /\ timestamp e = ts /\ httpMethod e = method /\
    url e = u /\ message e = line.
Proof.
  intros Hs (Hl & Hip & Hbr & Hcb & Hq1 & Hq2 & Hm & Hu).
  rewrite apache_line_steps. cbv zeta.
  set (request := method ++ " "%char :: u ++ " "%char :: proto) in *.
  set (pre := ip ++ " "%char :: mid1 ++ "["%char :: ts ++ "]"%char :: mid2).
  assert (L1 : line = ip ++ " "%char ::
                 (mid1 ++ "["%char :: ts ++ "]"%char :: mid2 ++
                  dquote :: request ++ dquote :: rest))
    by (rewrite Hl; subst request; same_list).
  assert (L2 : line = (ip ++ " "%char :: mid1) ++ "["%char :: ts ++
                 "]"%char :: (mid2 ++ dquote :: request ++ dquote :: rest))
    by (rewrite Hl; subst request; same_list).
  assert (L3 : line = pre ++ dquote :: request ++ dquote :: rest)
    by (rewrite Hl; subst pre request; same_list).
  pose proof (size_nonneg ip) as N1.
  assert (Hsip : size ip < size line).
  { rewrite L1, size_app, size_cons.
    pose proof (size_nonneg
                  (mid1 ++ "["%char :: ts ++ "]"%char :: mid2 ++
                   dquote :: request ++ dquote :: rest)).
    lia. }
  (* the address *)
  assert (F1 : find_char line " " 0 = size ip)
    by (rewrite L1; apply find_char_first; exact Hip).
  rewrite F1.
  destruct (Z.eqb_spec (size ip) npos) as [E|_]; [lia|]. cbn [negb].
  assert (S1 : substr line 0 (size ip) = Ret ip).
  { rewrite L1. change 0 with (size []) at 1.
    apply (substr_middle [] ip). }
  rewrite S1. cbn [bind].
  (* the timestamp *)
  assert (T1 : timestamp_step line
                 (set_ipAddress (new_entry lineStart lineEnd lineNum) ip) =
               Ret (set_timestamp
                      (set_ipAddress (new_entry lineStart lineEnd lineNum) ip)
                      ts)).
  { rewrite L2. apply timestamp_step_fields.
    - rewrite <- L2. exact Hs.
    - notin Hbr.
    - notin Hcb.
    - notin Hcb. }
  rewrite T1. cbn [bind].
  (* the request *)
  assert (Q1 : ~ In dquote pre) by (subst pre; notin Hq1).
  assert (Q2 : ~ In dquote request) by (subst request; notin Hq2).
  assert (R1 : forall entry,
             request_step platform behind line entry =
             (entry <- method_step request entry ;;
              status_step platform behind rest entry)).
  { intros entry. rewrite L3.
    apply request_step_fields; [rewrite <- L3; exact Hs|exact Q1|exact Q2]. }
  rewrite R1.
  assert (Hsr : size request < npos).
  { rewrite L3, size_app, size_cons, size_app in Hs.
    pose proof (size_nonneg pre). pose proof (size_nonneg (dquote :: rest)).
    lia. }
  unfold request at 1.
  rewrite method_step_fields; [|exact Hsr|exact Hm|exact Hu]. cbn [bind].
  destruct (status_step_total platform behind rest
              (set_url
                 (set_httpMethod
                    (set_timestamp
                       (set_ipAddress (new_entry lineStart lineEnd lineNum)
                          ip) ts) method) u)) as [e3 He3].
  rewrite He3. cbn [bind]. eexists. split; [reflexivity|].
  destruct (status_step_fields _ _ _ _ _ He3) as (K1 & K2 & K3 & K4).
  entry_simpl. repeat split; assumption.
Qed.

Lemma apache_line_fields_witness :
  exists e,
    apache_line saturating [] scenario_A (new_entry 0 77 1) = Ret e /\
    ipAddress e = lit "127.0.0.1" /\
    timestamp e = lit "10/Oct/2023:13:55:36 +0000" /\
    httpMethod e = lit "GET" /\
    url e = lit "/index.html" /\ message e = scenario_A.
Proof.
  apply (apache_line_fields saturating [] scenario_A (lit "127.0.0.1")
           (lit "- - ") (lit "10/Oct/2023:13:55:36 +0000") (lit " ")
           (lit "GET") (lit "/index.html") (lit "HTTP/1.1")
           (lit " 200 612") 0 77 1).
  - reflexivity.
  - repeat split; try reflexivity; apply mem_not_In; reflexivity.
Defined.

End AccessFields.
